(** * NewsHub: feed aggregation and state cache

    A shallow embedding of the two aggregator implementations of the
    repository,

    - [App0]: the FastAPI service of [src/app0.py] (module-level functions
      over the process-wide [app_state] dictionary), and
    - [T1]: the stand-alone class [NewsFetcher] of [src/t1.py],

    together with the properties of their merge pass, refresh gate, query
    views and saved-article store.

    Conventions.  A Python [str] is a [string] whose characters are the code
    points U+0000..U+00FF; a Python [int] is a [Z]; a [set] of strings is a
    [gset string]; a dictionary with a fixed set of keys is a record; a value
    that may be missing is an [option].  Wall-clock time is a [Z] (micro-
    seconds for [datetime], as [timedelta] counts them).  The order in which
    a set is visited is an explicit argument too ([Py.set_iter]).  Everything the code
    obtains from outside the process (feeds, pages, the clock, the token
    generator, the files) is an explicit argument. *)

From Stdlib Require Import ZArith Lia Bool Ascii String Permutation.
From stdpp Require Import gmap strings list sets sorting pretty.

Local Open Scope string_scope.
Local Open Scope Z_scope.
Local Open Scope list_scope.

(** ** Python primitives used by the code *)

Module Py.

(** [str.isspace] on one character (restricted to code points below 256):
    TAB..CR, FS..US, SPACE, NEL and NBSP. *)
Definition isspace (c : ascii) : bool :=
  let n := N_of_ascii c in
  ((9 <=? n) && (n <=? 13) || (28 <=? n) && (n <=? 32)
   || (n =? 133) || (n =? 160))%N.

(** [str.lower] on one character: A-Z and the Latin-1 capitals
    U+00C0..U+00DE (without the multiplication sign U+00D7). *)
Definition lower_char (c : ascii) : ascii :=
  let n := N_of_ascii c in
  if ((65 <=? n) && (n <=? 90)
      || (192 <=? n) && (n <=? 222) && negb (n =? 215))%N
  then ascii_of_N (n + 32) else c.

Fixpoint lower (s : string) : string :=
  match s with
  | EmptyString => EmptyString
  | String c s' => String (lower_char c) (lower s')
  end.

Fixpoint lstrip (s : string) : string :=
  match s with
  | EmptyString => EmptyString
  | String c s' => if isspace c then lstrip s' else s
  end.

Fixpoint rstrip (s : string) : string :=
  match s with
  | EmptyString => EmptyString
  | String c s' =>
      match rstrip s' with
      | EmptyString => if isspace c then EmptyString else String c EmptyString
      | r => String c r
      end
  end.

(** [s.strip()] *)
Definition strip (s : string) : string := rstrip (lstrip s).

(** Truth value of a string: [bool(s)]. *)
Definition truthy (s : string) : bool := negb (s =? "")%string.

(** [q in s] for strings. *)
Fixpoint contains (q s : string) : bool :=
  String.prefix q s
  || match s with
     | EmptyString => false
     | String _ s' => contains q s'
     end.

(** [s.split()]: the maximal runs of non-space characters; [cur] is the
    run being read. *)
Fixpoint split_go (cur : string) (s : string) : list string :=
  match s with
  | EmptyString => if truthy cur then [cur] else []
  | String c s' =>
      if isspace c
      then (if truthy cur then cur :: split_go "" s' else split_go "" s')
      else split_go (cur +:+ String c "") s'
  end.
Definition split (s : string) : list string := split_go "" s.

(** [sep.join(l)] *)
Definition join (sep : string) (l : list string) : string := String.concat sep l.

(** An index of a slice, brought into [0 .. len] the way [l[a:b]] does. *)
Definition slice_index (len i : Z) : Z :=
  if i <? 0 then Z.max 0 (i + len) else Z.min i len.

(** [l[start:stop]] *)
Definition slice {A} (l : list A) (start stop : Z) : list A :=
  let len := Z.of_nat (length l) in
  let a := slice_index len start in
  let b := slice_index len stop in
  take (Z.to_nat (b - a)) (drop (Z.to_nat a) l).

(** [a // b]; [None] stands for [ZeroDivisionError]. *)
Definition floordiv (a b : Z) : option Z :=
  if b =? 0 then None else Some (a / b).

Section Sort.
Context {A K : Type} (lt : K -> K -> bool) (key : A -> K).

(** One step of a stable sort: [x] stood left of every element of [l].
    It moves right across the elements that must precede it: those with
    a smaller key, or with a greater key when [reverse] is set. *)
Fixpoint insert_sorted (reverse : bool) (x : A) (l : list A) : list A :=
  match l with
  | [] => [x]
  | y :: l' =>
      if (if reverse then lt (key x) (key y) else lt (key y) (key x))
      then y :: insert_sorted reverse x l'
      else x :: y :: l'
  end.

(** [sorted(l, key=key, reverse=reverse)], also [l.sort(...)]. *)
Definition sorted (reverse : bool) (l : list A) : list A :=
  foldr (insert_sorted reverse) [] l.
End Sort.

(** [for x in s], [list(s)] for a set [s].  The order in which a set is
    visited is not fixed by its value: it depends on the hashes of the
    elements and on the history of the set.  [hash] stands for whatever
    fixes the order at one iteration: the elements are visited by ascending
    [hash].  Every order of the elements is obtained for some [hash], and
    each iteration of the code is given a [hash] of its own. *)
Definition set_iter (hash : string -> Z) (s : gset string) : list string :=
  sorted Z.ltb hash false (elements s).

(** [time.struct_time], as far as [t[:6]] goes. *)
Record struct_time := mkTime {
  tm_year : Z;
  tm_mon : Z;
  tm_mday : Z;
  tm_hour : Z;
  tm_min : Z;
  tm_sec : Z;
}.

Definition is_leap (y : Z) : bool :=
  (y mod 4 =? 0) && (negb (y mod 100 =? 0) || (y mod 400 =? 0)).

Definition days_in_month (y m : Z) : Z :=
  if m =? 2 then (if is_leap y then 29 else 28)
  else if (m =? 4) || (m =? 6) || (m =? 9) || (m =? 11) then 30
  else 31.

(** The days from 1970-01-01 to the day [y]-[m]-[d] of the proleptic
    Gregorian calendar. *)
Definition days_from_civil (y m d : Z) : Z :=
  let y' := if m <=? 2 then y - 1 else y in
  let era := y' / 400 in
  let yoe := y' - era * 400 in
  let mp := if 2 <? m then m - 3 else m + 9 in
  let doy := (153 * mp + 2) / 5 + d - 1 in
  let doe := yoe * 365 + yoe / 4 - yoe / 100 + doy in
  era * 146097 + doe - 719468.

(** [datetime] applied to the six fields [t[:6]], with
    [tzinfo=timezone.utc]: the instant, in microseconds since the epoch.  [None] stands for the [ValueError] that [datetime]
    raises for a year outside 1..9999 or any other component out of range. *)
Definition datetime (t : struct_time) : option Z :=
  let y := tm_year t in
  let m := tm_mon t in
  let d := tm_mday t in
  if (1 <=? y) && (y <=? 9999) && (1 <=? m) && (m <=? 12)
     && (1 <=? d) && (d <=? days_in_month y m)
     && (0 <=? tm_hour t) && (tm_hour t <=? 23)
     && (0 <=? tm_min t) && (tm_min t <=? 59)
     && (0 <=? tm_sec t) && (tm_sec t <=? 59)
  then Some ((((days_from_civil y m d * 24 + tm_hour t) * 60 + tm_min t) * 60
              + tm_sec t) * 1000000)
  else None.

(** [s.startswith(p)] *)
Definition startswith (p s : string) : bool := String.prefix p s.

(** [s.endswith(suffix)] *)
Fixpoint endswith (suffix s : string) : bool :=
  (s =? suffix)%string
  || match s with
     | EmptyString => false
     | String _ s' => endswith suffix s'
     end.

(** [s.replace(old, new)] for a non-empty [old]: the occurrences of [old]
    are replaced from left to right; [skip] characters of the occurrence
    just replaced are still to be passed over. *)
Fixpoint replace_go (skip : nat) (old new s : string) : string :=
  match s with
  | EmptyString => EmptyString
  | String c s' =>
      match skip with
      | S k => replace_go k old new s'
      | O =>
          if String.prefix old s
          then new +:+ replace_go (String.length old - 1) old new s'
          else String c (replace_go 0 old new s')
      end
  end.
Definition replace (old new s : string) : string := replace_go 0 old new s.

(** [d[k] = d.get(k, 0) + 1] on a dictionary kept as the list of its
    items, in insertion order. *)
Fixpoint bump (k : string) (d : list (string * Z)) : list (string * Z) :=
  match d with
  | [] => [(k, 1)]
  | (k', v) :: d' =>
      if (k' =? k)%string then (k', v + 1) :: d' else (k', v) :: bump k d'
  end.

(** [d[k] = v] on such a list. *)
Fixpoint dict_set {V} (k : string) (v : V) (d : list (string * V)) : list (string * V) :=
  match d with
  | [] => [(k, v)]
  | (k', v') :: d' =>
      if (k' =? k)%string then (k', v) :: d' else (k', v') :: dict_set k v d'
  end.

(** [d.get(k, 0)] on such a list. *)
Fixpoint get0 (k : string) (d : list (string * Z)) : Z :=
  match d with
  | [] => 0
  | (k', v) :: d' => if (k' =? k)%string then v else get0 k d'
  end.

End Py.

(** ** Data model *)

(** An entry of a parsed feed ([feedparser]); every attribute may be missing. *)
Record Entry := mkEntry {
  e_id : option string;
  e_guid : option string;
  e_link : option string;
  e_title : option string;
  e_summary : option string;
  e_description : option string;
  e_published : option string;
  e_published_parsed : option Py.struct_time;   (* [None]: absent or falsy *)
}.

(** A news item: the dictionary built for each accepted entry.  The key
    ["published_parsed"] exists only in the items of [NewsFetcher]. *)
Record Item := mkItem {
  title : string;
  desc : string;
  link : string;
  date : string;
  published_parsed : option Z;
  sourceUrl : string;
  sourceId : string;
  sourceName : string;
  guid : string;
}.

(** A record of [saved/articles.json]; [sa_id] is written by [NewsFetcher]
    only. *)
Record SavedArticle := mkSaved {
  sa_sourceUrl : string;
  sa_sourceName : string;
  sa_title : string;
  sa_preview100 : string;
  sa_fullText : string;
  sa_savedAt : Z;
  sa_id : option string;
}.

(** The file [saved/articles.json]: [None] when it does not exist.
    [writable] tells whether opening it for writing succeeds. *)
Record Disk := mkDisk {
  articles_file : option (list SavedArticle);
  writable : bool;
}.

(** The fingerprint of an item in the viewed set. *)
Definition news_id (n : Item) : string := link n +:+ title n.

(** The network as one request sees it: [feed_of url] is the list of entries
    obtained from a feed ([None]: the request or the parse raised), and
    [page_text url] is the result of [fetch_full_text_from_page], which
    catches its own errors and then returns the empty string. *)
Record Web := mkWeb {
  feed_of : string -> option (list Entry);
  page_text : string -> string;
}.

(** The source catalog.  The tables [ALL_FEEDS] and the display names are
    data; the functions take them as arguments. *)
Record Catalog := mkCatalog {
  ALL_FEEDS : gmap string string;
  display_name : string -> string;
}.

(** ** The web service, [src/app0.py] *)

Module App0.

Definition CACHE_DURATION_MINUTES : Z := 5.
Definition PAGE_SIZE : Z := 10.
Definition MAX_NEWS_ITEMS : nat := 500.

(** The literals of the source are Cyrillic; the model's strings stop at
    U+00FF, so the placeholders are transliterated. *)
Definition NO_TITLE : string := "bez nazvaniya".
Definition NO_DESCRIPTION : string := "net opisaniya".

(** [app_state] without its lock. *)
Record AppState := mkState {
  news : list Item;
  seen_news : gset string;
  saved_links : gset string;
  last_fetch_time : option Z;
}.

Definition initial_state : AppState :=
  {| news := []; seen_news := ∅; saved_links := ∅; last_fetch_time := None |}.

(** What a handler answers.  The redirect targets are ["/"],
    ["/?sort=date"] and ["/?notify=<message>"]. *)
Inductive Notice :=
| WaitMinutes (minutes_left : Z)
| LoadError
| NotFound
| NoText
| SaveError
| ViewedCleared.

Inductive Response :=
| RedirectHome
| RedirectSortDate
| RedirectNotify (n : Notice).

(** [load_selected_feeds]; [db] holds the rows of [favorite_sources]
    ([None]: sqlite raises).  The result is a set. *)
Definition load_selected_feeds (db : option (list string)) : option (gset string) :=
  rows ← db;
  Some (if decide (rows = []) then {["lenta"; "ria"; "bbc"]} else list_to_set rows).

(** [load_saved_articles] *)
Definition load_saved_articles (d : Disk) : list SavedArticle :=
  default [] (articles_file d).

(** [save_article]: [None] when writing raises, otherwise the value
    returned and the file afterwards. *)
Definition save_article (article : SavedArticle) (link_ : string) (d : Disk)
  : option (bool * Disk) :=
  let saved_articles := load_saved_articles d in
  if existsb (fun a => (sa_sourceUrl a =? link_)%string) saved_articles
  then Some (false, d)
  else
    let saved_articles := saved_articles ++ [article] in
    if writable d
    then Some (true, {| articles_file := Some saved_articles; writable := writable d |})
    else None.

(** *** The merge pass *)

(** The local variables of [fetch_rss_feeds], with the number of tokens
    drawn from [uuid.uuid4] and the feed addresses requested so far. *)
Record Pass := mkPass {
  news_items : list Item;
  seen_guids : gset string;
  seen_links : gset string;
  uuids : nat;
  requested : list string;
}.

Section Fetch.
Variable cat : Catalog.
Variable uuid4 : nat -> string.   (* the tokens [str(uuid.uuid4())] yields, in order *)
Variable web : Web.

(** The body of the loop over the entries of one feed.  The default of
    [entry.get("link", ...)] is evaluated for every entry. *)
Definition visit_entry (feed_id url : string) (p : Pass) (entry : Entry) : Pass :=
  let guid := default (default (uuid4 (uuids p)) (e_link entry)) (e_id entry) in
  let link := default "#" (e_link entry) in
  if bool_decide (guid ∈ seen_guids p) || bool_decide (link ∈ seen_links p)
  then mkPass (news_items p) (seen_guids p) (seen_links p) (S (uuids p)) (requested p)
  else
    let pub_date := default "" (e_published entry) in
    let item :=
      {| title := default NO_TITLE (e_title entry);
         desc := default (default NO_DESCRIPTION (e_description entry)) (e_summary entry);
         link := link;
         date := pub_date;
         published_parsed := None;
         sourceUrl := url;
         sourceId := feed_id;
         sourceName := display_name cat feed_id;
         guid := guid |} in
    mkPass (news_items p ++ [item]) ({[guid]} ∪ seen_guids p)
           ({[link]} ∪ seen_links p) (S (uuids p)) (requested p).

(** The body of the loop over the selected feeds. *)
Definition visit_feed (p : Pass) (feed_id : string) : Pass :=
  match ALL_FEEDS cat !! feed_id with
  | None => p
  | Some url =>
      let p := mkPass (news_items p) (seen_guids p) (seen_links p) (uuids p)
                      (requested p ++ [url]) in
      match feed_of web url with
      | None => p
      | Some entries => foldl (visit_entry feed_id url) p (take 20 entries)
      end
  end.

(** The loop over the selected feeds; [selected_feeds] is the set in the
    order the loop visits it. *)
Definition merge_pass (selected_feeds : list string) (u : nat) : Pass :=
  foldl visit_feed (mkPass [] ∅ ∅ u []) selected_feeds.

(** [fetch_rss_feeds]: the items returned. *)
Definition fetch_rss_feeds (selected_feeds : list string) (u : nat) : list Item :=
  take MAX_NEWS_ITEMS
    (Py.sorted String.ltb date true (news_items (merge_pass selected_feeds u))).
End Fetch.

(** *** Handlers *)

(** [startup_event]; [None] when [load_selected_feeds] raises.  [hash]
    fixes the order in which the loop of [fetch_rss_feeds] visits the
    selection. *)
Definition startup_event (cat : Catalog) (uuid4 : nat -> string) (web : Web)
    (hash : string -> Z)
    (db : option (list string)) (d : Disk) (now : Z) (u : nat) (st : AppState)
  : option AppState :=
  selected_feeds ← load_selected_feeds db;
  let saved_articles := load_saved_articles d in
  let saved := list_to_set (filter (fun s => Py.truthy s = true)
                                   (sa_sourceUrl <$> saved_articles)) in
  Some (match news st with
        | [] => mkState (fetch_rss_feeds cat uuid4 web
                           (Py.set_iter hash selected_feeds) u)
                        (seen_news st) saved (Some now)
        | _ => mkState (news st) (seen_news st) saved (last_fetch_time st)
        end).

(** [POST /fetch].  Besides the answer and the state, the result lists the
    feed addresses requested.  Times are in microseconds; the minutes
    [int(elapsed.total_seconds() // 60)] are the floor of the elapsed
    microseconds by 60 000 000: the floating-point value of
    [total_seconds()] is off by less than a microsecond, and so on the same
    side of every whole minute, as long as the two clock readings are less
    than 2^34 seconds (some five centuries) apart.  [hash] fixes the order
    in which the loop of [fetch_rss_feeds] visits the selection. *)
Definition fetch_news (cat : Catalog) (uuid4 : nat -> string) (web : Web)
    (hash : string -> Z)
    (db : option (list string)) (now : Z) (u : nat) (st : AppState)
  : Response * AppState * list string :=
  let gate :=
    match last_fetch_time st with
    | Some t =>
        let elapsed := now - t in
        if elapsed <? CACHE_DURATION_MINUTES * 60000000
        then Some (CACHE_DURATION_MINUTES - elapsed / 60000000)
        else None
    | None => None
    end in
  match gate with
  | Some minutes_left => (RedirectNotify (WaitMinutes minutes_left), st, [])
  | None =>
      match load_selected_feeds db with
      | None => (RedirectNotify LoadError, st, [])
      | Some selected_feeds =>
          (RedirectSortDate,
           mkState (fetch_rss_feeds cat uuid4 web (Py.set_iter hash selected_feeds) u)
                   (seen_news st) (saved_links st) (Some now),
           requested (merge_pass cat uuid4 web (Py.set_iter hash selected_feeds) u))
      end
  end.

(** The pagination block shared by [index] and [saved_news]. *)
Record Page (A : Type) := mkPage {
  page_items : list A;
  page : Z;
  total_pages : Z;
}.
Arguments mkPage {A}.
Arguments page_items {A}.
Arguments page {A}.
Arguments total_pages {A}.

Definition paginate {A} (sorted_news : list A) (page : Z) : Page A :=
  let total_items := Z.of_nat (length sorted_news) in
  let total_pages := Z.max 1 ((total_items + PAGE_SIZE - 1) / PAGE_SIZE) in
  let page := Z.max 1 (Z.min page total_pages) in
  let start_idx := (page - 1) * PAGE_SIZE in
  let end_idx := Z.min (start_idx + PAGE_SIZE) total_items in
  mkPage (Py.slice sorted_news start_idx end_idx) page total_pages.

Inductive SortKey := ByDate | ByTitle | BySource.

(** The badge count of [index] and [stats]:
    [sum(1 for n in news if fingerprint not in seen_news)]. *)
Definition new_count (st : AppState) : Z :=
  foldl Z.add 0
    ((fun _ => 1) <$> filter (fun n => news_id n ∉ seen_news st) (news st)).

(** [GET /]: the page shown and the badge count.  (The framework refuses a
    [page] below 1 before the handler runs; the handler itself clamps.) *)
Definition index (page : Z) (sort : SortKey) (source : option string) (st : AppState)
  : Page Item * Z :=
  let filtered_news :=
    match source with
    | Some s => if Py.truthy s
                then filter (fun n => sourceId n = s) (news st)
                else news st
    | None => news st
    end in
  let sorted_news :=
    match sort with
    | ByTitle => Py.sorted String.ltb (fun x => Py.lower (title x)) false filtered_news
    | BySource => Py.sorted String.ltb (fun x => Py.lower (sourceName x)) false filtered_news
    | ByDate => Py.sorted String.ltb date true filtered_news
    end in
  (paginate sorted_news page, new_count st).

(** [GET /saved] *)
Definition saved_news (page : Z) (d : Disk) : Page SavedArticle :=
  paginate (load_saved_articles d) page.

(** [GET /search]; [None] when the framework refuses the request because
    [q] is shorter than [min_length=1]. *)
Definition search (q : string) (st : AppState) : option (list Item) :=
  if (String.length q <? 1)%nat then None
  else
    let query := Py.strip q in
    Some (filter (fun item =>
                    Py.contains (Py.lower query) (Py.lower (title item))
                    || Py.contains (Py.lower query) (Py.lower (desc item))
                    || Py.contains (Py.lower query) (Py.lower (sourceName item)) = true)
                 (news st)).

(** The first item of the cache with the given link. *)
Definition find_article (link_ : string) (l : list Item) : option Item :=
  List.find (fun n => (link n =? link_)%string) l.

(** [100] first words of the text, or the text itself when it has no more. *)
Definition preview100 (full_text : string) : string :=
  let words := Py.split full_text in
  if (100 <? length words)%nat then Py.join " " (take 100 words) else full_text.

(** [POST /save].  The item found always has a title and a source name, so
    the defaults of [article.get] are never used. *)
Definition save_article_endpoint (web : Web) (now : Z) (link_ : string)
    (st : AppState) (d : Disk) : Response * AppState * Disk :=
  match find_article link_ (news st) with
  | None => (RedirectNotify NotFound, st, d)
  | Some article =>
      let full_text := page_text web link_ in
      if negb (Py.truthy full_text) then (RedirectNotify NoText, st, d)
      else
        let title_ := title article in
        let preview_with_title := title_ +:+ ". " +:+ preview100 full_text in
        let article_data :=
          {| sa_sourceUrl := link_;
             sa_preview100 := preview_with_title;
             sa_fullText := full_text;
             sa_savedAt := now;
             sa_sourceName := sourceName article;
             sa_title := title_;
             sa_id := None |} in
        match save_article article_data link_ d with
        | None => (RedirectNotify SaveError, st, d)
        | Some (true, d') =>
            (RedirectHome,
             mkState (news st) (seen_news st) ({[link_]} ∪ saved_links st)
                     (last_fetch_time st),
             d')
        | Some (false, d') => (RedirectHome, st, d')
        end
  end.

(** [GET /clear-cache] *)
Definition clear_cache (st : AppState) : Response * AppState :=
  (RedirectNotify ViewedCleared,
   mkState (news st) ∅ (saved_links st) (last_fetch_time st)).

(** *** Display names, the selection and custom feeds *)

(** [get_source_display_name]; [all_feeds] and [names] are the tables
    [ALL_FEEDS] and [SOURCE_DISPLAY_NAMES]. *)
Definition get_source_display_name (all_feeds names : gmap string string)
    (source_id : string) : string :=
  if Py.startswith "custom_" source_id && Py.endswith "_name" source_id
  then default (Py.replace "custom_" "" (Py.replace "_name" "" source_id))
               (all_feeds !! source_id)
  else if Py.startswith "custom_" source_id
  then let name_key := source_id +:+ "_name" in
       default (Py.replace "custom_" "" source_id) (all_feeds !! name_key)
  else default source_id (names !! source_id).

(** One check box of the selection page. *)
Record Choice := mkChoice {
  c_id : string;
  c_name : string;
  c_checked : bool;
}.

(** The category of the custom feeds on the selection page (in Russian in
    the source). *)
Definition CUSTOM_CATEGORY : string := "kastomnye".

(** [GET /select-sources]: the dictionary [categorized] and
    [selected_count]; [None] when [load_selected_feeds] raises.
    [categories] is the table [FEED_CATEGORIES]; [hash] fixes the order in
    which the loop over the selection visits it. *)
Definition select_sources (all_feeds names : gmap string string)
    (categories : list (string * list string)) (hash : string -> Z)
    (db : option (list string))
  : option (list (string * list Choice) * Z) :=
  selected_feeds ← load_selected_feeds db;
  let categorized :=
    foldl (fun categorized (entry : string * list string) =>
             let feeds_in_category :=
               (fun fid => mkChoice fid (get_source_display_name all_feeds names fid)
                                    (bool_decide (fid ∈ selected_feeds)))
                 <$> filter (fun fid => is_Some (all_feeds !! fid)) entry.2 in
             match feeds_in_category with
             | [] => categorized
             | _ => Py.dict_set entry.1 feeds_in_category categorized
             end)
          [] categories in
  let custom_feeds :=
    (fun fid => mkChoice fid (get_source_display_name all_feeds names fid) true)
      <$> filter (fun fid => Py.startswith "custom_" fid
                             && negb (Py.endswith "_name" fid)
                             && bool_decide (is_Some (all_feeds !! fid)) = true)
                 (Py.set_iter hash selected_feeds) in
  let categorized :=
    match custom_feeds with
    | [] => categorized
    | _ => Py.dict_set CUSTOM_CATEGORY custom_feeds categorized
    end in
  Some (categorized, Z.of_nat (size selected_feeds)).

(** [POST /update-sources]: the rows of [favorite_sources] afterwards. *)
Definition update_sources (source : list string) : gset string :=
  list_to_set source.

(** [POST /add-custom-feed]; [now] is [int(datetime.now().timestamp())].
    The result is [ALL_FEEDS] afterwards and the rows written to
    [favorite_sources] ([None]: sqlite raises and the table stays as it
    is; the two entries of [ALL_FEEDS] are made before). *)
Definition add_custom_feed (name url : string) (now : Z)
    (all_feeds : gmap string string) (db : option (list string))
  : gmap string string * option (gset string) :=
  let feed_id := "custom_" +:+ pretty now in
  let all_feeds := <[feed_id := url]> all_feeds in
  let all_feeds := <[feed_id +:+ "_name" := name]> all_feeds in
  (all_feeds,
   selected_feeds ← load_selected_feeds db;
   Some ({[feed_id]} ∪ selected_feeds)).

(** *** Statistics *)

(** What [format_time_ago] prints: "tol'ko chto", "<m> min nazad",
    "<h> ch nazad", "<d> dn nazad". *)
Inductive TimeAgo :=
| JustNow
| MinutesAgo (m : Z)
| HoursAgo (h : Z)
| DaysAgo (d : Z).

(** [format_time_ago]; [now] is the clock reading of the call.  The
    difference is a [timedelta]: [days] is its floor by a day and
    [seconds] the whole seconds of the rest. *)
Definition format_time_ago (now dt : Z) : TimeAgo :=
  let diff := now - dt in
  let days := diff / 86400000000 in
  let seconds := diff mod 86400000000 / 1000000 in
  if diff <? 60000000 then JustNow
  else if diff <? 3600000000 then MinutesAgo (diff / 60000000)
  else if days <? 1 then HoursAgo (seconds / 3600)
  else DaysAgo days.

(** The dictionary [news_by_source] of [stats]. *)
Definition count_by_source (items : list Item) : list (string * Z) :=
  foldl (fun d item => Py.bump (sourceName item) d) [] items.

(** The context of the statistics page. *)
Record Stats := mkStats {
  s_total_news : Z;
  s_total_sources : Z;
  s_selected_sources : Z;
  s_new_count : Z;
  s_last_fetch_time : option TimeAgo;
  s_news_by_source : list (string * Z);
  s_selected_with_counts : list (string * Z);
}.

(** [GET /stats]; [None] when [load_selected_feeds] raises.  [hash] fixes
    the order in which the loop over the selection visits it. *)
Definition stats (cat : Catalog) (hash : string -> Z) (db : option (list string))
    (now : Z) (st : AppState)
  : option Stats :=
  let news_by_source := count_by_source (news st) in
  let sorted_sources := Py.slice (Py.sorted Z.ltb snd true news_by_source) 0 20 in
  selected_feeds ← load_selected_feeds db;
  let selected_with_counts :=
    (fun feed_id =>
       (display_name cat feed_id,
        foldl Z.add 0
          ((fun _ => 1) <$> filter (fun n => sourceId n = feed_id) (news st))))
      <$> Py.set_iter hash selected_feeds in
  Some {| s_total_news := Z.of_nat (length (news st));
          s_total_sources := Z.of_nat (size (ALL_FEEDS cat));
          s_selected_sources := Z.of_nat (size selected_feeds);
          s_new_count := new_count st;
          s_last_fetch_time := format_time_ago now <$> last_fetch_time st;
          s_news_by_source := sorted_sources;
          s_selected_with_counts := selected_with_counts |}.

End App0.

(** ** The stand-alone aggregator, class [NewsFetcher] of [src/t1.py] *)

Module T1.

(** Transliterated, as in [App0]. *)
Definition UNTITLED : string := "Bez nazvaniya".
Definition NO_DESCRIPTION : string := "Net opisaniya".

(** The attributes of the object ([db_path] and [timeout] only travel to
    sqlite and to the HTTP client). *)
Record NewsFetcher := mkFetcher {
  max_items : Z;
  news : list Item;
  seen_guids : gset string;
  seen_links : gset string;
  saved_links : gset string;
  seen_news_ids : gset string;
  last_fetch_time : option Z;
  selected_feeds : gset string;
}.

(** *** Cleaning of markup *)

(** [re.sub(r'<[^>]+>', '', text)].  [tag] is [Some buf] while a ['<'] is
    open, [buf] being what followed it; the tag is dropped when ['>']
    comes and [buf] is not empty, and is kept otherwise. *)
Fixpoint strip_tags (tag : option string) (text : string) : string :=
  match text with
  | EmptyString =>
      match tag with
      | None => EmptyString
      | Some buf => String "<" buf
      end
  | String c text' =>
      match tag with
      | None =>
          if Ascii.eqb c "<" then strip_tags (Some EmptyString) text'
          else String c (strip_tags None text')
      | Some buf =>
          if Ascii.eqb c ">"
          then (if Py.truthy buf then strip_tags None text'
                else String "<" (String ">" (strip_tags None text')))
          else strip_tags (Some (buf +:+ String c EmptyString)) text'
      end
  end.

(** [re.sub(r'\s+', ' ', text)] *)
Fixpoint collapse_spaces (in_run : bool) (text : string) : string :=
  match text with
  | EmptyString => EmptyString
  | String c text' =>
      if Py.isspace c
      then (if in_run then collapse_spaces true text'
            else String " " (collapse_spaces true text'))
      else String c (collapse_spaces false text')
  end.

Definition _clean_html (text : string) : string :=
  Py.strip (collapse_spaces false (strip_tags None text)).

(** *** Construction *)

(** [load_selected_feeds_from_db]; [db] as in [App0.load_selected_feeds]. *)
Definition load_selected_feeds_from_db (db : option (list string)) (self : NewsFetcher)
  : NewsFetcher :=
  let selected : gset string :=
    match db with
    | Some rows =>
        if decide (rows = []) then {["habr"; "pytorch"; "ai_news"]} else list_to_set rows
    | None => selected_feeds self ∪ {["lenta"; "ria"; "bbc"]}
    end in
  mkFetcher (max_items self) (news self) (seen_guids self) (seen_links self)
            (saved_links self) (seen_news_ids self) (last_fetch_time self) selected.

(** [load_saved_links] *)
Definition load_saved_links (d : Disk) (self : NewsFetcher) : NewsFetcher :=
  match articles_file d with
  | Some articles =>
      mkFetcher (max_items self) (news self) (seen_guids self) (seen_links self)
                (list_to_set (filter (fun s => Py.truthy s = true)
                                     (sa_sourceUrl <$> articles)))
                (seen_news_ids self) (last_fetch_time self) (selected_feeds self)
  | None => self
  end.

(** [NewsFetcher(max_items=...)] *)
Definition init (max_items_ : Z) (db : option (list string)) (d : Disk) : NewsFetcher :=
  load_saved_links d
    (load_selected_feeds_from_db db (mkFetcher max_items_ [] ∅ ∅ ∅ ∅ None ∅)).

(** *** The merge pass *)

(** The variables of the loop of [fetch_news]: the list being built, the
    two sets of the object, the number of clock readings made and the
    feed addresses requested. *)
Record Pass := mkPass {
  all_items : list Item;
  pass_guids : gset string;
  pass_links : gset string;
  ticks : nat;
  requested : list string;
}.

Section Fetch.
Variable cat : Catalog.
Variable clock : nat -> Z.     (* the successive readings of the clock *)
Variable web : Web.

(** [_parse_entry]: the item, and the number of clock readings after it.
    The clock is read only when the entry carries no parsed date.  The
    result is [None] when the [except] branch is taken, which happens when
    [datetime] rejects the parsed date (the other statements of the [try]
    do not raise on entries whose attributes are strings); the clock is not
    read then. *)
Definition _parse_entry (tick : nat) (entry : Entry) (feed_id feed_url : string)
  : option Item * nat :=
  let title_ := default UNTITLED (e_title entry) in
  let link_ := default "#" (e_link entry) in
  let description := default (default NO_DESCRIPTION (e_description entry))
                             (e_summary entry) in
  let published := default "" (e_published entry) in
  let guid_ := default (default link_ (e_guid entry)) (e_id entry) in
  let item (t : Z) :=
    {| title := _clean_html title_;
       desc := _clean_html description;
       link := link_;
       date := published;
       published_parsed := Some t;
       sourceUrl := feed_url;
       sourceId := feed_id;
       sourceName := display_name cat feed_id;
       guid := guid_ |} in
  match e_published_parsed entry with
  | None => (Some (item (clock tick)), S tick)
  | Some t =>
      match Py.datetime t with
      | Some published_parsed_ => (Some (item published_parsed_), tick)
      | None => (None, tick)
      end
  end.

(** [_is_unique] *)
Definition _is_unique (guids links : gset string) (item : Item) : bool :=
  bool_decide (guid item ∉ guids) && bool_decide (link item ∉ links).

Definition visit_entry (feed_id url : string) (p : Pass) (entry : Entry) : Pass :=
  match _parse_entry (ticks p) entry feed_id url with
  | (Some item, tick') =>
      if _is_unique (pass_guids p) (pass_links p) item
      then mkPass (all_items p ++ [item]) ({[guid item]} ∪ pass_guids p)
                  ({[link item]} ∪ pass_links p) tick' (requested p)
      else mkPass (all_items p) (pass_guids p) (pass_links p) tick' (requested p)
  | (None, tick') =>
      mkPass (all_items p) (pass_guids p) (pass_links p) tick' (requested p)
  end.

Definition visit_feed (p : Pass) (feed_id : string) : Pass :=
  match ALL_FEEDS cat !! feed_id with
  | None => p
  | Some url =>
      let p := mkPass (all_items p) (pass_guids p) (pass_links p) (ticks p)
                      (requested p ++ [url]) in
      match feed_of web url with
      | None => p
      | Some entries => foldl (visit_entry feed_id url) p (take 20 entries)
      end
  end.

Definition merge_pass (feeds : list string) (tick : nat) : Pass :=
  foldl visit_feed (mkPass [] ∅ ∅ tick []) feeds.

(** The keys of [all_items.sort(key=lambda x: x.get("published_parsed",
    datetime.now(timezone.utc)), reverse=True)]: one clock reading per
    item, used when the key is missing from the item. *)
Definition sort_keys (tick : nat) (items : list Item) : list (Z * Item) :=
  imap (fun i x => (default (clock (tick + i)) (published_parsed x), x)) items.

Definition sort_by_date (tick : nat) (items : list Item) : list Item :=
  snd <$> Py.sorted Z.ltb fst true (sort_keys tick items).

(** [fetch_news]: the list returned, the object afterwards, and the feed
    addresses requested.  [hash] fixes the order of
    [list(self.selected_feeds)]. *)
Definition fetch_news (hash : string -> Z) (selected : option (list string))
    (tick : nat) (self : NewsFetcher) : list Item * NewsFetcher * list string :=
  let selected_feeds_ := default (Py.set_iter hash (selected_feeds self)) selected in
  match selected_feeds_ with
  | [] => ([], self, [])
  | _ =>
      let p := merge_pass selected_feeds_ tick in
      let sorted_items := sort_by_date (ticks p) (all_items p) in
      let news_ := Py.slice sorted_items 0 (max_items self) in
      let now := clock (ticks p + length (all_items p)) in
      (news_,
       mkFetcher (max_items self) news_ (pass_guids p) (pass_links p)
                 (saved_links self) (seen_news_ids self) (Some now)
                 (selected_feeds self),
       requested p)
  end.
End Fetch.

(** *** Viewed items *)

(** [get_new_news_count] *)
Definition get_new_news_count (self : NewsFetcher) : Z :=
  foldl (fun count item =>
           if bool_decide (news_id item ∉ seen_news_ids self) then count + 1 else count)
        0 (news self).

(** [clear_viewed_cache] *)
Definition clear_viewed_cache (self : NewsFetcher) : NewsFetcher :=
  mkFetcher (max_items self) (news self) (seen_guids self) (seen_links self)
            (saved_links self) ∅ (last_fetch_time self) (selected_feeds self).

(** [mark_as_viewed] *)
Definition mark_as_viewed (self : NewsFetcher) (news_item : Item) : NewsFetcher :=
  mkFetcher (max_items self) (news self) (seen_guids self) (seen_links self)
            (saved_links self) ({[news_id news_item]} ∪ seen_news_ids self)
            (last_fetch_time self) (selected_feeds self).

(** *** Saved articles *)

Inductive Message :=
| NotFound         (* "Статья не найдена" *)
| AlreadySaved     (* "Статья уже сохранена" *)
| NoText           (* "Не удалось получить текст статьи" *)
| Saved            (* "Статья успешно сохранена" *)
| SaveError.       (* "Ошибка при сохранении: ..." *)

Record SaveResult := mkResult {
  success : bool;
  message : Message;
  data : option SavedArticle;
}.

Definition failure (m : Message) : SaveResult := mkResult false m None.

(** [save_article]; [now] and [token] are the clock reading and the
    token of [uuid.uuid4] the call obtains. *)
Definition save_article (web : Web) (now : Z) (token : string) (link_ : string)
    (self : NewsFetcher) (d : Disk) : SaveResult * NewsFetcher * Disk :=
  match List.find (fun news_item => (link news_item =? link_)%string) (news self) with
  | None => (failure NotFound, self, d)
  | Some article =>
      if bool_decide (link_ ∈ saved_links self) then (failure AlreadySaved, self, d)
      else
        let full_text := page_text web link_ in
        if negb (Py.truthy full_text) then (failure NoText, self, d)
        else
          let title_ := title article in
          let source_name := sourceName article in
          let words := Py.split full_text in
          let preview_100 :=
            if (100 <? length words)%nat then Py.join " " (take 100 words)
            else full_text in
          let preview_with_title := title_ +:+ ". " +:+ preview_100 in
          let article_data :=
            {| sa_sourceUrl := link_;
               sa_sourceName := source_name;
               sa_title := title_;
               sa_preview100 := preview_with_title;
               sa_fullText := full_text;
               sa_savedAt := now;
               sa_id := Some token |} in
          let all_articles := default [] (articles_file d) in
          if existsb (fun a => (sa_sourceUrl a =? link_)%string) all_articles
          then (failure AlreadySaved, self, d)
          else
            let all_articles := all_articles ++ [article_data] in
            if writable d
            then (mkResult true Saved (Some article_data),
                  mkFetcher (max_items self) (news self) (seen_guids self)
                            (seen_links self) ({[link_]} ∪ saved_links self)
                            (seen_news_ids self) (last_fetch_time self)
                            (selected_feeds self),
                  {| articles_file := Some all_articles; writable := writable d |})
            else (failure SaveError, self, d)
  end.

Record SavedPage := mkSavedPage {
  articles : list SavedArticle;
  total : Z;
  page : Z;
  total_pages : Z;
  page_size : Z;
}.

(** [get_saved_articles] *)
Definition get_saved_articles (page_ page_size_ : Z) (d : Disk) : SavedPage :=
  match articles_file d with
  | None => mkSavedPage [] 0 page_ 0 page_size_
  | Some all_articles =>
      let total_ := Z.of_nat (length all_articles) in
      match Py.floordiv (total_ + page_size_ - 1) page_size_ with
      | None => mkSavedPage [] 0 page_ 0 page_size_
      | Some total_pages_ =>
          let page_ := Z.max 1 (Z.min page_ (if 0 <? total_pages_ then total_pages_ else 1)) in
          let start_idx := (page_ - 1) * page_size_ in
          let end_idx := start_idx + page_size_ in
          mkSavedPage (Py.slice all_articles start_idx end_idx)
                      total_ page_ total_pages_ page_size_
      end
  end.

(** *** Search *)

(** [search_news] *)
Definition search_news (query : string) (self : NewsFetcher) : list Item :=
  if negb (Py.truthy query) || negb (Py.truthy (Py.strip query)) then []
  else
    let query_lower := Py.lower query in
    filter (fun item =>
              Py.contains query_lower (Py.lower (title item))
              || Py.contains query_lower (Py.lower (desc item))
              || Py.contains query_lower (Py.lower (sourceName item)) = true)
           (news self).

(** *** Statistics *)

Record Stats := mkStats {
  total_news : Z;
  sources_count : Z;
  news_by_source : list (string * Z);
  selected_feeds_count : Z;
  last_fetch : option Z;
}.

(** [get_stats] *)
Definition get_stats (self : NewsFetcher) : Stats :=
  let sources_count_ :=
    foldl (fun d item => Py.bump (sourceName item) d) [] (news self) in
  {| total_news := Z.of_nat (length (news self));
     sources_count :=
       Z.of_nat (size (list_to_set (sourceId <$> news self) : gset string));
     news_by_source := sources_count_;
     selected_feeds_count := Z.of_nat (size (selected_feeds self));
     last_fetch := last_fetch_time self |}.

(** [get_unique_sources] *)
Definition get_unique_sources (self : NewsFetcher) : gset string :=
  list_to_set (filter (fun s => Py.truthy s = true) (sourceId <$> news self)).

End T1.

(** * Specification predicates *)

(** The order a descending sort establishes: no element has a key below the
    key of a later one. *)
Definition descending {A K} (lt : K -> K -> bool) (key : A -> K) (l : list A) : Prop :=
  StronglySorted (fun x y => lt (key x) (key y) = false) l.

(** The invariant of the cached list. *)
Definition cache_invariant (cap : Z) (items : list Item) : Prop :=
  NoDup (guid <$> items) /\ NoDup (link <$> items) /\ Z.of_nat (length items) <= cap.

(** The invariant of the loop: the list holds no guid and no link twice, and
    the two sets hold what the list holds. *)
Definition accepted_once (items : list Item) (guids links : gset string) : Prop :=
  NoDup (guid <$> items) /\ NoDup (link <$> items)
  /\ (forall n, n ∈ items -> guid n ∈ guids)
  /\ (forall n, n ∈ items -> link n ∈ links).

Definition app0_pass_ok (p : App0.Pass) : Prop :=
  accepted_once (App0.news_items p) (App0.seen_guids p) (App0.seen_links p).

Definition t1_pass_ok (p : T1.Pass) : Prop :=
  accepted_once (T1.all_items p) (T1.pass_guids p) (T1.pass_links p).


(** The refresh gate of the web service is open: no refresh was made yet, or
    the last one is at least [CACHE_DURATION_MINUTES] old. *)
Definition gate_open (now : Z) (st : App0.AppState) : Prop :=
  match App0.last_fetch_time st with
  | Some t => App0.CACHE_DURATION_MINUTES * 60000000 <= now - t
  | None => True
  end.

(** A refresh that is reported as failed and leaves the cached list and the
    time of the last refresh as they were. *)
Definition refresh_failed_keeping_cache (st : App0.AppState)
    (r : App0.Response * App0.AppState * list string) : Prop :=
  (exists n, r.1.1 = App0.RedirectNotify n)
  /\ App0.news r.1.2 = App0.news st
  /\ App0.last_fetch_time r.1.2 = App0.last_fetch_time st.

(** In [l], every item that satisfies [absent] stands after every item that
    does not. *)
Definition absent_last (absent : Item -> Prop) (l : list Item) : Prop :=
  forall i j a b,
    l !! i = Some a -> l !! j = Some b -> absent a -> ~ absent b -> (j < i)%nat.

(** [l] is ordered by the instants its items carry, latest first. *)
Definition newest_first (l : list Item) : Prop :=
  forall i j a b,
    (i < j)%nat -> l !! i = Some a -> l !! j = Some b ->
    exists ta tb, published_parsed a = Some ta /\ published_parsed b = Some tb /\ tb <= ta.

(** Every item of the pass carries an instant. *)
Definition t1_dated (p : T1.Pass) : Prop :=
  Forall (fun x => is_Some (published_parsed x)) (T1.all_items p).

(** [q] occurs in [s]. *)
Definition is_substring (q s : string) : Prop :=
  exists pre post, s = pre +:+ q +:+ post.

(** The query occurs, case-insensitively, in the title, the description or
    the display name of the source of the item. *)
Definition matches (query : string) (item : Item) : Prop :=
  is_substring (Py.lower query) (Py.lower (title item))
  \/ is_substring (Py.lower query) (Py.lower (desc item))
  \/ is_substring (Py.lower query) (Py.lower (sourceName item)).

(** A query without a visible character. *)
Definition blank (query : string) : Prop := Py.strip query = "".

(** The records of the saved-article file, and their links. *)
Definition stored (d : Disk) : list SavedArticle := default [] (articles_file d).
Definition stored_links (d : Disk) : list string := sa_sourceUrl <$> stored d.

(** The link belongs to an item of the cache. *)
Definition cached (link_ : string) (items : list Item) : Prop :=
  link_ ∈ link <$> items.

(** [d'] is [d] with one more record, for [link_] and with the full text
    [text], at the end. *)
Definition appended (d d' : Disk) (link_ text : string) : Prop :=
  exists a, sa_sourceUrl a = link_ /\ sa_fullText a = text
            /\ articles_file d' = Some (stored d ++ [a])
            /\ writable d' = writable d.

(** No record of the file has an empty full text. *)
Definition full_texts_nonempty (d : Disk) : Prop :=
  Forall (fun a => sa_fullText a <> "") (stored d).

(** The answer carries a reason. *)
Definition gives_reason (r : App0.Response) : Prop :=
  exists n, r = App0.RedirectNotify n.

(** The index of saved links holds the links of the records of the file. *)
Definition index_matches_store (saved : gset string) (d : Disk) : Prop :=
  saved = list_to_set (stored_links d).

(** The links of the records that are not empty: what the index is built
    from when the process starts. *)
Definition nonempty_links (d : Disk) : list string :=
  filter (fun l => l <> "") (stored_links d).

(** The index holds links of records only, and it holds every link of a
    record that is not empty. *)
Definition index_covers_store (saved : gset string) (d : Disk) : Prop :=
  (forall l, l ∈ saved -> l ∈ stored_links d)
  /\ (forall l, l ∈ stored_links d -> l <> "" -> l ∈ saved).

(** The feed yields no entry: it is not in the catalog, the request or the
    parse fails, or the parsed feed is empty (which is what the web service
    gets from a host it cannot reach, [feedparser.parse] catching the
    error). *)
Definition yields_nothing (cat : Catalog) (web : Web) (f : string) : Prop :=
  match ALL_FEEDS cat !! f with
  | Some url => feed_of web url = None \/ feed_of web url = Some []
  | None => True
  end.

(** *** Runs: the calls that change the state, in any order

    A request carries what the call reads from outside; [w] tells whether
    the file can be written when the call is made.  [Restart] is a new
    process (a new object) on the file as it stands. *)

Module Run0.
Inductive Request :=
| Fetch (cat : Catalog) (uuid4 : nat -> string) (web : Web) (hash : string -> Z)
        (db : option (list string)) (now : Z) (u : nat)
| Save (web : Web) (now : Z) (link_ : string) (w : bool)
| Clear
| Restart (cat : Catalog) (uuid4 : nat -> string) (web : Web) (hash : string -> Z)
          (rows : list string) (now : Z) (u : nat).

Definition step (s : App0.AppState * Disk) (req : Request) : App0.AppState * Disk :=
  match req with
  | Fetch cat uuid4 web hash db now u =>
      ((App0.fetch_news cat uuid4 web hash db now u s.1).1.2, s.2)
  | Save web now link_ w =>
      let r := App0.save_article_endpoint web now link_ s.1
                 (mkDisk (articles_file s.2) w) in
      (r.1.2, r.2)
  | Clear => ((App0.clear_cache s.1).2, s.2)
  | Restart cat uuid4 web hash rows now u =>
      (default s.1 (App0.startup_event cat uuid4 web hash (Some rows) s.2 now u
                                       App0.initial_state),
       s.2)
  end.

Definition run (s : App0.AppState * Disk) (reqs : list Request)
  : App0.AppState * Disk :=
  foldl step s reqs.
End Run0.

Module Run1.
Inductive Request :=
| Fetch (cat : Catalog) (clock : nat -> Z) (web : Web) (hash : string -> Z)
        (selected : option (list string)) (tick : nat)
| Save (web : Web) (now : Z) (token link_ : string) (w : bool)
| Mark (news_item : Item)
| Clear
| Restart (max_items_ : Z) (db : option (list string)).

Definition step (s : T1.NewsFetcher * Disk) (req : Request) : T1.NewsFetcher * Disk :=
  match req with
  | Fetch cat clock web hash selected tick =>
      ((T1.fetch_news cat clock web hash selected tick s.1).1.2, s.2)
  | Save web now token link_ w =>
      let r := T1.save_article web now token link_ s.1
                 (mkDisk (articles_file s.2) w) in
      (r.1.2, r.2)
  | Mark news_item => (T1.mark_as_viewed s.1 news_item, s.2)
  | Clear => (T1.clear_viewed_cache s.1, s.2)
  | Restart max_items_ db => (T1.init max_items_ db s.2, s.2)
  end.

Definition run (s : T1.NewsFetcher * Disk) (reqs : list Request)
  : T1.NewsFetcher * Disk :=
  foldl step s reqs.
End Run1.

(** The guid the web service computes for an entry it visits in the state
    [p] of the pass, and the guid [NewsFetcher] computes. *)
Definition app0_guid (uuid4 : nat -> string) (p : App0.Pass) (entry : Entry) : string :=
  match e_id entry, e_link entry with
  | Some id_, _ => id_
  | None, Some link_ => link_
  | None, None => uuid4 (App0.uuids p)
  end.

Definition t1_guid (entry : Entry) : string :=
  match e_id entry, e_guid entry, e_link entry with
  | Some id_, _, _ => id_
  | None, Some guid_, _ => guid_
  | None, None, Some link_ => link_
  | None, None, None => "#"
  end.

(** The entry has neither an id (nor a guid attribute) nor a link. *)
Definition anonymous (entry : Entry) : Prop :=
  e_id entry = None /\ e_guid entry = None /\ e_link entry = None.

(** *** Further predicates *)

(** The items of a list that come from the source [f]. *)
Definition from_source (f : string) (l : list Item) : list Item :=
  filter (fun n => sourceId n = f) l.

(** The feed is in the catalog and answers. *)
Definition answers (cat : Catalog) (web : Web) (f : string) : bool :=
  match ALL_FEEDS cat !! f with
  | Some url => match feed_of web url with Some _ => true | None => false end
  | None => false
  end.

(** What the items of a pass depend on: everything but the addresses
    requested. *)
Definition app0_items_state (p : App0.Pass)
  : list Item * gset string * gset string * nat :=
  (App0.news_items p, App0.seen_guids p, App0.seen_links p, App0.uuids p).

Definition t1_items_state (p : T1.Pass)
  : list Item * gset string * gset string * nat :=
  (T1.all_items p, T1.pass_guids p, T1.pass_links p, T1.ticks p).

(** The item names a selected feed of the catalog that answered, with the
    address and the display name the catalog gives. *)
Definition attributed (cat : Catalog) (web : Web) (feeds : list string) (n : Item)
  : Prop :=
  sourceId n ∈ feeds
  /\ ALL_FEEDS cat !! sourceId n = Some (sourceUrl n)
  /\ sourceName n = display_name cat (sourceId n)
  /\ is_Some (feed_of web (sourceUrl n)).

(** The order an ascending sort establishes: no element has a key above the
    key of a later one. *)
Definition ascending {A K} (lt : K -> K -> bool) (key : A -> K) (l : list A) : Prop :=
  StronglySorted (fun x y => lt (key y) (key x) = false) l.

(** The list the index cuts its page from: the items of the chosen source
    (all items when none is chosen), in the chosen order. *)
Definition index_key (sort : App0.SortKey) : Item -> string :=
  match sort with
  | App0.ByTitle => fun x => Py.lower (title x)
  | App0.BySource => fun x => Py.lower (sourceName x)
  | App0.ByDate => date
  end.

Definition index_reverse (sort : App0.SortKey) : bool :=
  match sort with
  | App0.ByDate => true
  | _ => false
  end.

Definition index_source (source : option string) (st : App0.AppState) : list Item :=
  match source with
  | Some s => if Py.truthy s then from_source s (App0.news st) else App0.news st
  | None => App0.news st
  end.

Definition index_listing (sort : App0.SortKey) (source : option string)
    (st : App0.AppState) : list Item :=
  Py.sorted String.ltb (index_key sort) (index_reverse sort) (index_source source st).

(** The text holds a tag: a ['<'], then one character or more none of
    which is ['>'], then ['>']. *)
Definition has_tag (s : string) : Prop :=
  exists pre buf post,
    buf <> "" /\ ~ is_substring ">" buf
    /\ s = pre +:+ "<" +:+ buf +:+ ">" +:+ post.

(** Every whitespace character of the text is a blank strictly inside it,
    and no two of them are neighbours. *)
Definition tidy (s : string) : Prop :=
  (forall pre c post, s = pre +:+ String c post -> Py.isspace c = true ->
     c = " "%char /\ pre <> "" /\ post <> "")
  /\ (forall pre c d post, s = pre +:+ String c (String d post) ->
        Py.isspace c = false \/ Py.isspace d = false).

Definition clean_text (s : string) : Prop := tidy s /\ ~ has_tag s.

(** The same, by recursion on the text. *)
Definition starts_visible (s : string) : Prop :=
  match s with
  | EmptyString => True
  | String d _ => Py.isspace d = false
  end.

Fixpoint spaced_weak (s : string) : Prop :=
  match s with
  | EmptyString => True
  | String c s' =>
      (Py.isspace c = true -> c = " "%char /\ starts_visible s') /\ spaced_weak s'
  end.

Fixpoint spaced (s : string) : Prop :=
  match s with
  | EmptyString => True
  | String c s' =>
      (Py.isspace c = true -> c = " "%char /\ s' <> "" /\ starts_visible s')
      /\ spaced s'
  end.

Fixpoint tagless (s : string) : Prop :=
  match s with
  | EmptyString => True
  | String c s' =>
      (c = "<"%char -> String.prefix ">" s' = true \/ Py.contains ">" s' = false)
      /\ tagless s'
  end.

(** A text without whitespace, and a word: such a text that is not empty. *)
Fixpoint visible (s : string) : Prop :=
  match s with
  | EmptyString => True
  | String c s' => Py.isspace c = false /\ visible s'
  end.

Definition word (s : string) : Prop := s <> "" /\ visible s.

(** The preview of the record is its title, a full stop and a blank, and
    then a text [p] whose words are the first hundred words of the full
    text; [p] is the full text itself when that has no more words. *)
Definition previewed (a : SavedArticle) : Prop :=
  exists p,
    sa_preview100 a = sa_title a +:+ ". " +:+ p
    /\ Py.split p = take 100 (Py.split (sa_fullText a))
    /\ ((length (Py.split (sa_fullText a)) <= 100)%nat -> p = sa_fullText a).

(** The number of items that carry the given source name. *)
Definition items_named (name : string) (items : list Item) : Z :=
  Z.of_nat (length (filter (fun n => sourceName n = name) items)).

(** A text of decimal digits and minus signs, as [str] prints an [int]. *)
Definition numeral_char (c : ascii) : bool :=
  Ascii.eqb c "-" || ((48 <=? N_of_ascii c) && (N_of_ascii c <=? 57))%N.

Fixpoint numeral (s : string) : Prop :=
  match s with
  | EmptyString => True
  | String c s' => numeral_char c = true /\ numeral s'
  end.

Fixpoint last_char (s : string) : option ascii :=
  match s with
  | EmptyString => None
  | String c EmptyString => Some c
  | String _ s' => last_char s'
  end.

(** The id and the name key of the custom feed registered at second [now]. *)
Definition custom_id (now : Z) : string := "custom_" +:+ pretty now.
Definition custom_name_key (now : Z) : string := custom_id now +:+ "_name".

(** The feed id has a check box on the selection page. *)
Definition offered (fid : string) (categorized : list (string * list App0.Choice))
  : Prop :=
  exists category choices,
    (category, choices) ∈ categorized /\ fid ∈ App0.c_id <$> choices.

(** A check box as the selection page builds it: for a feed of the catalog,
    ticked exactly when the feed is selected, labelled with its display
    name, and taken from a category or from the selection. *)
Definition well_formed_choice (all_feeds names : gmap string string)
    (categories : list (string * list string)) (selected : gset string)
    (c : App0.Choice) : Prop :=
  is_Some (all_feeds !! App0.c_id c)
  /\ (App0.c_checked c = true <-> App0.c_id c ∈ selected)
  /\ App0.c_name c = App0.get_source_display_name all_feeds names (App0.c_id c)
  /\ ((exists category ids, (category, ids) ∈ categories /\ App0.c_id c ∈ ids)
      \/ App0.c_id c ∈ selected).

(** * Sample inputs *)

Module Sample.

Definition cat : Catalog :=
  mkCatalog {[ "a" := "http://a"; "b" := "http://b" ]} (fun source_id => source_id).

(** The [n]-th token: [n] times the letter u. *)
Fixpoint uuid4 (n : nat) : string :=
  match n with
  | O => ""
  | S n' => String "u" (uuid4 n')
  end.

(** The clock starts on 2024-01-03 at 16:40 and advances by a microsecond
    at each reading. *)
Definition clock (n : nat) : Z := 1704300000000000 + Z.of_nat n.

(** The sets of the samples are visited in the order of the first
    characters of their elements. *)
Definition hash (s : string) : Z :=
  match s with
  | EmptyString => 0
  | String c _ => Z.of_N (N_of_ascii c)
  end.

(** An entry with nothing but (possibly) an id, a link, a title and dates. *)
Definition entry (id_ link_ title_ published : option string)
    (parsed : option Py.struct_time) : Entry :=
  mkEntry id_ None link_ title_ None None published parsed.

Definition dated : Entry :=
  entry (Some "g1") (Some "l1") (Some "First") (Some "Wed, 03 Jan 2024")
        (Some (Py.mkTime 2024 1 3 0 0 0)).
(** An entry whose parsed date has the year 0. *)
Definition misdated : Entry :=
  entry (Some "g0") (Some "l0") (Some "Zeroth") (Some "Sat, 01 Jan 0000")
        (Some (Py.mkTime 0 1 1 0 0 0)).
Definition undated : Entry :=
  entry None (Some "l2") (Some "Second") None None.
Definition bare : Entry := entry None None None None None.

(** Feed [a] answers, feed [b] does not; the pages [l...] have a text. *)
Definition web : Web :=
  mkWeb (fun url => if (url =? "http://a")%string
                    then Some [undated; dated; bare; bare] else None)
        (fun url => if String.prefix "l" url then "full text of the page" else "").

(** No feed answers. *)
Definition offline : Web := mkWeb (fun _ => None) (fun _ => "").

Definition item (link_ title_ desc_ source_name : string) : Item :=
  mkItem title_ desc_ link_ "" None "http://a" "a" source_name link_.

Definition disk : Disk := mkDisk None true.

Definition fetcher : T1.NewsFetcher := T1.init 500 None disk.

End Sample.

Module Sample2.
(** The state of the web service after a first refresh at time 0. *)
Definition refreshed : App0.AppState :=
  (App0.fetch_news Sample.cat Sample.uuid4 Sample.web Sample.hash (Some ["a"; "b"]) 0 0
                   App0.initial_state).1.2.

(** A cache of one item that was never refreshed through the gate. *)
Definition one_item : App0.AppState :=
  App0.mkState [Sample.item "l0" "Old" "old news" "A"] ∅ ∅ None.

Definition fetcher_one_item : T1.NewsFetcher :=
  T1.mkFetcher 500 [Sample.item "l0" "Old" "old news" "A"] ∅ ∅ ∅ ∅ None {["a"; "b"]}.
End Sample2.

Module Sample3.
(** The item with link ["l1"] is archived twice through [POST /save]. *)
Definition first_save : App0.Response * App0.AppState * Disk :=
  App0.save_article_endpoint Sample.web 5 "l1" Sample2.refreshed Sample.disk.
Definition second_save : App0.Response * App0.AppState * Disk :=
  App0.save_article_endpoint Sample.web 6 "l1" first_save.1.2 first_save.2.
End Sample3.

Module Sample4.
(** A file with one record, and the service started on it. *)
Definition disk : Disk := Sample3.first_save.2.
Definition started : option App0.AppState :=
  App0.startup_event Sample.cat Sample.uuid4 Sample.web Sample.hash (Some ["a"]) disk
                     0 0 App0.initial_state.
Definition requests : list Run0.Request :=
  [Run0.Save Sample.web 7 "l2" true; Run0.Save Sample.web 8 "l1" true; Run0.Clear;
   Run0.Restart Sample.cat Sample.uuid4 Sample.web Sample.hash ["a"] 9 3].
End Sample4.

Module Sample5.
(** A feed of two entries that have neither an id nor a link. *)
Definition web : Web :=
  mkWeb (fun url => if (url =? "http://a")%string
                    then Some [Sample.bare; Sample.bare] else None)
        (fun _ => "").
End Sample5.

Module Sample6.
(** A feed whose first entry carries a date that [datetime] rejects. *)
Definition web : Web :=
  mkWeb (fun url => if (url =? "http://a")%string
                    then Some [Sample.misdated; Sample.dated] else None)
        (fun _ => "").

(** A file with a record whose link is blank, before the record of the
    page ["l1"]. *)
Definition disk : Disk :=
  mkDisk (Some [mkSaved "" "A" "No link" "No link. text" "text" 1 None;
                mkSaved "l1" "A" "First" "First. text" "text" 2 None]) true.

(** No host can be reached: the web service gets empty feeds, the fetcher
    gets errors. *)
Definition unreachable : Web := mkWeb (fun _ => Some []) (fun _ => "").
End Sample6.

Module SampleX.
(** The statistics page after the first refresh, five minutes later. *)
Definition stats_page : option App0.Stats :=
  App0.stats Sample.cat Sample.hash (Some ["a"]) 300000000 Sample2.refreshed.

Definition no_stats : App0.Stats := App0.mkStats 0 0 0 0 None [] [].

(** The catalog after a custom feed was added at second 5, and the
    selection page while that feed is selected. *)
Definition feeds_with_custom : gmap string string :=
  (App0.add_custom_feed "My feed" "http://c" 5 (ALL_FEEDS Sample.cat) (Some ["a"])).1.

Definition select_page : option (list (string * list App0.Choice) * Z) :=
  App0.select_sources feeds_with_custom ∅ [("news", ["a"; "b"; "x"])] Sample.hash
                      (Some ["a"; "custom_5"]).
End SampleX.
(** * Properties *)

(** ** Loops, sorting and slices *)

Lemma foldl_preserves {A B} (P : A -> Prop) (f : A -> B -> A) (l : list B) (a : A) :
  (forall a x, P a -> P (f a x)) -> P a -> P (foldl f a l).
Proof.
  intros Hstep. revert a.
  induction l as [|x l IH]; intros a Ha; simpl; [exact Ha|].
  apply IH, Hstep, Ha.
Qed.

Section SortFacts.
Context {A K : Type} (lt : K -> K -> bool) (key : A -> K).

Lemma insert_sorted_perm r x l : Py.insert_sorted lt key r x l ≡ₚ x :: l.
Proof.
  induction l as [|y l IH]; simpl; [reflexivity|].
  destruct (if r then lt (key x) (key y) else lt (key y) (key x)); [|reflexivity].
  rewrite IH. apply Permutation_swap.
Qed.

Lemma sorted_perm r l : Py.sorted lt key r l ≡ₚ l.
Proof.
  induction l as [|x l IH]; simpl; [reflexivity|].
  rewrite insert_sorted_perm. by rewrite IH.
Qed.

Lemma length_sorted r l : length (Py.sorted lt key r l) = length l.
Proof. apply Permutation_length, sorted_perm. Qed.

Hypothesis lt_asym : forall a b, lt a b = true -> lt b a = false.
Hypothesis lt_neg_trans : forall a b c, lt a b = false -> lt b c = false -> lt a c = false.

Lemma insert_sorted_descending x l :
  descending lt key l -> descending lt key (Py.insert_sorted lt key true x l).
Proof.
  unfold descending. induction 1 as [|y l Hl IH Hy]; simpl.
  - repeat constructor.
  - destruct (lt (key x) (key y)) eqn:Hxy.
    + constructor; [exact IH|].
      apply Forall_forall. intros z Hz.
      apply (elem_of_Permutation_proper _ _ _ (insert_sorted_perm true x l)) in Hz.
      apply elem_of_cons in Hz as [->|Hz]; [by apply lt_asym|].
      by eapply Forall_forall in Hy.
    + constructor; [by constructor|].
      constructor; [exact Hxy|].
      eapply Forall_impl; [exact Hy|]. simpl. intros z Hz.
      by eapply lt_neg_trans.
Qed.

Lemma sorted_descending l : descending lt key (Py.sorted lt key true l).
Proof.
  induction l as [|x l IH]; simpl; [constructor|].
  by apply insert_sorted_descending.
Qed.

Lemma descending_take n l : descending lt key l -> descending lt key (take n l).
Proof.
  unfold descending. intros H. revert n.
  induction H as [|x l Hl IH Hx]; intros [|n]; simpl; try constructor.
  - apply IH.
  - apply Forall_forall. intros y Hy.
    eapply Forall_forall in Hx; [exact Hx|].
    eapply elem_of_sublist; [exact Hy|]. apply sublist_take.
Qed.

Lemma descending_lookup l i j x y :
  descending lt key l -> (i < j)%nat -> l !! i = Some x -> l !! j = Some y ->
  lt (key x) (key y) = false.
Proof.
  unfold descending. intros H. revert i j.
  induction H as [|z l Hl IH Hz]; intros i j Hij Hi Hj; [done|].
  destruct j as [|j]; [lia|]. simpl in Hj.
  destruct i as [|i]; simpl in Hi.
  - injection Hi as ->. eapply Forall_forall in Hz; [exact Hz|].
    by eapply list_elem_of_lookup_2.
  - eapply (IH i j); [lia|done|done].
Qed.
End SortFacts.

Lemma slice_from_0 {A} (l : list A) (n : Z) :
  0 <= n -> Py.slice l 0 n = take (Z.to_nat n) l.
Proof.
  intros Hn. unfold Py.slice, Py.slice_index.
  change (0 <? 0) with false. cbv iota.
  destruct (Z.ltb_spec n 0); [lia|].
  rewrite (Z.min_l 0) by lia. rewrite Z.sub_0_r. simpl. rewrite drop_0.
  destruct (Z.le_ge_cases n (Z.of_nat (length l))).
  - by rewrite Z.min_l by lia.
  - rewrite Z.min_r by lia. rewrite Nat2Z.id.
    rewrite !take_ge; [done|lia|lia].
Qed.

Lemma slice_nil {A} (a b : Z) : Py.slice (@nil A) a b = [].
Proof. unfold Py.slice. by rewrite drop_nil, take_nil. Qed.

Lemma snd_imap_pair {A B} (f : nat -> A -> B) (l : list A) :
  snd <$> imap (fun i x => (f i x, x)) l = l.
Proof.
  revert f. induction l as [|x l IH]; intros f; [done|].
  rewrite imap_cons. simpl. f_equal. apply (IH (f ∘ S)).
Qed.

Lemma snd_sort_keys clock tick (items : list Item) :
  snd <$> T1.sort_keys clock tick items = items.
Proof. apply snd_imap_pair. Qed.

Lemma sort_by_date_perm clock tick items :
  T1.sort_by_date clock tick items ≡ₚ items.
Proof.
  unfold T1.sort_by_date. rewrite sorted_perm. by rewrite snd_sort_keys.
Qed.

(** ** The merge pass: unique guids and links, bounded length *)

Lemma accepted_once_empty : accepted_once [] ∅ ∅.
Proof. repeat split; try constructor; intros n Hn; by apply elem_of_nil in Hn. Qed.

Lemma accepted_once_snoc items guids links x :
  accepted_once items guids links ->
  guid x ∉ guids -> link x ∉ links ->
  accepted_once (items ++ [x]) ({[guid x]} ∪ guids) ({[link x]} ∪ links).
Proof.
  intros (Hg & Hl & Hsg & Hsl) Hxg Hxl. repeat split.
  - rewrite fmap_app. apply NoDup_app. split; [done|]. split.
    + intros g Hin ->%list_elem_of_singleton.
      apply list_elem_of_fmap in Hin as (n & Hgn & Hn). apply Hxg.
      rewrite Hgn. by apply Hsg.
    + apply NoDup_singleton.
  - rewrite fmap_app. apply NoDup_app. split; [done|]. split.
    + intros g Hin ->%list_elem_of_singleton.
      apply list_elem_of_fmap in Hin as (n & Hgn & Hn). apply Hxl.
      rewrite Hgn. by apply Hsl.
    + apply NoDup_singleton.
  - intros n [Hn| ->%list_elem_of_singleton]%elem_of_app; [|set_solver].
    apply elem_of_union_r. by apply Hsg.
  - intros n [Hn| ->%list_elem_of_singleton]%elem_of_app; [|set_solver].
    apply elem_of_union_r. by apply Hsl.
Qed.

Lemma unique_after_sort_take {B} (f : Item -> B) (l l' : list Item) (n : nat) :
  NoDup (f <$> l) -> l' ≡ₚ l -> NoDup (f <$> take n l').
Proof.
  intros Hl Hperm. rewrite fmap_take.
  eapply sublist_NoDup; [|apply sublist_take]. by rewrite Hperm.
Qed.

Lemma app0_visit_entry_ok cat uuid4 feed_id url p entry :
  app0_pass_ok p -> app0_pass_ok (App0.visit_entry cat uuid4 feed_id url p entry).
Proof.
  unfold app0_pass_ok, App0.visit_entry. intros Hp.
  destruct (bool_decide (_ ∈ App0.seen_guids p)) eqn:Hg; simpl; [exact Hp|].
  destruct (bool_decide (_ ∈ App0.seen_links p)) eqn:Hl; simpl; [exact Hp|].
  apply bool_decide_eq_false in Hg, Hl.
  by apply (accepted_once_snoc _ _ _ (mkItem _ _ _ _ _ _ _ _ _)).
Qed.

Lemma app0_merge_pass_ok cat uuid4 web feeds u :
  app0_pass_ok (App0.merge_pass cat uuid4 web feeds u).
Proof.
  unfold App0.merge_pass. apply foldl_preserves; [|apply accepted_once_empty].
  intros p feed_id Hp. unfold App0.visit_feed.
  destruct (ALL_FEEDS cat !! feed_id) as [url|]; [|exact Hp].
  destruct (feed_of web url) as [entries|]; [|exact Hp].
  apply foldl_preserves; [|exact Hp].
  intros. by apply app0_visit_entry_ok.
Qed.

Lemma app0_fetch_rss_feeds_invariant cat uuid4 web feeds u :
  cache_invariant 500 (App0.fetch_rss_feeds cat uuid4 web feeds u).
Proof.
  destruct (app0_merge_pass_ok cat uuid4 web feeds u) as (Hg & Hl & _).
  unfold App0.fetch_rss_feeds. repeat split.
  - eapply unique_after_sort_take; [exact Hg|apply sorted_perm].
  - eapply unique_after_sort_take; [exact Hl|apply sorted_perm].
  - rewrite length_take. unfold App0.MAX_NEWS_ITEMS. lia.
Qed.

Lemma t1_guid_default (entry : Entry) :
  default (default (default "#" (e_link entry)) (e_guid entry)) (e_id entry)
  = t1_guid entry.
Proof. unfold t1_guid. by destruct (e_id entry), (e_guid entry), (e_link entry). Qed.

(** What one turn of the loop of [NewsFetcher.fetch_news] does: the entry is
    left out (its date is rejected, or its guid or its link was seen), or
    its item is appended and its guid and link are recorded. *)
Lemma t1_visit_entry_cases cat clock feed_id url p entry :
  let p' := T1.visit_entry cat clock feed_id url p entry in
  T1.requested p' = T1.requested p
  /\ ((T1.all_items p' = T1.all_items p
       /\ T1.pass_guids p' = T1.pass_guids p
       /\ T1.pass_links p' = T1.pass_links p)
      \/ exists item,
           (T1._parse_entry cat clock (T1.ticks p) entry feed_id url).1 = Some item
           /\ T1.all_items p' = T1.all_items p ++ [item]
           /\ T1.pass_guids p' = {[guid item]} ∪ T1.pass_guids p
           /\ T1.pass_links p' = {[link item]} ∪ T1.pass_links p
           /\ (guid item ∉ T1.pass_guids p) /\ (link item ∉ T1.pass_links p)
           /\ guid item = t1_guid entry
           /\ link item = default "#" (e_link entry)
           /\ title item = T1._clean_html (default T1.UNTITLED (e_title entry))
           /\ desc item
              = T1._clean_html (default (default T1.NO_DESCRIPTION (e_description entry))
                                        (e_summary entry))
           /\ sourceId item = feed_id /\ sourceUrl item = url
           /\ sourceName item = display_name cat feed_id
           /\ is_Some (published_parsed item)).
Proof.
  unfold T1.visit_entry, T1._parse_entry, T1._is_unique.
  destruct (e_published_parsed entry) as [t|]; [destruct (Py.datetime t) as [tt|]|];
    cbn beta iota zeta; cbn [guid link fst];
    try (split; [done|left; done]).
  all: destruct (bool_decide (_ ∉ T1.pass_guids p)) eqn:Hg;
    [|split; [done|left; done]].
  all: destruct (bool_decide (_ ∉ T1.pass_links p)) eqn:Hl;
    [|split; [done|left; done]].
  all: apply bool_decide_eq_true in Hg, Hl.
  all: split; [done|right]; eexists; split; [reflexivity|]; cbn;
    rewrite ?t1_guid_default in *; repeat split; eauto.
Qed.

Lemma t1_visit_entry_ok cat clock feed_id url p entry :
  t1_pass_ok p -> t1_pass_ok (T1.visit_entry cat clock feed_id url p entry).
Proof.
  unfold t1_pass_ok. intros Hp.
  destruct (t1_visit_entry_cases cat clock feed_id url p entry)
    as [_ [(-> & -> & ->)|(item & _ & -> & -> & -> & Hg & Hl & _)]]; [exact Hp|].
  by apply accepted_once_snoc.
Qed.

Lemma t1_merge_pass_ok cat clock web feeds tick :
  t1_pass_ok (T1.merge_pass cat clock web feeds tick).
Proof.
  unfold T1.merge_pass. apply foldl_preserves; [|apply accepted_once_empty].
  intros p feed_id Hp. unfold T1.visit_feed.
  destruct (ALL_FEEDS cat !! feed_id) as [url|]; [|exact Hp].
  destruct (feed_of web url) as [entries|]; [|exact Hp].
  apply foldl_preserves; [|exact Hp].
  intros. by apply t1_visit_entry_ok.
Qed.

Lemma t1_fetch_news_invariant cat clock web hash selected tick self :
  0 <= T1.max_items self ->
  cache_invariant (T1.max_items self) (T1.news self) ->
  cache_invariant (T1.max_items self)
                  (T1.news (T1.fetch_news cat clock web hash selected tick self).1.2).
Proof.
  intros Hmax Hinv. unfold T1.fetch_news.
  destruct (default (Py.set_iter hash (T1.selected_feeds self)) selected)
    as [|f feeds]; [exact Hinv|].
  simpl. generalize (f :: feeds). intros fs.
  destruct (t1_merge_pass_ok cat clock web fs tick) as (Hg & Hl & _).
  rewrite slice_from_0 by done. repeat split.
  - eapply unique_after_sort_take; [exact Hg|apply sort_by_date_perm].
  - eapply unique_after_sort_take; [exact Hl|apply sort_by_date_perm].
  - rewrite length_take. lia.
Qed.

Lemma app0_accept_rule cat uuid4 feed_id url p entry :
  App0.news_items (App0.visit_entry cat uuid4 feed_id url p entry) <> App0.news_items p ->
  (app0_guid uuid4 p entry ∉ App0.seen_guids p)
  /\ (default "#" (e_link entry) ∉ App0.seen_links p).
Proof.
  unfold App0.visit_entry, app0_guid.
  replace (default (default (uuid4 (App0.uuids p)) (e_link entry)) (e_id entry))
    with (match e_id entry, e_link entry with
          | Some id_, _ => id_
          | None, Some link_ => link_
          | None, None => uuid4 (App0.uuids p)
          end) by (by destruct (e_id entry), (e_link entry)).
  destruct (bool_decide (_ ∈ App0.seen_guids p)) eqn:Hg; simpl; [done|].
  destruct (bool_decide (_ ∈ App0.seen_links p)) eqn:Hl; simpl; [done|].
  apply bool_decide_eq_false in Hg, Hl. done.
Qed.

Lemma t1_accept_rule cat clock feed_id url q entry :
  T1.all_items (T1.visit_entry cat clock feed_id url q entry) <> T1.all_items q ->
  (t1_guid entry ∉ T1.pass_guids q)
  /\ (default "#" (e_link entry) ∉ T1.pass_links q).
Proof.
  destruct (t1_visit_entry_cases cat clock feed_id url q entry)
    as [_ [(-> & _)|(item & _ & _ & _ & _ & Hg & Hl & <- & <- & _)]]; done.
Qed.

(** C1.  Every merge pass leaves a list in which no two items have the same
    guid and no two items have the same link, and which holds at most
    [MAX_NEWS_ITEMS] = 500 items in the web service and at most [max_items]
    items in [NewsFetcher] (whose pass returns early, keeping the list it
    had, when no feed is selected).  The two sets of the pass start empty,
    and an entry is added to the list only when its guid is not in the set of
    guids and its link is not in the set of links. *)
Theorem merge_pass_unique_and_capped
    (cat : Catalog) (uuid4 : nat -> string) (clock : nat -> Z) (web : Web)
    (feeds : list string) (u : nat)
    (hash : string -> Z)
    (selected : option (list string)) (tick : nat) (self : T1.NewsFetcher) :
  0 <= T1.max_items self ->
  cache_invariant (T1.max_items self) (T1.news self) ->
  cache_invariant 500 (App0.fetch_rss_feeds cat uuid4 web feeds u)
  /\ cache_invariant (T1.max_items self)
       (T1.news (T1.fetch_news cat clock web hash selected tick self).1.2)
  /\ App0.merge_pass cat uuid4 web [] u = App0.mkPass [] ∅ ∅ u []
  /\ T1.merge_pass cat clock web [] tick = T1.mkPass [] ∅ ∅ tick []
  /\ (forall feed_id url p entry,
        App0.news_items (App0.visit_entry cat uuid4 feed_id url p entry)
        <> App0.news_items p ->
        (app0_guid uuid4 p entry ∉ App0.seen_guids p)
        /\ (default "#" (e_link entry) ∉ App0.seen_links p))
  /\ (forall feed_id url q entry,
        T1.all_items (T1.visit_entry cat clock feed_id url q entry) <> T1.all_items q ->
        (t1_guid entry ∉ T1.pass_guids q)
        /\ (default "#" (e_link entry) ∉ T1.pass_links q)).
Proof.
  intros Hmax Hinv.
  split; [apply app0_fetch_rss_feeds_invariant|].
  split; [by apply t1_fetch_news_invariant|].
  split; [done|]. split; [done|].
  split; intros; [by eapply app0_accept_rule|by eapply t1_accept_rule].
Qed.

(** ** Iteration over a set *)

Lemma set_iter_perm (hash : string -> Z) (s : gset string) :
  Py.set_iter hash s ≡ₚ elements s.
Proof. apply sorted_perm. Qed.

Lemma set_iter_elem (hash : string -> Z) (s : gset string) (x : string) :
  x ∈ Py.set_iter hash s <-> x ∈ s.
Proof. by rewrite set_iter_perm, elem_of_elements. Qed.

Lemma set_iter_NoDup (hash : string -> Z) (s : gset string) : NoDup (Py.set_iter hash s).
Proof. rewrite set_iter_perm. apply NoDup_elements. Qed.

Lemma set_iter_length (hash : string -> Z) (s : gset string) :
  length (Py.set_iter hash s) = size s.
Proof. by rewrite set_iter_perm. Qed.

Lemma set_iter_nil (hash : string -> Z) (s : gset string) :
  Py.set_iter hash s = [] <-> s = ∅.
Proof.
  split.
  - intros H. apply leibniz_equiv, elem_of_equiv_empty. intros x Hx.
    apply (set_iter_elem hash) in Hx. rewrite H in Hx. by apply elem_of_nil in Hx.
  - intros ->. apply Permutation_nil_r. rewrite set_iter_perm.
    by rewrite elements_empty.
Qed.

(** ** The state of a pass and the addresses requested *)

(** The parts of the state of a pass that the items depend on. *)
Lemma app0_visit_entry_requested cat uuid4 feed_id url p entry :
  App0.requested (App0.visit_entry cat uuid4 feed_id url p entry) = App0.requested p.
Proof. unfold App0.visit_entry. by destruct (_ || _). Qed.

Lemma app0_visit_entries_requested cat uuid4 feed_id url p entries :
  App0.requested (foldl (App0.visit_entry cat uuid4 feed_id url) p entries)
  = App0.requested p.
Proof.
  revert p. induction entries as [|e es IH]; intros p; simpl; [done|].
  by rewrite IH, app0_visit_entry_requested.
Qed.

Lemma app0_visit_entry_with_requested cat uuid4 feed_id url p entry r :
  App0.visit_entry cat uuid4 feed_id url
    (App0.mkPass (App0.news_items p) (App0.seen_guids p) (App0.seen_links p)
                 (App0.uuids p) r) entry
  = let p' := App0.visit_entry cat uuid4 feed_id url p entry in
    App0.mkPass (App0.news_items p') (App0.seen_guids p') (App0.seen_links p')
                (App0.uuids p') r.
Proof. unfold App0.visit_entry. simpl. by destruct (_ || _). Qed.

Lemma app0_visit_entries_with_requested cat uuid4 feed_id url p entries r :
  foldl (App0.visit_entry cat uuid4 feed_id url)
    (App0.mkPass (App0.news_items p) (App0.seen_guids p) (App0.seen_links p)
                 (App0.uuids p) r) entries
  = let p' := foldl (App0.visit_entry cat uuid4 feed_id url) p entries in
    App0.mkPass (App0.news_items p') (App0.seen_guids p') (App0.seen_links p')
                (App0.uuids p') r.
Proof.
  revert p. induction entries as [|e es IH]; intros p; simpl; [done|].
  rewrite app0_visit_entry_with_requested. simpl. by rewrite IH.
Qed.

Lemma app0_visit_feed_state cat uuid4 web p p' f :
  app0_items_state p = app0_items_state p' ->
  app0_items_state (App0.visit_feed cat uuid4 web p f)
  = app0_items_state (App0.visit_feed cat uuid4 web p' f).
Proof.
  destruct p as [a b c d r], p' as [a' b' c' d' r']. unfold app0_items_state. simpl.
  intros [= <- <- <- <-]. unfold App0.visit_feed. simpl.
  destruct (ALL_FEEDS cat !! f) as [url|]; [|done].
  destruct (feed_of web url) as [entries|]; [|done].
  pose proof (app0_visit_entries_with_requested cat uuid4 f url
                (App0.mkPass a b c d r) (take 20 entries) (r ++ [url])) as H1.
  pose proof (app0_visit_entries_with_requested cat uuid4 f url
                (App0.mkPass a b c d r) (take 20 entries) (r' ++ [url])) as H2.
  cbn [App0.news_items App0.seen_guids App0.seen_links App0.uuids] in H1, H2.
  by rewrite H1, H2.
Qed.

Lemma app0_visit_feed_silent cat uuid4 web p f :
  answers cat web f = false ->
  app0_items_state (App0.visit_feed cat uuid4 web p f) = app0_items_state p.
Proof.
  unfold answers, App0.visit_feed.
  destruct (ALL_FEEDS cat !! f) as [url|]; [|done].
  by destruct (feed_of web url).
Qed.

Lemma app0_merge_answering cat uuid4 web feeds p p' :
  app0_items_state p = app0_items_state p' ->
  app0_items_state (foldl (App0.visit_feed cat uuid4 web) p feeds)
  = app0_items_state (foldl (App0.visit_feed cat uuid4 web) p'
                            (filter (fun f => answers cat web f = true) feeds)).
Proof.
  revert p p'. induction feeds as [|f fs IH]; intros p p' Hp; simpl; [done|].
  rewrite filter_cons. destruct (answers cat web f) eqn:Hf.
  - rewrite decide_True by done. simpl. apply IH. by apply app0_visit_feed_state.
  - rewrite decide_False by done. apply IH.
    by rewrite app0_visit_feed_silent.
Qed.

Lemma app0_merge_requested cat uuid4 web feeds p :
  App0.requested (foldl (App0.visit_feed cat uuid4 web) p feeds)
  = App0.requested p ++ omap (fun f => ALL_FEEDS cat !! f) feeds.
Proof.
  revert p. induction feeds as [|f fs IH]; intros p; simpl.
  - by rewrite app_nil_r.
  - rewrite IH. unfold App0.visit_feed.
    destruct (ALL_FEEDS cat !! f) as [url|]; [|done].
    destruct (feed_of web url) as [entries|]; simpl.
    + rewrite app0_visit_entries_requested. simpl. by rewrite <-app_assoc.
    + by rewrite <-app_assoc.
Qed.

Lemma t1_visit_entry_with_requested cat clock feed_id url p entry r :
  T1.visit_entry cat clock feed_id url
    (T1.mkPass (T1.all_items p) (T1.pass_guids p) (T1.pass_links p) (T1.ticks p) r)
    entry
  = let p' := T1.visit_entry cat clock feed_id url p entry in
    T1.mkPass (T1.all_items p') (T1.pass_guids p') (T1.pass_links p') (T1.ticks p') r.
Proof.
  unfold T1.visit_entry, T1._parse_entry. simpl.
  destruct (e_published_parsed entry) as [t|]; [destruct (Py.datetime t)|];
    simpl; try done; by destruct (T1._is_unique _ _ _).
Qed.

Lemma t1_visit_entries_with_requested cat clock feed_id url p entries r :
  foldl (T1.visit_entry cat clock feed_id url)
    (T1.mkPass (T1.all_items p) (T1.pass_guids p) (T1.pass_links p) (T1.ticks p) r)
    entries
  = let p' := foldl (T1.visit_entry cat clock feed_id url) p entries in
    T1.mkPass (T1.all_items p') (T1.pass_guids p') (T1.pass_links p') (T1.ticks p') r.
Proof.
  revert p. induction entries as [|e es IH]; intros p; simpl; [done|].
  rewrite t1_visit_entry_with_requested. simpl. by rewrite IH.
Qed.

Lemma t1_visit_feed_state cat clock web p p' f :
  t1_items_state p = t1_items_state p' ->
  t1_items_state (T1.visit_feed cat clock web p f)
  = t1_items_state (T1.visit_feed cat clock web p' f).
Proof.
  destruct p as [a b c d r], p' as [a' b' c' d' r']. unfold t1_items_state. simpl.
  intros [= <- <- <- <-]. unfold T1.visit_feed. simpl.
  destruct (ALL_FEEDS cat !! f) as [url|]; [|done].
  destruct (feed_of web url) as [entries|]; [|done].
  pose proof (t1_visit_entries_with_requested cat clock f url
                (T1.mkPass a b c d r) (take 20 entries) (r ++ [url])) as H1.
  pose proof (t1_visit_entries_with_requested cat clock f url
                (T1.mkPass a b c d r) (take 20 entries) (r' ++ [url])) as H2.
  cbn [T1.all_items T1.pass_guids T1.pass_links T1.ticks] in H1, H2.
  by rewrite H1, H2.
Qed.

Lemma t1_visit_feed_silent cat clock web p f :
  answers cat web f = false ->
  t1_items_state (T1.visit_feed cat clock web p f) = t1_items_state p.
Proof.
  unfold answers, T1.visit_feed.
  destruct (ALL_FEEDS cat !! f) as [url|]; [|done].
  by destruct (feed_of web url).
Qed.

Lemma t1_merge_answering cat clock web feeds p p' :
  t1_items_state p = t1_items_state p' ->
  t1_items_state (foldl (T1.visit_feed cat clock web) p feeds)
  = t1_items_state (foldl (T1.visit_feed cat clock web) p'
                          (filter (fun f => answers cat web f = true) feeds)).
Proof.
  revert p p'. induction feeds as [|f fs IH]; intros p p' Hp; simpl; [done|].
  rewrite filter_cons. destruct (answers cat web f) eqn:Hf.
  - rewrite decide_True by done. simpl. apply IH. by apply t1_visit_feed_state.
  - rewrite decide_False by done. apply IH.
    by rewrite t1_visit_feed_silent.
Qed.

Lemma t1_visit_entries_requested cat clock feed_id url p entries :
  T1.requested (foldl (T1.visit_entry cat clock feed_id url) p entries)
  = T1.requested p.
Proof.
  revert p. induction entries as [|e es IH]; intros p; simpl; [done|].
  rewrite IH. by destruct (t1_visit_entry_cases cat clock feed_id url p e) as [-> _].
Qed.

Lemma t1_merge_requested cat clock web feeds p :
  T1.requested (foldl (T1.visit_feed cat clock web) p feeds)
  = T1.requested p ++ omap (fun f => ALL_FEEDS cat !! f) feeds.
Proof.
  revert p. induction feeds as [|f fs IH]; intros p; simpl.
  - by rewrite app_nil_r.
  - rewrite IH. unfold T1.visit_feed.
    destruct (ALL_FEEDS cat !! f) as [url|]; [|done].
    destruct (feed_of web url) as [entries|]; simpl.
    + rewrite t1_visit_entries_requested. simpl. by rewrite <-app_assoc.
    + by rewrite <-app_assoc.
Qed.

Lemma t1_fetch_news_returns cat clock web hash feeds tick self :
  (T1.fetch_news cat clock web hash (Some feeds) tick self).1.1
  = Py.slice (T1.sort_by_date clock
                (T1.ticks (T1.merge_pass cat clock web feeds tick))
                (T1.all_items (T1.merge_pass cat clock web feeds tick)))
             0 (T1.max_items self).
Proof.
  unfold T1.fetch_news. simpl default. destruct feeds as [|f fs]; [|done].
  unfold T1.sort_by_date. simpl. by rewrite slice_nil.
Qed.


(** ** Feeds that yield no entry *)

Lemma answers_false_yields_nothing cat web f :
  answers cat web f = false -> yields_nothing cat web f.
Proof.
  unfold answers, yields_nothing. destruct (ALL_FEEDS cat !! f) as [url|]; [|done].
  destruct (feed_of web url); [done|by left].
Qed.

Lemma app0_visit_feed_nothing cat uuid4 web p f :
  yields_nothing cat web f ->
  app0_items_state (App0.visit_feed cat uuid4 web p f) = app0_items_state p.
Proof.
  unfold yields_nothing, App0.visit_feed.
  destruct (ALL_FEEDS cat !! f) as [url|]; [|done].
  by intros [->| ->].
Qed.

Lemma app0_merge_nothing cat uuid4 web feeds p :
  Forall (yields_nothing cat web) feeds ->
  app0_items_state (foldl (App0.visit_feed cat uuid4 web) p feeds) = app0_items_state p.
Proof.
  intros H. revert p. induction H as [|f fs Hf _ IH]; intros p; simpl; [done|].
  by rewrite IH, app0_visit_feed_nothing.
Qed.

Lemma t1_visit_feed_nothing cat clock web p f :
  yields_nothing cat web f ->
  t1_items_state (T1.visit_feed cat clock web p f) = t1_items_state p.
Proof.
  unfold yields_nothing, T1.visit_feed.
  destruct (ALL_FEEDS cat !! f) as [url|]; [|done].
  by intros [->| ->].
Qed.

Lemma t1_merge_nothing cat clock web feeds p :
  Forall (yields_nothing cat web) feeds ->
  t1_items_state (foldl (T1.visit_feed cat clock web) p feeds) = t1_items_state p.
Proof.
  intros H. revert p. induction H as [|f fs Hf _ IH]; intros p; simpl; [done|].
  by rewrite IH, t1_visit_feed_nothing.
Qed.

Lemma merge_pass_unique_and_capped_witness :
  0 <= T1.max_items Sample.fetcher
  /\ cache_invariant (T1.max_items Sample.fetcher) (T1.news Sample.fetcher)
  /\ cache_invariant 500
       (App0.fetch_rss_feeds Sample.cat Sample.uuid4 Sample.web ["a"; "b"] 0)
  /\ cache_invariant (T1.max_items Sample.fetcher)
       (T1.news (T1.fetch_news Sample.cat Sample.clock Sample.web Sample.hash
                               (Some ["a"; "b"]) 0 Sample.fetcher).1.2).
Proof.
  assert (H0 : 0 <= T1.max_items Sample.fetcher) by (vm_compute; discriminate).
  assert (H1 : cache_invariant (T1.max_items Sample.fetcher) (T1.news Sample.fetcher)).
  { repeat split; [constructor|constructor|vm_compute; discriminate]. }
  split; [exact H0|]. split; [exact H1|].
  pose proof (merge_pass_unique_and_capped Sample.cat Sample.uuid4 Sample.clock
                Sample.web ["a"; "b"] 0 Sample.hash (Some ["a"; "b"]) 0 Sample.fetcher H0 H1)
    as (Ha & Hb & _).
  exact (conj Ha Hb).
Defined.

(** ** New items and the viewed set *)

Lemma count_loop (P : Item -> Prop) `{!forall n, Decision (P n)} (l : list Item) (a : Z) :
  foldl (fun count item => if bool_decide (P item) then count + 1 else count) a l
  = a + Z.of_nat (length (filter P l)).
Proof.
  revert a. induction l as [|x l IH]; intros a; simpl; [lia|].
  rewrite IH, filter_cons. case_bool_decide; case_decide; try done; simpl; lia.
Qed.

Lemma sum_of_ones {A} (l : list A) (a : Z) :
  foldl Z.add a ((fun _ => 1) <$> l) = a + Z.of_nat (length l).
Proof.
  revert a. induction l as [|x l IH]; intros a; simpl; [lia|].
  rewrite IH. lia.
Qed.

Lemma length_filter_mono {A} (P Q : A -> Prop)
    `{!forall x, Decision (P x)} `{!forall x, Decision (Q x)} (l : list A) :
  (forall x, P x -> Q x) -> (length (filter P l) <= length (filter Q l))%nat.
Proof.
  intros HPQ. induction l as [|x l IH]; [done|].
  rewrite !filter_cons. repeat case_decide; simpl; try lia.
  exfalso. auto.
Qed.

Lemma filter_all {A} (P : A -> Prop) `{!forall x, Decision (P x)} (l : list A) :
  (forall x, P x) -> filter P l = l.
Proof.
  intros HP. induction l as [|x l IH]; [done|].
  rewrite filter_cons. case_decide; [by rewrite IH|]. exfalso. auto.
Qed.

Lemma t1_new_count_spec self :
  T1.get_new_news_count self
  = Z.of_nat (length (filter (fun n => news_id n ∉ T1.seen_news_ids self) (T1.news self))).
Proof. unfold T1.get_new_news_count. by rewrite count_loop. Qed.

Lemma t1_mark_as_viewed_le self x :
  T1.get_new_news_count (T1.mark_as_viewed self x) <= T1.get_new_news_count self.
Proof.
  rewrite !t1_new_count_spec. simpl. apply inj_le, length_filter_mono.
  intros n Hn. set_solver.
Qed.

Lemma t1_mark_all_le self (viewed : list Item) :
  T1.news (foldl T1.mark_as_viewed self viewed) = T1.news self
  /\ T1.get_new_news_count (foldl T1.mark_as_viewed self viewed)
     <= T1.get_new_news_count self.
Proof.
  revert self. induction viewed as [|x l IH]; intros self; simpl; [split; [done|lia]|].
  destruct (IH (T1.mark_as_viewed self x)) as [Hn Hc]. split; [by rewrite Hn|].
  etransitivity; [exact Hc|]. apply t1_mark_as_viewed_le.
Qed.

(** C8.  The count of new items is the number of cached items whose
    fingerprint [link ++ title] is not in the viewed set; marking items as
    viewed leaves the cache as it is and never raises the count, one call
    after the other; after the viewed set is cleared the count is the length
    of the cache.  The same count and the same clearing in the web service. *)
Theorem new_count_tracks_viewed_set
    (self : T1.NewsFetcher) (x : Item) (viewed : list Item) (st : App0.AppState) :
  T1.get_new_news_count self
  = Z.of_nat (length (filter (fun n => news_id n ∉ T1.seen_news_ids self) (T1.news self)))
  /\ T1.news (T1.mark_as_viewed self x) = T1.news self
  /\ T1.get_new_news_count (T1.mark_as_viewed self x) <= T1.get_new_news_count self
  /\ T1.get_new_news_count (foldl T1.mark_as_viewed self viewed)
     <= T1.get_new_news_count self
  /\ T1.get_new_news_count (T1.clear_viewed_cache self) = Z.of_nat (length (T1.news self))
  /\ App0.new_count st
     = Z.of_nat (length (filter (fun n => news_id n ∉ App0.seen_news st) (App0.news st)))
  /\ App0.new_count (App0.clear_cache st).2 = Z.of_nat (length (App0.news st)).
Proof.
  split; [apply t1_new_count_spec|].
  split; [done|].
  split; [apply t1_mark_as_viewed_le|].
  split; [apply t1_mark_all_le|].
  split.
  { rewrite t1_new_count_spec. simpl. rewrite filter_all; [done|set_solver]. }
  split.
  { unfold App0.new_count. by rewrite sum_of_ones. }
  unfold App0.new_count. rewrite sum_of_ones. simpl. rewrite filter_all; [done|set_solver].
Qed.

(** ** The refresh gate *)

Lemma app0_gate_closed cat uuid4 web hash db now u st t :
  App0.last_fetch_time st = Some t ->
  now - t < App0.CACHE_DURATION_MINUTES * 60000000 ->
  App0.fetch_news cat uuid4 web hash db now u st
  = (App0.RedirectNotify
       (App0.WaitMinutes (App0.CACHE_DURATION_MINUTES - (now - t) / 60000000)),
     st, []).
Proof.
  intros Ht Hlt. unfold App0.fetch_news. rewrite Ht.
  destruct (Z.ltb_spec (now - t) (App0.CACHE_DURATION_MINUTES * 60000000)); [done|lia].
Qed.

Lemma app0_gate_open cat uuid4 web hash db now u st :
  gate_open now st ->
  App0.fetch_news cat uuid4 web hash db now u st
  = match App0.load_selected_feeds db with
    | None => (App0.RedirectNotify App0.LoadError, st, [])
    | Some selected_feeds =>
        (App0.RedirectSortDate,
         App0.mkState (App0.fetch_rss_feeds cat uuid4 web
                         (Py.set_iter hash selected_feeds) u)
                      (App0.seen_news st) (App0.saved_links st) (Some now),
         App0.requested (App0.merge_pass cat uuid4 web
                           (Py.set_iter hash selected_feeds) u))
    end.
Proof.
  unfold gate_open, App0.fetch_news. intros Hopen.
  destruct (App0.last_fetch_time st) as [t|]; [|done].
  destruct (Z.ltb_spec (now - t) (App0.CACHE_DURATION_MINUTES * 60000000)); [lia|done].
Qed.

Lemma minutes_left_rounds_up (elapsed : Z) :
  let m := App0.CACHE_DURATION_MINUTES - elapsed / 60000000 in
  (m - 1) * 60000000 < App0.CACHE_DURATION_MINUTES * 60000000 - elapsed <= m * 60000000.
Proof.
  unfold App0.CACHE_DURATION_MINUTES. simpl.
  pose proof (Z.div_mod elapsed 60000000 ltac:(lia)) as Hdm.
  pose proof (Z.mod_pos_bound elapsed 60000000 ltac:(lia)) as Hb.
  lia.
Qed.

(** C4.  A refresh requested at [now] while [now - last_fetch_time] is below
    [CACHE_DURATION_MINUTES] = 5 minutes is refused: the answer carries the
    number of minutes left (the remaining time rounded up to whole minutes),
    no feed is requested, and the state, hence the cached list, is the one
    the call found.  In particular a refresh that follows an accepted one
    within the interval leaves the list that refresh stored. *)
Theorem refresh_within_gate_is_rejected
    (cat cat' : Catalog) (uuid4 uuid4' : nat -> string) (web web' : Web)
    (hash hash' : string -> Z)
    (db db' : option (list string)) (now now' : Z) (u u' : nat)
    (st st' : App0.AppState) (t : Z) (reqs : list string) :
  App0.last_fetch_time st = Some t ->
  now - t < App0.CACHE_DURATION_MINUTES * 60000000 ->
  let minutes_left := App0.CACHE_DURATION_MINUTES - (now - t) / 60000000 in
  App0.fetch_news cat uuid4 web hash db now u st
  = (App0.RedirectNotify (App0.WaitMinutes minutes_left), st, [])
  /\ (minutes_left - 1) * 60000000
     < App0.CACHE_DURATION_MINUTES * 60000000 - (now - t)
     <= minutes_left * 60000000
  /\ (App0.fetch_news cat' uuid4' web' hash' db' t u' st' = (App0.RedirectSortDate, st, reqs) ->
      App0.news (App0.fetch_news cat uuid4 web hash db now u st).1.2
      = App0.fetch_rss_feeds cat' uuid4' web'
          (Py.set_iter hash' (default ∅ (App0.load_selected_feeds db'))) u').
Proof.
  intros Ht Hlt m. split; [by apply app0_gate_closed|].
  split; [apply minutes_left_rounds_up|].
  intros Hfirst. rewrite (app0_gate_closed _ _ _ _ _ _ _ _ t) by done. simpl.
  unfold App0.fetch_news in Hfirst.
  destruct (match App0.last_fetch_time st' with Some _ => _ | None => _ end);
    [discriminate|].
  destruct (App0.load_selected_feeds db') as [feeds|]; [|discriminate].
  injection Hfirst as <- _. done.
Qed.

Lemma refresh_within_gate_is_rejected_witness :
  App0.last_fetch_time Sample2.refreshed = Some 0
  /\ 90000000 - 0 < App0.CACHE_DURATION_MINUTES * 60000000
  /\ App0.fetch_news Sample.cat Sample.uuid4 Sample.web Sample.hash (Some ["a"; "b"]) 90000000 3
                     Sample2.refreshed
     = (App0.RedirectNotify (App0.WaitMinutes 4), Sample2.refreshed, []).
Proof.
  assert (H1 : App0.last_fetch_time Sample2.refreshed = Some 0) by reflexivity.
  assert (H2 : 90000000 - 0 < App0.CACHE_DURATION_MINUTES * 60000000) by reflexivity.
  split; [exact H1|]. split; [exact H2|].
  exact (proj1 (refresh_within_gate_is_rejected
                  Sample.cat Sample.cat Sample.uuid4 Sample.uuid4 Sample.web Sample.web
                  Sample.hash Sample.hash
                  (Some ["a"; "b"]) (Some ["a"; "b"]) 90000000 0 3 0
                  Sample2.refreshed App0.initial_state 0 [] H1 H2)).
Defined.

(** ** What a refresh does to the cache *)

Lemma app0_gate_refused cat uuid4 web hash db now u st :
  ~ gate_open now st \/ App0.load_selected_feeds db = None ->
  (exists n, (App0.fetch_news cat uuid4 web hash db now u st).1.1 = App0.RedirectNotify n)
  /\ (App0.fetch_news cat uuid4 web hash db now u st).1.2 = st
  /\ (App0.fetch_news cat uuid4 web hash db now u st).2 = [].
Proof.
  unfold gate_open, App0.fetch_news. intros Href.
  destruct (App0.last_fetch_time st) as [t|].
  - destruct (Z.ltb_spec (now - t) (App0.CACHE_DURATION_MINUTES * 60000000)).
    + simpl. eauto.
    + destruct Href as [Hclosed| ->]; [by destruct Hclosed|simpl; eauto].
  - destruct Href as [Hclosed| ->]; [by destruct Hclosed|simpl; eauto].
Qed.

Lemma app0_fetch_rss_feeds_answering cat uuid4 web feeds u :
  App0.fetch_rss_feeds cat uuid4 web feeds u
  = App0.fetch_rss_feeds cat uuid4 web
      (filter (fun f => answers cat web f = true) feeds) u.
Proof.
  unfold App0.fetch_rss_feeds, App0.merge_pass.
  pose proof (app0_merge_answering cat uuid4 web feeds
                (App0.mkPass [] ∅ ∅ u []) (App0.mkPass [] ∅ ∅ u []) eq_refl) as H.
  unfold app0_items_state in H. injection H as H _ _ _. by rewrite H.
Qed.

Lemma t1_merge_pass_answering cat clock web feeds tick :
  t1_items_state (T1.merge_pass cat clock web feeds tick)
  = t1_items_state (T1.merge_pass cat clock web
                      (filter (fun f => answers cat web f = true) feeds) tick).
Proof. unfold T1.merge_pass. by apply t1_merge_answering. Qed.

Lemma app0_nothing_no_item cat uuid4 web feeds u :
  Forall (yields_nothing cat web) feeds ->
  App0.fetch_rss_feeds cat uuid4 web feeds u = [].
Proof.
  intros H. unfold App0.fetch_rss_feeds, App0.merge_pass.
  pose proof (app0_merge_nothing cat uuid4 web feeds (App0.mkPass [] ∅ ∅ u []) H) as E.
  unfold app0_items_state in E. injection E as -> _ _ _. done.
Qed.

Lemma t1_nothing_no_item cat clock web feeds tick :
  Forall (yields_nothing cat web) feeds ->
  T1.all_items (T1.merge_pass cat clock web feeds tick) = []
  /\ T1.ticks (T1.merge_pass cat clock web feeds tick) = tick.
Proof.
  intros H. unfold T1.merge_pass.
  pose proof (t1_merge_nothing cat clock web feeds (T1.mkPass [] ∅ ∅ tick []) H) as E.
  unfold t1_items_state in E. by injection E as -> _ _ ->.
Qed.

(** C2, as the code has it.  No call counts the sources that answered.
    In the web service a refresh is refused, with a reason, exactly when the
    gate is closed or the selection cannot be read: the state is then left
    as it was and no feed is requested.  Every other refresh is answered as
    a successful one, stores the result of the pass in place of the cached
    list and sets [last_fetch_time] to the time of the call.
    [NewsFetcher.fetch_news] leaves the object alone exactly when no feed is
    selected; otherwise it stores the result of the pass and the time.  A
    feed that is unknown or fails is isolated: the pass gives what a pass
    over the answering feeds alone gives.  So when no selected feed yields
    an entry (unknown, failing or empty), a refresh that is not refused
    stores the empty list and the time. *)
Theorem refresh_replaces_cache_unless_refused
    (cat : Catalog) (uuid4 : nat -> string) (clock : nat -> Z) (web : Web)
    (hash : string -> Z)
    (db : option (list string)) (now : Z) (u : nat) (st : App0.AppState)
    (selected : option (list string)) (tick : nat) (self : T1.NewsFetcher)
    (feeds : list string) :
  let r0 := App0.fetch_news cat uuid4 web hash db now u st in
  let r1 := T1.fetch_news cat clock web hash selected tick self in
  let feeds1 := default (Py.set_iter hash (T1.selected_feeds self)) selected in
  let p1 := T1.merge_pass cat clock web feeds1 tick in
  (forall sel, gate_open now st -> App0.load_selected_feeds db = Some sel ->
     r0.1 = (App0.RedirectSortDate,
             App0.mkState (App0.fetch_rss_feeds cat uuid4 web (Py.set_iter hash sel) u)
                          (App0.seen_news st) (App0.saved_links st) (Some now))
     /\ (Forall (yields_nothing cat web) (Py.set_iter hash sel) ->
         r0.1 = (App0.RedirectSortDate,
                 App0.mkState [] (App0.seen_news st) (App0.saved_links st) (Some now))))
  /\ (~ gate_open now st \/ App0.load_selected_feeds db = None ->
      (exists n, r0.1.1 = App0.RedirectNotify n) /\ r0.1.2 = st /\ r0.2 = [])
  /\ (feeds1 <> [] ->
      r1.1.1 = T1.news r1.1.2
      /\ T1.news r1.1.2
         = Py.slice (T1.sort_by_date clock (T1.ticks p1) (T1.all_items p1))
                    0 (T1.max_items self)
      /\ T1.last_fetch_time r1.1.2
         = Some (clock (T1.ticks p1 + length (T1.all_items p1))%nat)
      /\ (Forall (yields_nothing cat web) feeds1 ->
          T1.news r1.1.2 = [] /\ T1.last_fetch_time r1.1.2 = Some (clock tick)))
  /\ (feeds1 = [] -> r1 = ([], self, []))
  /\ App0.fetch_rss_feeds cat uuid4 web feeds u
     = App0.fetch_rss_feeds cat uuid4 web
         (filter (fun f => answers cat web f = true) feeds) u
  /\ t1_items_state (T1.merge_pass cat clock web feeds tick)
     = t1_items_state (T1.merge_pass cat clock web
                         (filter (fun f => answers cat web f = true) feeds) tick).
Proof.
  intros r0 r1 feeds1 p1. split; [|split; [|split; [|split; [|split]]]].
  - intros sel Hopen Hsel. unfold r0. rewrite app0_gate_open, Hsel by done.
    split; [done|]. intros Hdown. cbn [fst]. by rewrite app0_nothing_no_item.
  - apply app0_gate_refused.
  - intros Hne. unfold r1, T1.fetch_news. fold feeds1.
    destruct feeds1 as [|f fs] eqn:Hfeeds; [done|]. fold p1. cbn [fst snd T1.news
      T1.last_fetch_time].
    split; [done|]. split; [done|]. split; [done|].
    intros Hdown. destruct (t1_nothing_no_item cat clock web (f :: fs) tick Hdown)
      as [Hitems Hticks].
    fold p1 in Hitems, Hticks. rewrite Hitems, Hticks. simpl. rewrite Nat.add_0_r.
    unfold T1.sort_by_date. simpl. by rewrite slice_nil.
  - intros Hnil. unfold r1, T1.fetch_news. fold feeds1. by rewrite Hnil.
  - apply app0_fetch_rss_feeds_answering.
  - apply t1_merge_pass_answering.
Qed.

Lemma refresh_replaces_cache_unless_refused_witness :
  gate_open 1000 Sample2.one_item
  /\ Forall (yields_nothing Sample.cat Sample6.unreachable)
            (Py.set_iter Sample.hash {["a"; "b"]})
  /\ (App0.fetch_news Sample.cat Sample.uuid4 Sample6.unreachable Sample.hash
                      (Some ["a"; "b"]) 1000 0 Sample2.one_item).1
     = (App0.RedirectSortDate, App0.mkState [] ∅ ∅ (Some 1000)).
Proof.
  assert (H1 : gate_open 1000 Sample2.one_item) by exact I.
  assert (H2 : Forall (yields_nothing Sample.cat Sample6.unreachable)
                      (Py.set_iter Sample.hash {["a"; "b"]})).
  { apply Forall_forall. intros f _. unfold yields_nothing.
    destruct (ALL_FEEDS Sample.cat !! f); [by right|done]. }
  split; [exact H1|]. split; [exact H2|].
  exact (proj2 (proj1 (refresh_replaces_cache_unless_refused
                         Sample.cat Sample.uuid4 Sample.clock Sample6.unreachable
                         Sample.hash (Some ["a"; "b"]) 1000 0 Sample2.one_item None 0
                         Sample2.fetcher_one_item [])
                      {["a"; "b"]} H1 eq_refl) H2).
Defined.

(** C2 as stated fails: with every source down, the refresh of the web
    service is not reported as failed, the cached item is gone and
    [last_fetch_time] is set; the same in [NewsFetcher]. *)
Lemma total_failure_counterexample :
  (forall url, feed_of Sample.offline url = None)
  /\ App0.fetch_news Sample.cat Sample.uuid4 Sample.offline Sample.hash
                     (Some ["a"; "b"]) 1000 0 Sample2.one_item
     = (App0.RedirectSortDate, App0.mkState [] ∅ ∅ (Some 1000), ["http://a"; "http://b"])
  /\ ~ refresh_failed_keeping_cache Sample2.one_item
         (App0.fetch_news Sample.cat Sample.uuid4 Sample.offline Sample.hash
                          (Some ["a"; "b"]) 1000 0 Sample2.one_item)
  /\ T1.news Sample2.fetcher_one_item <> []
  /\ T1.last_fetch_time Sample2.fetcher_one_item = None
  /\ T1.news (T1.fetch_news Sample.cat Sample.clock Sample.offline Sample.hash None 0
                            Sample2.fetcher_one_item).1.2 = []
  /\ T1.last_fetch_time (T1.fetch_news Sample.cat Sample.clock Sample.offline
                                       Sample.hash None 0
                                       Sample2.fetcher_one_item).1.2
     = Some (Sample.clock 0).
Proof.
  split; [done|]. split; [by vm_compute|]. split.
  { intros ([n Hn] & _). vm_compute in Hn. discriminate. }
  split; [discriminate|]. split; [done|]. split; by vm_compute.
Qed.

(** ** The order by date *)

Lemma string_ltb_asym (a b : string) : String.ltb a b = true -> String.ltb b a = false.
Proof.
  unfold String.ltb. rewrite (String.compare_antisym b a).
  by destruct (String.compare a b).
Qed.

Lemma string_ltb_leb (a b : string) : String.ltb a b = false <-> String.le b a.
Proof.
  unfold String.le, String.ltb, String.leb. rewrite (String.compare_antisym b a).
  destruct (String.compare a b); simpl; split; done.
Qed.

Lemma string_ltb_neg_trans (a b c : string) :
  String.ltb a b = false -> String.ltb b c = false -> String.ltb a c = false.
Proof.
  rewrite !string_ltb_leb. intros Hba Hcb. by etransitivity.
Qed.

Lemma string_ltb_empty (s : string) : s <> "" -> String.ltb "" s = true.
Proof. by destruct s. Qed.

Lemma z_ltb_asym (a b : Z) : (a <? b) = true -> (b <? a) = false.
Proof. lia. Qed.

Lemma z_ltb_neg_trans (a b c : Z) : (a <? b) = false -> (b <? c) = false -> (a <? c) = false.
Proof. lia. Qed.

Lemma app0_dates_descending cat uuid4 web feeds u :
  descending String.ltb date (App0.fetch_rss_feeds cat uuid4 web feeds u).
Proof.
  unfold App0.fetch_rss_feeds. apply descending_take.
  apply sorted_descending; [apply string_ltb_asym|apply string_ltb_neg_trans].
Qed.

Lemma app0_absent_dates_last cat uuid4 web feeds u :
  absent_last (fun n => date n = "") (App0.fetch_rss_feeds cat uuid4 web feeds u).
Proof.
  intros i j a b Ha Hb Habs Hpres.
  destruct (Nat.lt_trichotomy i j) as [Hlt|[->|Hgt]]; [|congruence|done].
  pose proof (descending_lookup _ _ _ _ _ _ _
                (app0_dates_descending cat uuid4 web feeds u) Hlt Ha Hb) as Hord.
  simpl in Hord. rewrite Habs, string_ltb_empty in Hord; done.
Qed.

(** An entry without [published] yields an item whose date is empty. *)
Lemma app0_absent_date_is_empty cat uuid4 feed_id url p entry n :
  e_published entry = None ->
  n ∈ App0.news_items (App0.visit_entry cat uuid4 feed_id url p entry) ->
  n ∈ App0.news_items p \/ date n = "".
Proof.
  intros Habs. unfold App0.visit_entry.
  destruct (_ || _); simpl; [by left|].
  intros [Hn| ->%list_elem_of_singleton]%elem_of_app; [by left|right].
  simpl. by rewrite Habs.
Qed.

Lemma t1_merge_pass_dated cat clock web feeds tick :
  t1_dated (T1.merge_pass cat clock web feeds tick).
Proof.
  unfold T1.merge_pass. apply foldl_preserves; [|constructor].
  intros p feed_id Hp. unfold T1.visit_feed.
  destruct (ALL_FEEDS cat !! feed_id) as [url|]; [|exact Hp].
  destruct (feed_of web url) as [entries|]; [|exact Hp].
  apply foldl_preserves; [|exact Hp].
  clear. intros p entry Hp. unfold t1_dated in *.
  destruct (t1_visit_entry_cases cat clock feed_id url p entry)
    as [_ [(-> & _)|(item & _ & -> & Hitem)]]; [exact Hp|].
  apply Forall_app. split; [exact Hp|]. apply Forall_singleton.
  by repeat destruct Hitem as [_ Hitem].
Qed.

Lemma t1_sort_by_date_newest_first clock tick items :
  Forall (fun x => is_Some (published_parsed x)) items ->
  newest_first (T1.sort_by_date clock tick items).
Proof.
  intros Hdated i j a b Hij Ha Hb. unfold T1.sort_by_date in Ha, Hb.
  rewrite list_lookup_fmap in Ha, Hb.
  destruct (Py.sorted Z.ltb fst true (T1.sort_keys clock tick items) !! i)
    as [[ka a']|] eqn:Hi; [|done].
  destruct (Py.sorted Z.ltb fst true (T1.sort_keys clock tick items) !! j)
    as [[kb b']|] eqn:Hj; [|done].
  simpl in Ha, Hb. injection Ha as ->. injection Hb as ->.
  assert (Hkey : forall k x,
             (k, x) ∈ Py.sorted Z.ltb fst true (T1.sort_keys clock tick items) ->
             published_parsed x = Some k).
  { intros k x Hin.
    rewrite sorted_perm in Hin. unfold T1.sort_keys in Hin.
    apply elem_of_lookup_imap in Hin as (n & y & Heq & Hy).
    injection Heq as -> ->.
    eapply Forall_forall in Hdated; [|by eapply list_elem_of_lookup_2].
    destruct Hdated as [t Ht]. by rewrite Ht. }
  exists ka, kb.
  split; [by eapply Hkey, list_elem_of_lookup_2|].
  split; [by eapply Hkey, list_elem_of_lookup_2|].
  pose proof (descending_lookup Z.ltb fst _ _ _ _ _
                (sorted_descending Z.ltb fst z_ltb_asym z_ltb_neg_trans _) Hij Hi Hj)
    as Hord.
  simpl in Hord. lia.
Qed.

Lemma slice_from_0_take {A} (l : list A) (n : Z) :
  Py.slice l 0 n = take (Z.to_nat (Py.slice_index (Z.of_nat (length l)) n)) l.
Proof.
  unfold Py.slice. change (Py.slice_index (Z.of_nat (length l)) 0)
    with (Z.min 0 (Z.of_nat (length l))).
  rewrite Z.min_l by lia. rewrite Z.sub_0_r. simpl. by rewrite drop_0.
Qed.

Lemma newest_first_take n l : newest_first l -> newest_first (take n l).
Proof.
  intros Hl i j a b Hij Ha Hb.
  apply lookup_take_Some in Ha as [Ha _]. apply lookup_take_Some in Hb as [Hb _].
  by eapply Hl.
Qed.

Lemma t1_fetch_news_newest_first cat clock web hash selected tick self :
  newest_first (T1.fetch_news cat clock web hash selected tick self).1.1.
Proof.
  unfold T1.fetch_news.
  destruct (default (Py.set_iter hash (T1.selected_feeds self)) selected) as [|f fs].
  { intros i j a b _ Ha. done. }
  simpl. rewrite slice_from_0_take. apply newest_first_take.
  apply t1_sort_by_date_newest_first, t1_merge_pass_dated.
Qed.

Lemma t1_parse_entry_date cat clock tick entry feed_id url :
  match e_published_parsed entry with
  | None =>
      exists item,
        T1._parse_entry cat clock tick entry feed_id url = (Some item, S tick)
        /\ published_parsed item = Some (clock tick)
  | Some t =>
      match Py.datetime t with
      | Some instant =>
          exists item,
            T1._parse_entry cat clock tick entry feed_id url = (Some item, tick)
            /\ published_parsed item = Some instant
      | None => T1._parse_entry cat clock tick entry feed_id url = (None, tick)
      end
  end.
Proof.
  unfold T1._parse_entry.
  destruct (e_published_parsed entry) as [t|]; [destruct (Py.datetime t)|];
    [eexists; by split|done|eexists; by split].
Qed.

Lemma t1_rejected_date_left_out cat clock feed_id url q entry t :
  e_published_parsed entry = Some t -> Py.datetime t = None ->
  T1.all_items (T1.visit_entry cat clock feed_id url q entry) = T1.all_items q.
Proof.
  intros Ht Hbad. unfold T1.visit_entry, T1._parse_entry. by rewrite Ht, Hbad.
Qed.

(** C3, as the code has it.  Both sorts are total functions of the list.
    In the web service the key is the string [date], empty when the entry
    has no [published]; the items with an empty date stand after all the
    others.  [NewsFetcher] gives an entry without a parsed date the reading
    of the clock at the time it is parsed, leaves out an entry whose parsed
    date [datetime] rejects, and orders the list by the instants the items
    carry, latest first. *)
Theorem date_sort_and_absent_dates
    (cat : Catalog) (uuid4 : nat -> string) (clock : nat -> Z) (web : Web)
    (hash : string -> Z)
    (feeds : list string) (u : nat) (selected : option (list string)) (tick : nat)
    (self : T1.NewsFetcher) (entry : Entry) (feed_id url : string) (p : App0.Pass)
    (q : T1.Pass) :
  absent_last (fun n => date n = "") (App0.fetch_rss_feeds cat uuid4 web feeds u)
  /\ (e_published entry = None ->
      forall n, n ∈ App0.news_items (App0.visit_entry cat uuid4 feed_id url p entry) ->
                n ∈ App0.news_items p \/ date n = "")
  /\ match e_published_parsed entry with
     | None =>
         exists item,
           T1._parse_entry cat clock tick entry feed_id url = (Some item, S tick)
           /\ published_parsed item = Some (clock tick)
     | Some t =>
         match Py.datetime t with
         | Some instant =>
             exists item,
               T1._parse_entry cat clock tick entry feed_id url = (Some item, tick)
               /\ published_parsed item = Some instant
         | None =>
             T1._parse_entry cat clock tick entry feed_id url = (None, tick)
             /\ T1.all_items (T1.visit_entry cat clock feed_id url q entry)
                = T1.all_items q
         end
     end
  /\ newest_first (T1.fetch_news cat clock web hash selected tick self).1.1.
Proof.
  split; [apply app0_absent_dates_last|].
  split; [intros; by eapply app0_absent_date_is_empty|].
  split; [|apply t1_fetch_news_newest_first].
  pose proof (t1_parse_entry_date cat clock tick entry feed_id url) as H.
  destruct (e_published_parsed entry) as [t|] eqn:Ht; [|exact H].
  destruct (Py.datetime t) eqn:Hd; [exact H|].
  split; [exact H|]. by eapply t1_rejected_date_left_out.
Qed.

(** C3 as stated fails in [NewsFetcher]: the entries without a date, read
    one and two microseconds after 2024-01-03 16:40, stand before the entry
    dated 2024-01-03 00:00. *)
Lemma undated_entry_sorts_first_counterexample :
  let news := (T1.fetch_news Sample.cat Sample.clock Sample.web Sample.hash (Some ["a"]) 0
                             Sample.fetcher).1.1 in
  e_published_parsed Sample.undated = None
  /\ e_published_parsed Sample.dated = Some (Py.mkTime 2024 1 3 0 0 0)
  /\ link <$> news = ["#"; "l2"; "l1"]
  /\ published_parsed <$> news
     = [Some 1704300000000001; Some 1704300000000000; Some 1704240000000000]
  /\ ~ absent_last (fun n => link n <> "l1") news.
Proof.
  split; [done|]. split; [done|]. split; [by vm_compute|]. split; [by vm_compute|].
  intros H.
  assert (Hlt : (2 < 1)%nat); [|lia].
  eapply (H 1%nat 2%nat); [by vm_compute|by vm_compute|..].
  - simpl. discriminate.
  - simpl. intros Hneq. by apply Hneq.
Qed.

(** An entry dated in the year 0 is left out by [NewsFetcher]; the web
    service, which does not convert the date, keeps it. *)
Lemma misdated_entry_example :
  Py.datetime (Py.mkTime 0 1 1 0 0 0) = None
  /\ link <$> (T1.fetch_news Sample.cat Sample.clock Sample6.web Sample.hash (Some ["a"]) 0
                             Sample.fetcher).1.1 = ["l1"]
  /\ link <$> App0.fetch_rss_feeds Sample.cat Sample.uuid4 Sample6.web ["a"] 0
     = ["l1"; "l0"].
Proof. split; [done|]. split; by vm_compute. Qed.

(** ** Pagination *)

Lemma ceil_by_floor (n size : Z) :
  0 < size ->
  n <= (n + size - 1) / size * size < n + size.
Proof.
  intros Hsize.
  pose proof (Z.div_mod (n + size - 1) size ltac:(lia)) as Hdm.
  pose proof (Z.mod_pos_bound (n + size - 1) size Hsize) as Hb.
  lia.
Qed.

Lemma slice_in_range {A} (l : list A) (start stop : Z) :
  0 <= start <= stop -> stop <= Z.of_nat (length l) ->
  Py.slice l start stop = take (Z.to_nat (stop - start)) (drop (Z.to_nat start) l).
Proof.
  intros Hss Hlen. unfold Py.slice, Py.slice_index.
  destruct (Z.ltb_spec start 0); [lia|]. destruct (Z.ltb_spec stop 0); [lia|].
  by rewrite !Z.min_l by lia.
Qed.

Lemma app0_paginate_total_pages {A} (l : list A) (page_ : Z) :
  let n := Z.of_nat (length l) in
  exists c, n <= c * App0.PAGE_SIZE < n + App0.PAGE_SIZE
            /\ App0.total_pages (App0.paginate l page_) = Z.max 1 c.
Proof.
  intros n. exists ((n + App0.PAGE_SIZE - 1) / App0.PAGE_SIZE).
  split; [|done]. apply ceil_by_floor. done.
Qed.

Lemma app0_paginate_clamp {A} (l : list A) (page_ : Z) :
  let p := App0.paginate l page_ in
  App0.page p = Z.max 1 (Z.min page_ (App0.total_pages p))
  /\ 1 <= App0.page p <= App0.total_pages p.
Proof. simpl. lia. Qed.

Lemma app0_paginate_items {A} (l : list A) (page_ : Z) :
  let p := App0.paginate l page_ in
  App0.page_items p
  = take (Z.to_nat App0.PAGE_SIZE)
         (drop (Z.to_nat ((App0.page p - 1) * App0.PAGE_SIZE)) l).
Proof.
  intros p.
  destruct (app0_paginate_total_pages l page_) as (c & Hc & Htp).
  destruct (app0_paginate_clamp l page_) as [_ Hpage].
  fold p in Htp, Hpage. unfold App0.PAGE_SIZE in *.
  set (n := Z.of_nat (length l)) in *.
  set (start := (App0.page p - 1) * 10).
  assert (Hstart : 0 <= start <= n) by (unfold start; lia).
  change (App0.page_items p) with (Py.slice l start (Z.min (start + 10) n)).
  rewrite slice_in_range by (fold n; lia).
  destruct (Z.le_gt_cases (start + 10) n).
  - rewrite Z.min_l by lia. f_equal. lia.
  - rewrite Z.min_r by lia.
    rewrite !take_ge; [done| |]; rewrite length_drop; lia.
Qed.

Lemma t1_saved_pages (page_ page_size_ : Z) (all_articles : list SavedArticle) (w : bool) :
  0 < page_size_ ->
  let p := T1.get_saved_articles page_ page_size_ (mkDisk (Some all_articles) w) in
  let n := Z.of_nat (length all_articles) in
  T1.total p = n
  /\ n <= T1.total_pages p * page_size_ < n + page_size_
  /\ (T1.total_pages p = 0 <-> all_articles = [])
  /\ T1.page p = Z.max 1 (Z.min page_ (Z.max 1 (T1.total_pages p)))
  /\ T1.articles p
     = Py.slice all_articles ((T1.page p - 1) * page_size_)
                ((T1.page p - 1) * page_size_ + page_size_).
Proof.
  intros Hsize. unfold T1.get_saved_articles, Py.floordiv. simpl.
  destruct (Z.eqb_spec page_size_ 0); [lia|]. simpl.
  pose proof (ceil_by_floor (Z.of_nat (length all_articles)) page_size_ Hsize) as Hc.
  split; [done|]. split; [exact Hc|]. split.
  - split.
    + intros H0. rewrite H0 in Hc. destruct all_articles; [done|]. simpl in Hc. lia.
    + intros ->. simpl in *. nia.
  - split; [|done]. destruct (Z.ltb_spec 0 ((Z.of_nat (length all_articles)
                                             + page_size_ - 1) / page_size_)); lia.
Qed.

(** C7, as the code has it.  The web service paginates with the fixed
    [PAGE_SIZE] = 10: the number of pages is the ceiling of count/10 and at
    least 1, the page number is clamped into [1, total_pages], the page holds
    the (at most 10) items from position (page-1)*10 on, and the empty list
    gives page 1 of 1 without items.  [NewsFetcher.get_saved_articles] takes
    the page size; for a positive size and an existing file its number of
    pages is the ceiling of count/size without a minimum, so it is 0 exactly
    for the empty collection, and the page number is clamped into
    [1, max(1, total_pages)]; without the file it answers 0 pages, no
    articles and the page number it was given. *)
Theorem pagination_pages_and_clamp
    (news_ : list Item) (page_ page_size_ : Z)
    (all_articles : list SavedArticle) (w : bool) :
  0 < page_size_ ->
  let p0 := App0.paginate news_ page_ in
  let n0 := Z.of_nat (length news_) in
  let p1 := T1.get_saved_articles page_ page_size_ (mkDisk (Some all_articles) w) in
  let n1 := Z.of_nat (length all_articles) in
  (exists c, n0 <= c * App0.PAGE_SIZE < n0 + App0.PAGE_SIZE
             /\ App0.total_pages p0 = Z.max 1 c)
  /\ App0.page p0 = Z.max 1 (Z.min page_ (App0.total_pages p0))
  /\ 1 <= App0.page p0 <= App0.total_pages p0
  /\ App0.page_items p0
     = take 10 (drop (Z.to_nat ((App0.page p0 - 1) * App0.PAGE_SIZE)) news_)
  /\ App0.paginate (@nil Item) page_ = App0.mkPage [] 1 1
  /\ n1 <= T1.total_pages p1 * page_size_ < n1 + page_size_
  /\ (T1.total_pages p1 = 0 <-> all_articles = [])
  /\ T1.page p1 = Z.max 1 (Z.min page_ (Z.max 1 (T1.total_pages p1)))
  /\ T1.get_saved_articles page_ page_size_ (mkDisk None w)
     = T1.mkSavedPage [] 0 page_ 0 page_size_.
Proof.
  intros Hsize p0 n0 p1 n1.
  split; [apply app0_paginate_total_pages|].
  split; [apply app0_paginate_clamp|].
  split; [apply app0_paginate_clamp|].
  split; [apply app0_paginate_items|].
  split.
  { unfold App0.paginate. rewrite slice_nil.
    change (Z.max 1 ((Z.of_nat (length (@nil Item)) + App0.PAGE_SIZE - 1) / App0.PAGE_SIZE))
      with 1.
    f_equal. lia. }
  destruct (t1_saved_pages page_ page_size_ all_articles w Hsize) as (_ & H1 & H2 & H3 & _).
  done.
Qed.

Lemma pagination_pages_and_clamp_witness :
  0 < 10
  /\ App0.page (App0.paginate (App0.news Sample2.refreshed) 7)
     = Z.max 1 (Z.min 7 (App0.total_pages (App0.paginate (App0.news Sample2.refreshed) 7))).
Proof.
  assert (H : 0 < 10) by reflexivity.
  split; [exact H|].
  exact (proj1 (proj2 (pagination_pages_and_clamp
                         (App0.news Sample2.refreshed) 7 10 [] true H))).
Defined.

(** C7 as stated fails in [NewsFetcher.get_saved_articles]: over an empty
    collection the number of pages is 0, not 1, and without the file the
    page number is not clamped. *)
Lemma empty_store_has_zero_pages_counterexample :
  T1.total_pages (T1.get_saved_articles 1 10 (mkDisk (Some []) true)) = 0
  /\ T1.total_pages (T1.get_saved_articles 1 10 (mkDisk None true)) = 0
  /\ T1.page (T1.get_saved_articles 7 10 (mkDisk None true)) = 7.
Proof. by vm_compute. Qed.

(** ** Search *)

Lemma append_cons (c : ascii) (s t : string) : String c s +:+ t = String c (s +:+ t).
Proof. reflexivity. Qed.

Lemma append_empty (t : string) : "" +:+ t = t.
Proof. reflexivity. Qed.

Lemma prefix_spec (q s : string) :
  String.prefix q s = true <-> exists post, s = q +:+ post.
Proof.
  revert q. induction s as [|c' s IH]; intros [|c q]; simpl.
  - split; [by exists ""|done].
  - split; [done|]. intros [post Hpost]. by rewrite append_cons in Hpost.
  - split; [by eexists|done].
  - destruct (ascii_dec c c') as [->|Hne].
    + rewrite IH. split; intros [post Hpost]; exists post.
      * by rewrite append_cons, Hpost.
      * rewrite append_cons in Hpost. congruence.
    + split; [done|]. intros [post Hpost]. rewrite append_cons in Hpost. congruence.
Qed.

Lemma contains_spec (q s : string) : Py.contains q s = true <-> is_substring q s.
Proof.
  unfold is_substring. induction s as [|c s IH]; cbn [Py.contains].
  - rewrite orb_false_r, prefix_spec. split.
    + intros [post Hpost]. by exists "", post.
    + intros (pre & post & Hs). destruct pre as [|c pre].
      * by exists post.
      * by rewrite append_cons in Hs.
  - rewrite orb_true_iff, IH, prefix_spec. split.
    + intros [[post Hpost]|(pre & post & Hs)].
      * by exists "", post.
      * exists (String c pre), post. by rewrite append_cons, Hs.
    + intros (pre & post & Hs). destruct pre as [|c' pre].
      * left. by exists post.
      * right. exists pre, post. rewrite append_cons in Hs. congruence.
Qed.

Lemma contains_empty (s : string) : Py.contains "" s = true.
Proof. by destruct s. Qed.

Lemma truthy_spec (s : string) : Py.truthy s = true <-> s <> "".
Proof.
  unfold Py.truthy. destruct (String.eqb_spec s ""); simpl; split; congruence.
Qed.

Lemma strip_empty : Py.strip "" = "".
Proof. reflexivity. Qed.

Lemma matches_spec (query : string) (item : Item) :
  Py.contains (Py.lower query) (Py.lower (title item))
  || Py.contains (Py.lower query) (Py.lower (desc item))
  || Py.contains (Py.lower query) (Py.lower (sourceName item)) = true
  <-> matches query item.
Proof.
  unfold matches. rewrite !orb_true_iff, !contains_spec. tauto.
Qed.

(** [NewsFetcher.search_news] does what C6 says: nothing for a query that is
    empty or blank, and otherwise the cached items that match the query as it
    was typed, in the order of the cache. *)
Lemma t1_search_news_spec (query : string) (self : T1.NewsFetcher) :
  (blank query -> T1.search_news query self = [])
  /\ (~ blank query ->
      T1.search_news query self `sublist_of` T1.news self
      /\ forall item, item ∈ T1.search_news query self
                      <-> item ∈ T1.news self /\ matches query item).
Proof.
  unfold blank, T1.search_news. split.
  - intros Hblank. rewrite Hblank. simpl. by rewrite orb_true_r.
  - intros Hvisible.
    assert (Hq : query <> "") by (intros ->; by apply Hvisible).
    apply truthy_spec in Hq, Hvisible. rewrite Hq, Hvisible. simpl.
    split; [apply sublist_filter|].
    intros item. rewrite list_elem_of_filter, matches_spec. tauto.
Qed.

(** The web service searches for the stripped query. *)
Lemma app0_search_spec (q : string) (st : App0.AppState) :
  (q = "" -> App0.search q st = None)
  /\ (q <> "" ->
      exists results,
        App0.search q st = Some results
        /\ results `sublist_of` App0.news st
        /\ forall item, item ∈ results
                        <-> item ∈ App0.news st /\ matches (Py.strip q) item).
Proof.
  unfold App0.search. split; [by intros ->|].
  intros Hq. destruct q as [|c q]; [done|]. simpl String.length. simpl Nat.ltb.
  cbv iota. eexists. split; [reflexivity|].
  split; [apply sublist_filter|].
  intros item. rewrite list_elem_of_filter, matches_spec. tauto.
Qed.

(** C6 in the web service: a query that is not empty but blank passes the
    check of its length, is stripped to the empty string, and the empty
    string occurs in every title: the whole cache is returned. *)
Theorem app0_search_blank_query_returns_cache (q : string) (st : App0.AppState) :
  q <> "" -> blank q -> App0.search q st = Some (App0.news st).
Proof.
  unfold blank, App0.search. intros Hq Hblank.
  destruct q as [|c q]; [done|]. simpl String.length. simpl Nat.ltb. cbv iota.
  rewrite Hblank. f_equal. apply filter_all.
  intros item. simpl. by rewrite contains_empty.
Qed.

Lemma app0_search_blank_query_returns_cache_witness :
  " " <> "" /\ blank " "
  /\ App0.news Sample2.refreshed <> []
  /\ App0.search " " Sample2.refreshed = Some (App0.news Sample2.refreshed).
Proof.
  assert (H1 : " " <> "") by discriminate.
  assert (H2 : blank " ") by reflexivity.
  split; [exact H1|]. split; [exact H2|]. split; [discriminate|].
  exact (app0_search_blank_query_returns_cache " " Sample2.refreshed H1 H2).
Defined.

(** ** The saved-article store *)

Lemma find_by_link_None (link_ : string) (items : list Item) :
  List.find (fun n => (link n =? link_)%string) items = None <-> ~ cached link_ items.
Proof.
  unfold cached. induction items as [|x l IH]; simpl.
  - split; [|done]. intros _ H. by apply elem_of_nil in H.
  - destruct (String.eqb_spec (link x) link_) as [<-|Hne].
    + split; [done|]. intros H. exfalso. apply H. apply elem_of_cons. by left.
    + rewrite IH. rewrite elem_of_cons. split; [|tauto].
      intros H [Heq|Hin]; [congruence|tauto].
Qed.

Lemma find_by_link_Some (link_ : string) (items : list Item) :
  cached link_ items ->
  exists a, List.find (fun n => (link n =? link_)%string) items = Some a
            /\ link a = link_ /\ a ∈ items.
Proof.
  intros Hc.
  destruct (List.find (fun n => (link n =? link_)%string) items) as [a|] eqn:Hfind.
  - exists a. split; [done|]. apply find_some in Hfind as [Hin Heq].
    apply String.eqb_eq in Heq. split; [done|]. by apply list_elem_of_In.
  - by apply find_by_link_None in Hfind.
Qed.

Lemma existsb_stored (link_ : string) (l : list SavedArticle) :
  existsb (fun a => (sa_sourceUrl a =? link_)%string) l = true
  <-> link_ ∈ sa_sourceUrl <$> l.
Proof.
  induction l as [|x l IH]; simpl.
  - split; [done|]. intros H. by apply elem_of_nil in H.
  - rewrite orb_true_iff, IH, elem_of_cons, String.eqb_eq. split; intros [H|H]; auto.
Qed.

Lemma existsb_stored_false (link_ : string) (l : list SavedArticle) :
  existsb (fun a => (sa_sourceUrl a =? link_)%string) l = false
  <-> link_ ∉ sa_sourceUrl <$> l.
Proof.
  rewrite <-existsb_stored. by destruct (existsb _ l).
Qed.

Lemma appended_changes d d' link_ text : appended d d' link_ text -> d' <> d.
Proof.
  intros (a & _ & _ & Hfile & _) ->. unfold stored in Hfile.
  destruct (articles_file d) as [l|]; [|done]. simpl in Hfile.
  injection Hfile as Hl. apply (f_equal length) in Hl.
  rewrite length_app in Hl. simpl in Hl. lia.
Qed.

(** The five ways [POST /save] ends. *)
Lemma app0_save_cases web now link_ st d :
  let text := page_text web link_ in
  let r := App0.save_article_endpoint web now link_ st d in
  (~ cached link_ (App0.news st) -> r = (App0.RedirectNotify App0.NotFound, st, d))
  /\ (cached link_ (App0.news st) -> text = "" ->
      r = (App0.RedirectNotify App0.NoText, st, d))
  /\ (cached link_ (App0.news st) -> text <> "" -> link_ ∈ stored_links d ->
      r = (App0.RedirectHome, st, d))
  /\ (cached link_ (App0.news st) -> text <> "" -> link_ ∉ stored_links d ->
      writable d = false -> r = (App0.RedirectNotify App0.SaveError, st, d))
  /\ (cached link_ (App0.news st) -> text <> "" -> link_ ∉ stored_links d ->
      writable d = true ->
      r.1.1 = App0.RedirectHome
      /\ r.1.2 = App0.mkState (App0.news st) (App0.seen_news st)
                              ({[link_]} ∪ App0.saved_links st)
                              (App0.last_fetch_time st)
      /\ appended d r.2 link_ text).
Proof.
  intros text r. unfold r, App0.save_article_endpoint, App0.find_article.
  split; [|split; [|split; [|split]]].
  - intros Hc. apply find_by_link_None in Hc. by rewrite Hc.
  - intros (a & -> & _)%find_by_link_Some Htext. fold text. by rewrite Htext.
  - intros (a & -> & _)%find_by_link_Some Htext%truthy_spec Hdup. fold text.
    rewrite Htext. simpl. unfold App0.save_article, App0.load_saved_articles.
    apply existsb_stored in Hdup. unfold stored in Hdup. by rewrite Hdup.
  - intros (a & -> & _)%find_by_link_Some Htext%truthy_spec Hnew Hw. fold text.
    rewrite Htext. simpl. unfold App0.save_article, App0.load_saved_articles.
    apply existsb_stored_false in Hnew. unfold stored in Hnew. by rewrite Hnew, Hw.
  - intros (a & -> & _)%find_by_link_Some Htext%truthy_spec Hnew Hw. fold text.
    rewrite Htext. simpl. unfold App0.save_article, App0.load_saved_articles.
    apply existsb_stored_false in Hnew. unfold stored in Hnew. rewrite Hnew, Hw.
    simpl. split; [done|]. split; [done|].
    eexists. split; [|split; [|split]]; [| |reflexivity|]; done.
Qed.

(** The six ways [NewsFetcher.save_article] ends. *)
Lemma t1_save_cases web now token link_ self d :
  let text := page_text web link_ in
  let r := T1.save_article web now token link_ self d in
  (~ cached link_ (T1.news self) -> r = (T1.failure T1.NotFound, self, d))
  /\ (cached link_ (T1.news self) -> link_ ∈ T1.saved_links self ->
      r = (T1.failure T1.AlreadySaved, self, d))
  /\ (cached link_ (T1.news self) -> link_ ∉ T1.saved_links self -> text = "" ->
      r = (T1.failure T1.NoText, self, d))
  /\ (cached link_ (T1.news self) -> link_ ∉ T1.saved_links self -> text <> "" ->
      link_ ∈ stored_links d -> r = (T1.failure T1.AlreadySaved, self, d))
  /\ (cached link_ (T1.news self) -> link_ ∉ T1.saved_links self -> text <> "" ->
      link_ ∉ stored_links d -> writable d = false ->
      r = (T1.failure T1.SaveError, self, d))
  /\ (cached link_ (T1.news self) -> link_ ∉ T1.saved_links self -> text <> "" ->
      link_ ∉ stored_links d -> writable d = true ->
      T1.success r.1.1 = true /\ T1.message r.1.1 = T1.Saved
      /\ T1.news r.1.2 = T1.news self
      /\ T1.saved_links r.1.2 = {[link_]} ∪ T1.saved_links self
      /\ appended d r.2 link_ text).
Proof.
  intros text r. unfold r, T1.save_article.
  split; [|split; [|split; [|split; [|split]]]].
  - intros Hc. apply find_by_link_None in Hc. by rewrite Hc.
  - intros (a & -> & _)%find_by_link_Some Hin. by rewrite bool_decide_eq_true_2.
  - intros (a & -> & _)%find_by_link_Some Hin Htext.
    rewrite bool_decide_eq_false_2 by done. fold text. by rewrite Htext.
  - intros (a & -> & _)%find_by_link_Some Hin Htext%truthy_spec Hdup.
    rewrite bool_decide_eq_false_2 by done. fold text. rewrite Htext. simpl.
    apply existsb_stored in Hdup. unfold stored in Hdup. by rewrite Hdup.
  - intros (a & -> & _)%find_by_link_Some Hin Htext%truthy_spec Hnew Hw.
    rewrite bool_decide_eq_false_2 by done. fold text. rewrite Htext. simpl.
    apply existsb_stored_false in Hnew. unfold stored in Hnew. by rewrite Hnew, Hw.
  - intros (a & -> & _)%find_by_link_Some Hin Htext%truthy_spec Hnew Hw.
    rewrite bool_decide_eq_false_2 by done. fold text. rewrite Htext. simpl.
    apply existsb_stored_false in Hnew. unfold stored in Hnew. rewrite Hnew, Hw.
    simpl. repeat (split; [done|]).
    eexists. split; [|split; [|split]]; [| |reflexivity|]; done.
Qed.

Ltac split_archive_cases link_ items text d :=
  destruct (decide (link_ ∈ link <$> items)) as [Hc|Hc];
  [destruct (decide (text = "")) as [Ht|Ht];
   [|destruct (decide (link_ ∈ stored_links d)) as [Hs|Hs];
     [|destruct (writable d) eqn:Hw]]|].

Lemma app0_save_persists_iff web now link_ st d :
  (App0.save_article_endpoint web now link_ st d).2 <> d
  <-> cached link_ (App0.news st) /\ (link_ ∉ stored_links d)
      /\ page_text web link_ <> "" /\ writable d = true.
Proof.
  destruct (app0_save_cases web now link_ st d) as (H1 & H2 & H3 & H4 & H5).
  unfold cached in *.
  split_archive_cases link_ (App0.news st) (page_text web link_) d.
  - rewrite H2 by done. simpl. tauto.
  - rewrite H3 by done. simpl. tauto.
  - split; [done|]. intros _. destruct H5 as (_ & _ & Happ); [done..|].
    by eapply appended_changes.
  - rewrite H4 by done. simpl. split; [done|]. intros (_ & _ & _ & ?). done.
  - rewrite H1 by done. simpl. tauto.
Qed.

Lemma app0_save_unchanged_or_appended web now link_ st d :
  let r := App0.save_article_endpoint web now link_ st d in
  (r.1.2 = st /\ r.2 = d)
  \/ (r.1.1 = App0.RedirectHome /\ page_text web link_ <> ""
      /\ (link_ ∉ stored_links d)
      /\ App0.news r.1.2 = App0.news st
      /\ App0.saved_links r.1.2 = {[link_]} ∪ App0.saved_links st
      /\ appended d r.2 link_ (page_text web link_)).
Proof.
  intros r. unfold r.
  destruct (app0_save_cases web now link_ st d) as (H1 & H2 & H3 & H4 & H5).
  unfold cached in *.
  split_archive_cases link_ (App0.news st) (page_text web link_) d.
  - left. by rewrite H2.
  - left. by rewrite H3.
  - right. destruct H5 as (Hr & Hst & Happ); [done..|]. by rewrite Hst.
  - left. by rewrite H4.
  - left. by rewrite H1.
Qed.

Lemma t1_save_persists_iff web now token link_ self d :
  (T1.save_article web now token link_ self d).2 <> d
  <-> cached link_ (T1.news self) /\ (link_ ∉ T1.saved_links self)
      /\ (link_ ∉ stored_links d)
      /\ page_text web link_ <> "" /\ writable d = true.
Proof.
  destruct (t1_save_cases web now token link_ self d) as (H1 & H2 & H3 & H4 & H5 & H6).
  unfold cached in *.
  destruct (decide (link_ ∈ T1.saved_links self)) as [Hi|Hi].
  { destruct (decide (link_ ∈ link <$> T1.news self)) as [Hc|Hc].
    - rewrite H2 by done. simpl. tauto.
    - rewrite H1 by done. simpl. tauto. }
  split_archive_cases link_ (T1.news self) (page_text web link_) d.
  - rewrite H3 by done. simpl. tauto.
  - rewrite H4 by done. simpl. tauto.
  - split; [done|]. intros _. destruct H6 as (_ & _ & _ & _ & Happ); [done..|].
    by eapply appended_changes.
  - rewrite H5 by done. simpl. split; [done|]. intros (_ & _ & _ & _ & ?). done.
  - rewrite H1 by done. simpl. tauto.
Qed.

Lemma t1_save_unchanged_or_appended web now token link_ self d :
  let r := T1.save_article web now token link_ self d in
  (T1.success r.1.1 = false /\ r.1.2 = self /\ r.2 = d)
  \/ (T1.success r.1.1 = true /\ T1.message r.1.1 = T1.Saved
      /\ page_text web link_ <> ""
      /\ (link_ ∉ stored_links d)
      /\ T1.news r.1.2 = T1.news self
      /\ T1.saved_links r.1.2 = {[link_]} ∪ T1.saved_links self
      /\ appended d r.2 link_ (page_text web link_)).
Proof.
  intros r. unfold r.
  destruct (t1_save_cases web now token link_ self d) as (H1 & H2 & H3 & H4 & H5 & H6).
  unfold cached in *.
  destruct (decide (link_ ∈ T1.saved_links self)) as [Hi|Hi].
  { left. destruct (decide (link_ ∈ link <$> T1.news self)) as [Hc|Hc].
    - by rewrite H2.
    - by rewrite H1. }
  split_archive_cases link_ (T1.news self) (page_text web link_) d.
  - left. by rewrite H3.
  - left. by rewrite H4.
  - right. destruct H6 as (? & ? & ? & ? & ?); [done..|]. done.
  - left. by rewrite H5.
  - left. by rewrite H1.
Qed.

Lemma appended_full_texts d d' link_ text :
  text <> "" -> appended d d' link_ text ->
  full_texts_nonempty d -> full_texts_nonempty d'.
Proof.
  intros Htext (a & _ & Ha & Hfile & _) Hd. unfold full_texts_nonempty, stored.
  rewrite Hfile. simpl. apply Forall_app. split; [exact Hd|].
  repeat constructor. by rewrite Ha.
Qed.

Lemma appended_stored_links d d' link_ text :
  appended d d' link_ text -> stored_links d' = stored_links d ++ [link_].
Proof.
  intros (a & Ha & _ & Hfile & _). unfold stored_links, stored at 1.
  rewrite Hfile. simpl. by rewrite fmap_app, <-Ha.
Qed.

(** C5, as the code has it.  An archive request appends a record exactly when
    the link belongs to a cached item, no record of the file has that link
    (for [NewsFetcher] also: the link is not in its index of saved links),
    the extracted text is not empty and the file can be written; the record
    then carries the link and that text, so no record with an empty full
    text is ever added.  Every other request leaves the file as it is.
    [NewsFetcher.save_article] answers a request it refuses with "not
    found", "already saved" or "no text"; the web service answers "not
    found" or "no text", extracts the text before it looks for a duplicate,
    and answers a duplicate with the plain redirect of a successful save.
    After a successful archive, a second one for the same link leaves the
    file as it is, and [NewsFetcher] answers it with "already saved". *)
Theorem archive_outcomes
    (web web' : Web) (now now' : Z) (token token' link_ : string)
    (st : App0.AppState) (self : T1.NewsFetcher) (d : Disk) :
  let text := page_text web link_ in
  let r0 := App0.save_article_endpoint web now link_ st d in
  let r1 := T1.save_article web now token link_ self d in
  (r0.2 <> d <-> cached link_ (App0.news st) /\ (link_ ∉ stored_links d)
                 /\ text <> "" /\ writable d = true)
  /\ (r0.2 <> d -> appended d r0.2 link_ text /\ r0.1.1 = App0.RedirectHome)
  /\ (r1.2 <> d <-> cached link_ (T1.news self) /\ (link_ ∉ T1.saved_links self)
                    /\ (link_ ∉ stored_links d) /\ text <> "" /\ writable d = true)
  /\ (r1.2 <> d -> appended d r1.2 link_ text /\ T1.success r1.1.1 = true)
  /\ (~ cached link_ (App0.news st) -> r0.1.1 = App0.RedirectNotify App0.NotFound)
  /\ (cached link_ (App0.news st) -> text = "" ->
      r0.1.1 = App0.RedirectNotify App0.NoText)
  /\ (cached link_ (App0.news st) -> text <> "" -> link_ ∈ stored_links d ->
      r0.1.1 = App0.RedirectHome)
  /\ (~ cached link_ (T1.news self) -> r1.1.1 = T1.failure T1.NotFound)
  /\ (cached link_ (T1.news self) -> link_ ∈ T1.saved_links self ->
      r1.1.1 = T1.failure T1.AlreadySaved)
  /\ (cached link_ (T1.news self) -> link_ ∉ T1.saved_links self -> text = "" ->
      r1.1.1 = T1.failure T1.NoText)
  /\ (cached link_ (T1.news self) -> link_ ∉ T1.saved_links self -> text <> "" ->
      link_ ∈ stored_links d -> r1.1.1 = T1.failure T1.AlreadySaved)
  /\ (full_texts_nonempty d -> full_texts_nonempty r0.2 /\ full_texts_nonempty r1.2)
  /\ (r0.2 <> d ->
      (App0.save_article_endpoint web' now' link_ r0.1.2 r0.2).2 = r0.2
      /\ (App0.save_article_endpoint web' now' link_ r0.1.2 r0.2).1.2 = r0.1.2)
  /\ (r1.2 <> d ->
      T1.save_article web' now' token' link_ r1.1.2 r1.2
      = (T1.failure T1.AlreadySaved, r1.1.2, r1.2)).
Proof.
  intros text r0 r1.
  pose proof (app0_save_cases web now link_ st d) as (A1 & A2 & A3 & A4 & A5).
  pose proof (t1_save_cases web now token link_ self d) as (B1 & B2 & B3 & B4 & B5 & B6).
  pose proof (app0_save_unchanged_or_appended web now link_ st d) as A.
  pose proof (t1_save_unchanged_or_appended web now token link_ self d) as B.
  fold text r0 in A, A1, A2, A3, A4, A5. fold text r1 in B, B1, B2, B3, B4, B5, B6.
  simpl in A, B.
  split; [apply app0_save_persists_iff|].
  split.
  { intros Hch. destruct A as [[_ ?]|(? & _ & _ & _ & _ & ?)]; done. }
  split; [apply t1_save_persists_iff|].
  split.
  { intros Hch. destruct B as [(_ & _ & ?)|(? & _ & _ & _ & _ & _ & ?)]; done. }
  split; [intros H; by rewrite A1|].
  split; [intros H1 H2; by rewrite A2|].
  split; [intros H1 H2 H3; by rewrite A3|].
  split; [intros H; by rewrite B1|].
  split; [intros H1 H2; by rewrite B2|].
  split; [intros H1 H2 H3; by rewrite B3|].
  split; [intros H1 H2 H3 H4; by rewrite B4|].
  split.
  { intros Hd. split.
    - destruct A as [[_ ->]|(_ & ? & _ & _ & _ & ?)]; [done|].
      by eapply appended_full_texts.
    - destruct B as [(_ & _ & ->)|(_ & _ & ? & _ & _ & _ & ?)]; [done|].
      by eapply appended_full_texts. }
  split.
  - intros Hch. destruct A as [[_ ?]|(_ & _ & _ & _ & _ & Happ)]; [done|].
    destruct (app0_save_unchanged_or_appended web' now' link_ r0.1.2 r0.2)
      as [[? ?]|(_ & _ & Hnot & _)]; [done|].
    exfalso. apply Hnot. rewrite (appended_stored_links _ _ _ _ Happ).
    apply elem_of_app. right. by apply list_elem_of_singleton.
  - intros Hch. destruct B as [(_ & _ & ?)|(_ & _ & _ & _ & Hnews & Hidx & _)]; [done|].
    pose proof (t1_save_cases web' now' token' link_ r1.1.2 r1.2) as (_ & C2 & _).
    apply C2.
    + rewrite Hnews. apply t1_save_persists_iff in Hch. tauto.
    + rewrite Hidx. by apply elem_of_union_l, elem_of_singleton.
Qed.

(** C5 as stated fails in the web service: the second archive of a link
    persists nothing, but it is answered with the plain redirect the first,
    successful, archive got, and carries no reason. *)
Lemma duplicate_archive_gives_no_reason_counterexample :
  cached "l1" (App0.news Sample2.refreshed)
  /\ Sample3.first_save.1.1 = App0.RedirectHome
  /\ stored_links Sample3.first_save.2 = ["l1"]
  /\ Sample3.second_save.1.1 = App0.RedirectHome
  /\ Sample3.second_save.2 = Sample3.first_save.2
  /\ ~ gives_reason Sample3.second_save.1.1.
Proof.
  split.
  { unfold cached. apply list_elem_of_In. vm_compute. tauto. }
  split; [by vm_compute|]. split; [by vm_compute|]. split; [by vm_compute|].
  split; [by vm_compute|].
  intros [n Hn]. vm_compute in Hn. discriminate.
Qed.

(** ** The index of saved links *)

Lemma filter_Forall {A} (P : A -> Prop) `{!forall x, Decision (P x)} (l : list A) :
  Forall P l -> filter P l = l.
Proof.
  induction 1 as [|x l Hx Hl IH]; [done|].
  rewrite filter_cons. case_decide; [by rewrite IH|done].
Qed.

Lemma truthy_links (d : Disk) :
  filter (fun s => Py.truthy s = true) (sa_sourceUrl <$> stored d) = nonempty_links d.
Proof.
  unfold nonempty_links, stored_links. apply list_filter_iff.
  intros s. apply truthy_spec.
Qed.

Lemma app0_startup_index cat uuid4 web hash db d now u st st' :
  App0.startup_event cat uuid4 web hash db d now u st = Some st' ->
  App0.saved_links st' = list_to_set (nonempty_links d).
Proof.
  unfold App0.startup_event.
  destruct (App0.load_selected_feeds db) as [feeds|]; [|done]. simpl.
  intros [= <-]. unfold App0.load_saved_articles. fold (stored d).
  rewrite truthy_links. by destruct (App0.news st).
Qed.

Lemma t1_init_index max_items_ db d :
  T1.saved_links (T1.init max_items_ db d) = list_to_set (nonempty_links d).
Proof.
  unfold T1.init, T1.load_saved_links.
  pose proof (truthy_links d) as Ht. unfold nonempty_links, stored_links, stored in *.
  destruct (articles_file d) as [l|]; simpl in *; [by rewrite Ht|done].
Qed.

Lemma index_covers_start (saved : gset string) (d : Disk) :
  saved = list_to_set (nonempty_links d) -> index_covers_store saved d.
Proof.
  intros ->. unfold nonempty_links. split.
  - intros l Hl%elem_of_list_to_set. by apply list_elem_of_filter in Hl as [_ Hl].
  - intros l Hl Hne. apply elem_of_list_to_set, list_elem_of_filter. by split.
Qed.

Lemma index_covers_appended saved d d' link_ text :
  index_covers_store saved d -> appended d d' link_ text ->
  index_covers_store ({[link_]} ∪ saved) d'.
Proof.
  intros [Hin Hout] Happ. unfold index_covers_store.
  rewrite (appended_stored_links _ _ _ _ Happ). split.
  - intros l [->%elem_of_singleton|Hl]%elem_of_union; apply elem_of_app.
    + right. by left.
    + left. by apply Hin.
  - intros l [Hl| ->%list_elem_of_singleton]%elem_of_app Hne.
    + apply elem_of_union_r. by apply Hout.
    + by apply elem_of_union_l, elem_of_singleton.
Qed.

Lemma index_covers_writable saved file w w' :
  index_covers_store saved (mkDisk file w) -> index_covers_store saved (mkDisk file w').
Proof. done. Qed.

(** Without a blank link in the file, the index is the set of the links. *)
Lemma index_covers_matches saved d :
  index_covers_store saved d -> "" ∉ stored_links d -> index_matches_store saved d.
Proof.
  intros [Hin Hout] Hblank. unfold index_matches_store.
  apply leibniz_equiv. intros l. rewrite elem_of_list_to_set. split; [apply Hin|].
  intros Hl. apply Hout; [done|]. by intros ->.
Qed.

Lemma app0_fetch_keeps_index cat uuid4 web hash db now u st :
  App0.saved_links (App0.fetch_news cat uuid4 web hash db now u st).1.2
  = App0.saved_links st.
Proof.
  unfold App0.fetch_news.
  destruct (match App0.last_fetch_time st with Some _ => _ | None => _ end); [done|].
  by destruct (App0.load_selected_feeds db).
Qed.

Lemma t1_fetch_keeps_index cat clock web hash selected tick self :
  T1.saved_links (T1.fetch_news cat clock web hash selected tick self).1.2
  = T1.saved_links self.
Proof.
  unfold T1.fetch_news.
  by destruct (default (Py.set_iter hash (T1.selected_feeds self)) selected).
Qed.

Lemma app0_step_index s req :
  index_covers_store (App0.saved_links s.1) s.2 ->
  index_covers_store (App0.saved_links (Run0.step s req).1) (Run0.step s req).2.
Proof.
  destruct s as [st [file w0]]. intros Hinv.
  destruct req as [cat uuid4 web hash db now u|web now link_ w|
                   |cat uuid4 web hash rows now u];
    cbn [Run0.step fst snd articles_file] in *.
  - by rewrite app0_fetch_keeps_index.
  - destruct (app0_save_unchanged_or_appended web now link_ st (mkDisk file w))
      as [[-> ->]|(_ & _ & _ & _ & -> & Happ)]; [done|].
    eapply index_covers_appended; [|exact Happ]. done.
  - done.
  - destruct (App0.startup_event cat uuid4 web hash (Some rows) (mkDisk file w0) now u
                                 App0.initial_state) as [st'|] eqn:Hst; [|done].
    cbn [default]. by eapply index_covers_start, app0_startup_index.
Qed.

Lemma t1_step_index s req :
  index_covers_store (T1.saved_links s.1) s.2 ->
  index_covers_store (T1.saved_links (Run1.step s req).1) (Run1.step s req).2.
Proof.
  destruct s as [self [file w0]]. intros Hinv.
  destruct req as [cat clock web hash selected tick|web now token link_ w|item| |m db];
    simpl.
  - by rewrite t1_fetch_keeps_index.
  - destruct (t1_save_unchanged_or_appended web now token link_ self (mkDisk file w))
      as [(_ & -> & ->)|(_ & _ & _ & _ & _ & -> & Happ)]; [done|].
    eapply index_covers_appended; [|exact Happ]. done.
  - done.
  - done.
  - apply index_covers_start, t1_init_index.
Qed.

Lemma run_preserves {S R} (P : S -> Prop) (step : S -> R -> S) (reqs : list R) (s : S) :
  (forall s req, P s -> P (step s req)) -> P s -> P (foldl step s reqs).
Proof.
  intros Hstep. revert s.
  induction reqs as [|req reqs IH]; intros s Hs; simpl; [exact Hs|].
  by apply IH, Hstep.
Qed.

Lemma app0_save_index_changes_with_file web now link_ st d :
  index_covers_store (App0.saved_links st) d ->
  let r := App0.save_article_endpoint web now link_ st d in
  (App0.saved_links r.1.2 <> App0.saved_links st <-> r.2 <> d)
  /\ (r.2 <> d -> (link_ ∉ App0.saved_links st)
                  /\ App0.saved_links r.1.2 = {[link_]} ∪ App0.saved_links st
                  /\ appended d r.2 link_ (page_text web link_)).
Proof.
  intros [Hinv _] r. unfold r.
  destruct (app0_save_unchanged_or_appended web now link_ st d)
    as [[-> ->]|(_ & _ & Hnew & _ & Hidx & Happ)]; [tauto|].
  assert (Hnot : link_ ∉ App0.saved_links st) by (intros Hin; by apply Hnew, Hinv).
  split; [|done]. split; intros _.
  - by eapply appended_changes.
  - rewrite Hidx. intros Heq. apply Hnot. rewrite <-Heq.
    by apply elem_of_union_l, elem_of_singleton.
Qed.

Lemma t1_save_index_changes_with_file web now token link_ self d :
  index_covers_store (T1.saved_links self) d ->
  let r := T1.save_article web now token link_ self d in
  (T1.saved_links r.1.2 <> T1.saved_links self <-> r.2 <> d)
  /\ (r.2 <> d -> (link_ ∉ T1.saved_links self)
                  /\ T1.saved_links r.1.2 = {[link_]} ∪ T1.saved_links self
                  /\ appended d r.2 link_ (page_text web link_)).
Proof.
  intros [Hinv _] r. unfold r.
  destruct (t1_save_unchanged_or_appended web now token link_ self d)
    as [(_ & -> & ->)|(_ & _ & _ & Hnew & _ & Hidx & Happ)]; [tauto|].
  assert (Hnot : link_ ∉ T1.saved_links self) by (intros Hin; by apply Hnew, Hinv).
  split; [|done]. split; intros _.
  - by eapply appended_changes.
  - rewrite Hidx. intros Heq. apply Hnot. rewrite <-Heq.
    by apply elem_of_union_l, elem_of_singleton.
Qed.

(** C10, as the code has it.  When the process starts, the index of saved
    links is built from the links of the records that are not empty: a
    record with a blank or missing link is skipped.  From then on, through
    every sequence of refreshes, archive requests, changes of the viewed set
    and restarts, the index holds links of records only and holds every
    link of a record that is not empty; it is the set of the links of the
    records whenever no record has a blank link.  An archive request
    changes the index exactly when it changes the file, and then the link
    is new to the index and its record is the one appended.  For the web
    service and for [NewsFetcher]. *)
Theorem saved_links_index_covers_store
    (cat : Catalog) (uuid4 : nat -> string) (web web' : Web) (hash : string -> Z)
    (db db1 : option (list string)) (now now' : Z) (u : nat)
    (st0 : App0.AppState) (max_items_ : Z) (d : Disk)
    (reqs0 : list Run0.Request) (reqs1 : list Run1.Request)
    (token link_ : string) :
  App0.startup_event cat uuid4 web hash db d now u App0.initial_state = Some st0 ->
  let s0 := Run0.run (st0, d) reqs0 in
  let s1 := Run1.run (T1.init max_items_ db1 d, d) reqs1 in
  let r0 := App0.save_article_endpoint web' now' link_ s0.1 s0.2 in
  let r1 := T1.save_article web' now' token link_ s1.1 s1.2 in
  App0.saved_links st0 = list_to_set (nonempty_links d)
  /\ T1.saved_links (T1.init max_items_ db1 d) = list_to_set (nonempty_links d)
  /\ index_covers_store (App0.saved_links s0.1) s0.2
  /\ index_covers_store (T1.saved_links s1.1) s1.2
  /\ ("" ∉ stored_links s0.2 -> index_matches_store (App0.saved_links s0.1) s0.2)
  /\ ("" ∉ stored_links s1.2 -> index_matches_store (T1.saved_links s1.1) s1.2)
  /\ (App0.saved_links r0.1.2 <> App0.saved_links s0.1 <-> r0.2 <> s0.2)
  /\ (r0.2 <> s0.2 -> (link_ ∉ App0.saved_links s0.1)
                      /\ App0.saved_links r0.1.2 = {[link_]} ∪ App0.saved_links s0.1
                      /\ appended s0.2 r0.2 link_ (page_text web' link_))
  /\ (T1.saved_links r1.1.2 <> T1.saved_links s1.1 <-> r1.2 <> s1.2)
  /\ (r1.2 <> s1.2 -> (link_ ∉ T1.saved_links s1.1)
                      /\ T1.saved_links r1.1.2 = {[link_]} ∪ T1.saved_links s1.1
                      /\ appended s1.2 r1.2 link_ (page_text web' link_)).
Proof.
  intros Hstart s0 s1 r0 r1.
  pose proof (app0_startup_index _ _ _ _ _ _ _ _ _ _ Hstart) as Hst0.
  pose proof (t1_init_index max_items_ db1 d) as Hst1.
  assert (H0 : index_covers_store (App0.saved_links s0.1) s0.2).
  { unfold s0, Run0.run.
    apply (run_preserves (fun s => index_covers_store (App0.saved_links s.1) s.2));
      [intros s req; apply app0_step_index|].
    by apply index_covers_start. }
  assert (H1 : index_covers_store (T1.saved_links s1.1) s1.2).
  { unfold s1, Run1.run.
    apply (run_preserves (fun s => index_covers_store (T1.saved_links s.1) s.2));
      [intros s req; apply t1_step_index|].
    by apply index_covers_start. }
  split; [exact Hst0|]. split; [exact Hst1|].
  split; [exact H0|]. split; [exact H1|].
  split; [by apply index_covers_matches|]. split; [by apply index_covers_matches|].
  destruct (app0_save_index_changes_with_file web' now' link_ s0.1 s0.2 H0) as [? ?].
  destruct (t1_save_index_changes_with_file web' now' token link_ s1.1 s1.2 H1) as [? ?].
  done.
Qed.

Lemma saved_links_index_covers_store_witness :
  Sample4.started = Some (default App0.initial_state Sample4.started)
  /\ index_covers_store
       (App0.saved_links
          (Run0.run (default App0.initial_state Sample4.started, Sample4.disk)
                    Sample4.requests).1)
       (Run0.run (default App0.initial_state Sample4.started, Sample4.disk)
                 Sample4.requests).2.
Proof.
  assert (H4 : Sample4.started = Some (default App0.initial_state Sample4.started))
    by reflexivity.
  split; [exact H4|].
  exact (proj1 (proj2 (proj2 (saved_links_index_covers_store
                  Sample.cat Sample.uuid4 Sample.web Sample.web Sample.hash
                  (Some ["a"]) None 0 9 0
                  (default App0.initial_state Sample4.started) 500 Sample4.disk
                  Sample4.requests [] "t" "l1" H4)))).
Defined.

(** C10 as stated fails: on a file with a record whose link is blank, the
    index built at the start holds the link ["l1"] alone, and so is not the
    set of the links of the records. *)
Lemma blank_link_record_counterexample :
  stored_links Sample6.disk = [""; "l1"]
  /\ T1.saved_links (T1.init 500 None Sample6.disk) = {["l1"]}
  /\ ~ index_matches_store (T1.saved_links (T1.init 500 None Sample6.disk)) Sample6.disk
  /\ (App0.saved_links
        <$> App0.startup_event Sample.cat Sample.uuid4 Sample.web Sample.hash (Some ["a"])
                               Sample6.disk 0 0 App0.initial_state)
     = Some {["l1"]}.
Proof.
  assert (H1 : T1.saved_links (T1.init 500 None Sample6.disk) = {["l1"]}).
  { rewrite t1_init_index. unfold nonempty_links.
    change (stored_links Sample6.disk) with [""; "l1"].
    rewrite filter_cons, decide_False by (by intros H; apply H).
    rewrite filter_cons, decide_True by discriminate.
    rewrite filter_nil. simpl. by rewrite (right_id_L ∅ (∪)). }
  split; [done|]. split; [exact H1|]. split.
  - unfold index_matches_store. rewrite H1.
    change (stored_links Sample6.disk) with [""; "l1"]. intros Heq.
    assert (Hin : "" ∈ ({["l1"]} : gset string)).
    { rewrite Heq. apply elem_of_list_to_set. by left. }
    by apply elem_of_singleton in Hin.
  - destruct (App0.startup_event Sample.cat Sample.uuid4 Sample.web Sample.hash
                (Some ["a"]) Sample6.disk 0 0 App0.initial_state) as [st'|] eqn:Hst;
      [|by vm_compute in Hst].
    simpl. f_equal. rewrite (app0_startup_index _ _ _ _ _ _ _ _ _ _ Hst).
    unfold nonempty_links. change (stored_links Sample6.disk) with [""; "l1"].
    rewrite filter_cons, decide_False by (by intros H; apply H).
    rewrite filter_cons, decide_True by discriminate.
    rewrite filter_nil. simpl. by rewrite (right_id_L ∅ (∪)).
Qed.

(** ** The guid of an entry *)

Lemma app0_visit_entry_result cat uuid4 feed_id url p entry :
  let p' := App0.visit_entry cat uuid4 feed_id url p entry in
  App0.uuids p' = S (App0.uuids p)
  /\ (App0.news_items p' = App0.news_items p /\ App0.seen_links p' = App0.seen_links p
      \/ exists item,
           App0.news_items p' = App0.news_items p ++ [item]
           /\ guid item = app0_guid uuid4 p entry
           /\ link item = default "#" (e_link entry)
           /\ App0.seen_links p' = {[link item]} ∪ App0.seen_links p).
Proof.
  unfold App0.visit_entry, app0_guid.
  destruct (_ || _); simpl; [by split; [|left]|].
  split; [done|]. right. eexists. split; [reflexivity|]. simpl.
  split; [|done]. by destruct (e_id entry), (e_link entry).
Qed.

Lemma app0_visit_entries_uuids cat uuid4 feed_id url p entries :
  App0.uuids (foldl (App0.visit_entry cat uuid4 feed_id url) p entries)
  = (App0.uuids p + length entries)%nat.
Proof.
  revert p. induction entries as [|e es IH]; intros p; simpl; [lia|].
  rewrite IH. destruct (app0_visit_entry_result cat uuid4 feed_id url p e) as [-> _].
  lia.
Qed.

Lemma t1_visit_entry_result cat clock feed_id url p entry :
  let p' := T1.visit_entry cat clock feed_id url p entry in
  (T1.all_items p' = T1.all_items p /\ T1.pass_guids p' = T1.pass_guids p
   \/ exists item,
        T1.all_items p' = T1.all_items p ++ [item]
        /\ guid item = t1_guid entry
        /\ T1.pass_guids p' = {[guid item]} ∪ T1.pass_guids p).
Proof.
  destruct (t1_visit_entry_cases cat clock feed_id url p entry)
    as [_ [(? & ? & _)|(item & _ & ? & ? & _ & _ & _ & ? & _)]]; [by left|].
  right. by exists item.
Qed.

Lemma t1_visit_entries_guids cat clock feed_id url p entries :
  T1.pass_guids p
  ⊆ T1.pass_guids (foldl (T1.visit_entry cat clock feed_id url) p entries).
Proof.
  revert p. induction entries as [|e es IH]; intros p; simpl; [done|].
  etransitivity; [|apply IH].
  destruct (t1_visit_entry_result cat clock feed_id url p e)
    as [[_ ->]|(item & _ & _ & ->)]; [done|apply union_subseteq_r].
Qed.

Lemma t1_anonymous_dropped cat clock feed_id url p entry :
  anonymous entry -> "#" ∈ T1.pass_guids p ->
  T1.all_items (T1.visit_entry cat clock feed_id url p entry) = T1.all_items p.
Proof.
  intros (Hid & Hguid & Hlink) Hseen.
  destruct (t1_visit_entry_cases cat clock feed_id url p entry)
    as [_ [(? & _)|(item & _ & _ & _ & _ & Hnew & _ & Hg & _)]]; [done|].
  destruct Hnew. rewrite Hg. unfold t1_guid. by rewrite Hid, Hguid, Hlink.
Qed.

Lemma sample_uuid4_length (n : nat) : String.length (Sample.uuid4 n) = n.
Proof. induction n as [|n IH]; simpl; congruence. Qed.

Lemma sample_uuid4_inj (i j : nat) : Sample.uuid4 i = Sample.uuid4 j -> i = j.
Proof.
  intros H. apply (f_equal String.length) in H. by rewrite !sample_uuid4_length in H.
Qed.

(** C9, as the code has it.  The web service gives an entry the id of the
    feed, else the link, else a token drawn from the generator; every entry
    visited draws one token, so two entries without id and link get
    different guids when the generator never repeats itself.
    [NewsFetcher] gives an entry its id, else its guid attribute, else its
    link, else ["#"]: it draws no token, two entries without any of these
    share the guid ["#"], and once the first is kept the second is
    dropped. *)
Theorem guid_fallback_rule
    (cat : Catalog) (uuid4 : nat -> string) (clock : nat -> Z) (feed_id url : string)
    (p : App0.Pass) (q : T1.Pass) (e1 e2 : Entry) (es : list Entry) :
  (forall i j, uuid4 i = uuid4 j -> i = j) ->
  let p1 := App0.visit_entry cat uuid4 feed_id url p e1 in
  let p2 := foldl (App0.visit_entry cat uuid4 feed_id url) p1 es in
  let q1 := T1.visit_entry cat clock feed_id url q e1 in
  let q2 := foldl (T1.visit_entry cat clock feed_id url) q1 es in
  (App0.news_items p1 = App0.news_items p
   \/ exists item, App0.news_items p1 = App0.news_items p ++ [item]
                   /\ guid item = app0_guid uuid4 p e1)
  /\ (anonymous e1 -> anonymous e2 -> app0_guid uuid4 p e1 <> app0_guid uuid4 p2 e2)
  /\ (T1.all_items q1 = T1.all_items q
      \/ exists item, T1.all_items q1 = T1.all_items q ++ [item]
                      /\ guid item = t1_guid e1)
  /\ (anonymous e1 -> anonymous e2 -> t1_guid e1 = "#" /\ t1_guid e2 = "#")
  /\ (anonymous e1 -> anonymous e2 ->
      T1.all_items q1 = T1.all_items q
      \/ T1.all_items (T1.visit_entry cat clock feed_id url q2 e2) = T1.all_items q2).
Proof.
  intros Hinj p1 p2 q1 q2.
  pose proof (app0_visit_entry_result cat uuid4 feed_id url p e1) as [Hu Hp1].
  pose proof (t1_visit_entry_result cat clock feed_id url q e1) as Hq1.
  fold p1 in Hu, Hp1. fold q1 in Hq1.
  split.
  { destruct Hp1 as [[? _]|(item & ? & ? & _)]; [by left|right; eauto]. }
  split.
  { intros (Hid1 & _ & Hl1) (Hid2 & _ & Hl2). unfold app0_guid.
    rewrite Hid1, Hl1, Hid2, Hl2. intros Heq%Hinj.
    unfold p2 in Heq. rewrite app0_visit_entries_uuids, Hu in Heq. lia. }
  split.
  { destruct Hq1 as [[? _]|(item & ? & ? & _)]; [by left|right; eauto]. }
  split.
  { intros (Hid1 & Hg1 & Hl1) (Hid2 & Hg2 & Hl2). unfold t1_guid.
    by rewrite Hid1, Hg1, Hl1, Hid2, Hg2, Hl2. }
  intros Ha1 Ha2. destruct Hq1 as [[? _]|(item & _ & Hguid & Hseen)]; [by left|].
  right. apply t1_anonymous_dropped; [done|].
  apply (t1_visit_entries_guids cat clock feed_id url q1 es).
  rewrite Hseen, Hguid. destruct Ha1 as (Hid1 & Hg1 & Hl1).
  unfold t1_guid. rewrite Hid1, Hg1, Hl1.
  by apply elem_of_union_l, elem_of_singleton.
Qed.

Lemma guid_fallback_rule_witness :
  (forall i j, Sample.uuid4 i = Sample.uuid4 j -> i = j)
  /\ app0_guid Sample.uuid4 (App0.mkPass [] ∅ ∅ 1 []) Sample.bare
     <> app0_guid Sample.uuid4
          (App0.visit_entry Sample.cat Sample.uuid4 "a" "http://a"
                            (App0.mkPass [] ∅ ∅ 1 []) Sample.bare)
          Sample.bare.
Proof.
  split; [exact sample_uuid4_inj|].
  apply (proj1 (proj2 (guid_fallback_rule
                         Sample.cat Sample.uuid4 Sample.clock "a" "http://a"
                         (App0.mkPass [] ∅ ∅ 1 []) (T1.mkPass [] ∅ ∅ 0 [])
                         Sample.bare Sample.bare [] sample_uuid4_inj)));
    repeat split.
Defined.

(** C9 as stated fails in [NewsFetcher]: two entries without id, guid
    attribute and link both get the guid ["#"], and only the first is
    kept. *)
Lemma anonymous_entries_counterexample :
  anonymous Sample.bare
  /\ feed_of Sample5.web "http://a" = Some [Sample.bare; Sample.bare]
  /\ t1_guid Sample.bare = "#"
  /\ guid <$> (T1.fetch_news Sample.cat Sample.clock Sample5.web Sample.hash
                             (Some ["a"]) 0 Sample.fetcher).1.1 = ["#"].
Proof.
  split; [done|]. split; [done|]. split; [done|]. by vm_compute.
Qed.

(** The web service on the same feed: the two entries get different guids,
    yet both get the link ["#"], and the test on the links refuses the
    second. *)
Lemma app0_linkless_entries_example :
  feed_of Sample5.web "http://a" = Some [Sample.bare; Sample.bare]
  /\ app0_guid Sample.uuid4 (App0.mkPass [] ∅ ∅ 1 []) Sample.bare
     <> app0_guid Sample.uuid4 (App0.mkPass [] ∅ ∅ 2 []) Sample.bare
  /\ link <$> App0.fetch_rss_feeds Sample.cat Sample.uuid4 Sample5.web ["a"] 1 = ["#"].
Proof.
  split; [done|]. split; [by vm_compute|]. by vm_compute.
Qed.

(** * Further properties *)

(** ** What a pass takes from each feed *)

Lemma length_from_source_app f (l k : list Item) :
  length (from_source f (l ++ k)) = (length (from_source f l) + length (from_source f k))%nat.
Proof. unfold from_source. by rewrite filter_app, length_app. Qed.

Lemma length_from_source_perm f (l k : list Item) :
  l ≡ₚ k -> length (from_source f l) = length (from_source f k).
Proof. intros H. unfold from_source. by rewrite H. Qed.

Lemma length_from_source_take f n (l : list Item) :
  (length (from_source f (take n l)) <= length (from_source f l))%nat.
Proof.
  rewrite <-(take_drop n l) at 2. rewrite length_from_source_app. lia.
Qed.

Lemma app0_visit_entry_from_source cat uuid4 feed_id url p entry f :
  (length (from_source f (App0.news_items (App0.visit_entry cat uuid4 feed_id url p entry)))
   <= length (from_source f (App0.news_items p))
      + (if decide (f = feed_id) then 1 else 0))%nat.
Proof.
  unfold App0.visit_entry. destruct (_ || _); simpl; [lia|].
  rewrite length_from_source_app. unfold from_source at 2.
  rewrite filter_cons, filter_nil. simpl.
  destruct (decide (feed_id = f)), (decide (f = feed_id)); simpl; try lia; congruence.
Qed.

Lemma app0_visit_entries_from_source cat uuid4 feed_id url p entries f :
  (length (from_source f (App0.news_items
                            (foldl (App0.visit_entry cat uuid4 feed_id url) p entries)))
   <= length (from_source f (App0.news_items p))
      + (if decide (f = feed_id) then length entries else 0))%nat.
Proof.
  revert p. induction entries as [|e es IH]; intros p; simpl.
  - destruct (decide (f = feed_id)); lia.
  - etransitivity; [apply IH|].
    pose proof (app0_visit_entry_from_source cat uuid4 feed_id url p e f).
    destruct (decide (f = feed_id)); lia.
Qed.

Lemma app0_merge_pass_from_source cat uuid4 web feeds u f :
  (length (from_source f (App0.news_items (App0.merge_pass cat uuid4 web feeds u)))
   <= 20 * length (filter (fun g => g = f) feeds))%nat.
Proof.
  unfold App0.merge_pass.
  assert (H : forall p,
             (length (from_source f (App0.news_items (foldl (App0.visit_feed cat uuid4 web) p feeds)))
              <= length (from_source f (App0.news_items p))
                 + 20 * length (filter (fun g => g = f) feeds))%nat).
  { induction feeds as [|g gs IH]; intros p; simpl; [lia|].
    etransitivity; [apply IH|]. rewrite filter_cons.
    assert (length (from_source f (App0.news_items (App0.visit_feed cat uuid4 web p g)))
            <= length (from_source f (App0.news_items p))
               + (if decide (g = f) then 20 else 0))%nat as Hg.
    { unfold App0.visit_feed.
      destruct (ALL_FEEDS cat !! g) as [url|]; [|destruct (decide (g = f)); lia].
      destruct (feed_of web url) as [entries|]; simpl; [|destruct (decide (g = f)); lia].
      etransitivity; [apply app0_visit_entries_from_source|]. simpl.
      pose proof (length_take entries 20).
      destruct (decide (f = g)), (decide (g = f)); try congruence; lia. }
    destruct (decide (g = f)); simpl in *; lia. }
  etransitivity; [apply H|]. simpl. lia.
Qed.

Lemma t1_visit_entry_from_source cat clock feed_id url p entry f :
  (length (from_source f (T1.all_items (T1.visit_entry cat clock feed_id url p entry)))
   <= length (from_source f (T1.all_items p))
      + (if decide (f = feed_id) then 1 else 0))%nat.
Proof.
  destruct (t1_visit_entry_cases cat clock feed_id url p entry)
    as [_ [(-> & _)|(item & _ & -> & _ & _ & _ & _ & _ & _ & _ & _ & Hid & _)]]; [lia|].
  rewrite length_from_source_app. unfold from_source at 2.
  rewrite filter_cons, filter_nil, Hid.
  destruct (decide (feed_id = f)), (decide (f = feed_id)); simpl; try lia; congruence.
Qed.

Lemma t1_visit_entries_from_source cat clock feed_id url p entries f :
  (length (from_source f (T1.all_items
                            (foldl (T1.visit_entry cat clock feed_id url) p entries)))
   <= length (from_source f (T1.all_items p))
      + (if decide (f = feed_id) then length entries else 0))%nat.
Proof.
  revert p. induction entries as [|e es IH]; intros p; simpl.
  - destruct (decide (f = feed_id)); lia.
  - etransitivity; [apply IH|].
    pose proof (t1_visit_entry_from_source cat clock feed_id url p e f).
    destruct (decide (f = feed_id)); lia.
Qed.

Lemma t1_merge_pass_from_source cat clock web feeds tick f :
  (length (from_source f (T1.all_items (T1.merge_pass cat clock web feeds tick)))
   <= 20 * length (filter (fun g => g = f) feeds))%nat.
Proof.
  unfold T1.merge_pass.
  assert (H : forall p,
             (length (from_source f (T1.all_items (foldl (T1.visit_feed cat clock web) p feeds)))
              <= length (from_source f (T1.all_items p))
                 + 20 * length (filter (fun g => g = f) feeds))%nat).
  { induction feeds as [|g gs IH]; intros p; simpl; [lia|].
    etransitivity; [apply IH|]. rewrite filter_cons.
    assert (length (from_source f (T1.all_items (T1.visit_feed cat clock web p g)))
            <= length (from_source f (T1.all_items p))
               + (if decide (g = f) then 20 else 0))%nat as Hg.
    { unfold T1.visit_feed.
      destruct (ALL_FEEDS cat !! g) as [url|]; [|destruct (decide (g = f)); lia].
      destruct (feed_of web url) as [entries|]; simpl; [|destruct (decide (g = f)); lia].
      etransitivity; [apply t1_visit_entries_from_source|]. simpl.
      pose proof (length_take entries 20).
      destruct (decide (f = g)), (decide (g = f)); try congruence; lia. }
    destruct (decide (g = f)); simpl in *; lia. }
  etransitivity; [apply H|]. simpl. lia.
Qed.

(** X1.  A pass takes at most 20 items from a feed each time the feed is
    listed in the selection, whatever the feed sends: so at most 20 items of
    the result name a source that is selected once, and none names a source
    that is not selected. *)
Theorem pass_takes_at_most_20_per_feed
    (cat : Catalog) (uuid4 : nat -> string) (clock : nat -> Z) (web : Web)
    (hash : string -> Z)
    (feeds : list string) (u : nat) (selected : option (list string)) (tick : nat)
    (self : T1.NewsFetcher) (f : string) :
  (length (from_source f (App0.fetch_rss_feeds cat uuid4 web feeds u))
   <= 20 * length (filter (fun g => g = f) feeds))%nat
  /\ (length (from_source f (T1.fetch_news cat clock web hash selected tick self).1.1)
      <= 20 * length (filter (fun g => g = f)
                        (default (Py.set_iter hash (T1.selected_feeds self))
                                 selected)))%nat.
Proof.
  split.
  - unfold App0.fetch_rss_feeds.
    etransitivity; [apply length_from_source_take|].
    rewrite (length_from_source_perm _ _ _ (sorted_perm _ _ _ _)).
    apply app0_merge_pass_from_source.
  - unfold T1.fetch_news.
    destruct (default (Py.set_iter hash (T1.selected_feeds self)) selected)
      as [|g gs] eqn:E; [simpl; lia|].
    simpl fst. rewrite slice_from_0_take.
    etransitivity; [apply length_from_source_take|].
    rewrite (length_from_source_perm _ _ _ (sort_by_date_perm _ _ _)).
    apply t1_merge_pass_from_source.
Qed.

(** ** Feeds that are unknown or do not answer *)

(** X2.  A selected feed that is not in the catalog, or that does not
    answer, changes nothing in the result: the items are those of the pass
    over the answering feeds alone.  Every selected feed of the catalog is
    asked once for each time it is listed, in the order in which the pass
    visits the selection, and no other address is.  For the web service and
    for [NewsFetcher]. *)
Theorem silent_feeds_change_nothing
    (cat : Catalog) (uuid4 : nat -> string) (clock : nat -> Z) (web : Web)
    (hash : string -> Z)
    (feeds : list string) (u tick : nat) (self : T1.NewsFetcher) :
  App0.fetch_rss_feeds cat uuid4 web feeds u
  = App0.fetch_rss_feeds cat uuid4 web
      (filter (fun f => answers cat web f = true) feeds) u
  /\ App0.requested (App0.merge_pass cat uuid4 web feeds u)
     = omap (fun f => ALL_FEEDS cat !! f) feeds
  /\ (T1.fetch_news cat clock web hash (Some feeds) tick self).1.1
     = (T1.fetch_news cat clock web hash
          (Some (filter (fun f => answers cat web f = true) feeds)) tick self).1.1
  /\ (T1.fetch_news cat clock web hash (Some feeds) tick self).2
     = omap (fun f => ALL_FEEDS cat !! f) feeds
  /\ T1.requested (T1.merge_pass cat clock web feeds tick)
     = omap (fun f => ALL_FEEDS cat !! f) feeds.
Proof.
  split; [|split; [|split; [|split]]].
  - apply app0_fetch_rss_feeds_answering.
  - unfold App0.merge_pass. by rewrite app0_merge_requested.
  - pose proof (t1_merge_pass_answering cat clock web feeds tick) as H.
    unfold t1_items_state in H. injection H as Hitems _ _ Hticks.
    rewrite !t1_fetch_news_returns. by rewrite Hitems, Hticks.
  - unfold T1.fetch_news. simpl default. destruct feeds as [|f fs]; [done|].
    cbn [snd]. unfold T1.merge_pass. by rewrite t1_merge_requested.
  - unfold T1.merge_pass. by rewrite t1_merge_requested.
Qed.

(** ** Where an item comes from *)

Lemma app0_visit_entries_attributed cat uuid4 web feeds f url entries0 p entries :
  f ∈ feeds -> ALL_FEEDS cat !! f = Some url -> feed_of web url = Some entries0 ->
  Forall (attributed cat web feeds) (App0.news_items p) ->
  Forall (attributed cat web feeds)
         (App0.news_items (foldl (App0.visit_entry cat uuid4 f url) p entries)).
Proof.
  intros Hf Hurl Hweb. revert p.
  induction entries as [|e es IH]; intros p Hp; simpl; [done|].
  apply IH. unfold App0.visit_entry. destruct (_ || _); simpl; [done|].
  apply Forall_app. split; [done|]. repeat constructor; simpl; by rewrite ?Hweb.
Qed.

Lemma app0_merge_attributed cat uuid4 web feeds fs p :
  (forall f, f ∈ fs -> f ∈ feeds) ->
  Forall (attributed cat web feeds) (App0.news_items p) ->
  Forall (attributed cat web feeds)
         (App0.news_items (foldl (App0.visit_feed cat uuid4 web) p fs)).
Proof.
  revert p. induction fs as [|f fs IH]; intros p Hfs Hp; simpl; [done|].
  apply IH; [intros g Hg; apply Hfs; by right|].
  unfold App0.visit_feed.
  destruct (ALL_FEEDS cat !! f) as [url|] eqn:Hurl; [|done].
  destruct (feed_of web url) as [entries|] eqn:Hweb; [|done].
  eapply app0_visit_entries_attributed; [apply Hfs; by left|done|done|done].
Qed.

Lemma t1_visit_entries_attributed cat clock web feeds f url entries0 p entries :
  f ∈ feeds -> ALL_FEEDS cat !! f = Some url -> feed_of web url = Some entries0 ->
  Forall (attributed cat web feeds) (T1.all_items p) ->
  Forall (attributed cat web feeds)
         (T1.all_items (foldl (T1.visit_entry cat clock f url) p entries)).
Proof.
  intros Hf Hurl Hweb. revert p.
  induction entries as [|e es IH]; intros p Hp; simpl; [done|].
  apply IH.
  destruct (t1_visit_entry_cases cat clock f url p e)
    as [_ [(-> & _)|(item & _ & -> & _ & _ & _ & _ & _ & _ & _ & _ & Hid & Hu & Hn & _)]];
    [done|].
  apply Forall_app. split; [done|]. apply Forall_singleton.
  unfold attributed. rewrite Hid, Hu, Hn, Hweb. eauto.
Qed.

Lemma t1_merge_attributed cat clock web feeds fs p :
  (forall f, f ∈ fs -> f ∈ feeds) ->
  Forall (attributed cat web feeds) (T1.all_items p) ->
  Forall (attributed cat web feeds)
         (T1.all_items (foldl (T1.visit_feed cat clock web) p fs)).
Proof.
  revert p. induction fs as [|f fs IH]; intros p Hfs Hp; simpl; [done|].
  apply IH; [intros g Hg; apply Hfs; by right|].
  unfold T1.visit_feed.
  destruct (ALL_FEEDS cat !! f) as [url|] eqn:Hurl; [|done].
  destruct (feed_of web url) as [entries|] eqn:Hweb; [|done].
  eapply t1_visit_entries_attributed; [apply Hfs; by left|done|done|done].
Qed.

(** X3.  Every item of the result of a pass names a feed that was selected,
    is in the catalog and answered; its [sourceUrl] is the address the
    catalog gives for that feed and its [sourceName] the display name. *)
Theorem items_name_their_feed
    (cat : Catalog) (uuid4 : nat -> string) (clock : nat -> Z) (web : Web)
    (hash : string -> Z)
    (feeds : list string) (u tick : nat) (self : T1.NewsFetcher) :
  Forall (attributed cat web feeds) (App0.fetch_rss_feeds cat uuid4 web feeds u)
  /\ Forall (attributed cat web feeds)
            (T1.fetch_news cat clock web hash (Some feeds) tick self).1.1.
Proof.
  split.
  - unfold App0.fetch_rss_feeds. apply Forall_take.
    rewrite sorted_perm. by apply app0_merge_attributed.
  - rewrite t1_fetch_news_returns, slice_from_0_take. apply Forall_take.
    rewrite sort_by_date_perm. by apply t1_merge_attributed.
Qed.

(** ** Start-up and the refresh gate *)

(** X4.  When the service starts with an empty cache it loads the feeds and
    stamps the time of the start, so a refresh asked less than 5 minutes
    later is refused, also when the start-up load brought nothing.  When the
    cache holds items, the start-up neither reloads it nor changes the time
    of the last refresh.  The viewed set is left alone in both cases. *)
Theorem startup_closes_the_gate
    (cat cat' : Catalog) (uuid4 uuid4' : nat -> string) (web web' : Web)
    (hash hash' : string -> Z)
    (db db' : option (list string)) (d : Disk) (now now' : Z) (u u' : nat)
    (st st' : App0.AppState) :
  App0.startup_event cat uuid4 web hash db d now u st = Some st' ->
  App0.seen_news st' = App0.seen_news st
  /\ (App0.news st = [] ->
      (exists selected_feeds,
          App0.load_selected_feeds db = Some selected_feeds
          /\ App0.news st'
             = App0.fetch_rss_feeds cat uuid4 web
                 (Py.set_iter hash selected_feeds) u)
      /\ App0.last_fetch_time st' = Some now
      /\ (now' - now < App0.CACHE_DURATION_MINUTES * 60000000 ->
          App0.fetch_news cat' uuid4' web' hash' db' now' u' st'
          = (App0.RedirectNotify
               (App0.WaitMinutes (App0.CACHE_DURATION_MINUTES - (now' - now) / 60000000)),
             st', [])))
  /\ (App0.news st <> [] ->
      App0.news st' = App0.news st
      /\ App0.last_fetch_time st' = App0.last_fetch_time st).
Proof.
  unfold App0.startup_event.
  destruct (App0.load_selected_feeds db) as [feeds|]; [|done]. simpl.
  intros [= <-]. split; [by destruct (App0.news st)|]. split.
  - intros ->. split; [by exists feeds|]. split; [done|].
    intros Hlt. by apply app0_gate_closed.
  - intros Hne. by destruct (App0.news st).
Qed.

Lemma startup_closes_the_gate_witness :
  Sample4.started = Some (default App0.initial_state Sample4.started)
  /\ App0.seen_news (default App0.initial_state Sample4.started)
     = App0.seen_news App0.initial_state.
Proof.
  assert (H : Sample4.started = Some (default App0.initial_state Sample4.started))
    by reflexivity.
  split; [exact H|].
  exact (proj1 (startup_closes_the_gate
                  Sample.cat Sample.cat Sample.uuid4 Sample.uuid4 Sample.web Sample.web
                  Sample.hash Sample.hash
                  (Some ["a"]) None Sample4.disk 0 1 0 0 App0.initial_state
                  (default App0.initial_state Sample4.started) H)).
Defined.

(** ** The viewed set *)

Lemma app0_step_seen s req :
  App0.seen_news s.1 = ∅ -> App0.seen_news (Run0.step s req).1 = ∅.
Proof.
  destruct s as [st d]. intros Hseen.
  destruct req as [cat uuid4 web hash db now u|web now link_ w|
                   |cat uuid4 web hash rows now u];
    cbn [Run0.step fst snd].
  - unfold App0.fetch_news.
    destruct (match App0.last_fetch_time st with Some _ => _ | None => _ end); [done|].
    by destruct (App0.load_selected_feeds db).
  - destruct (app0_save_unchanged_or_appended web now link_ st
                (mkDisk (articles_file d) w)) as [[-> _]|(_ & _ & _ & _ & _ & _)]; [done|].
    unfold App0.save_article_endpoint.
    destruct (App0.find_article link_ (App0.news st)); [|done].
    destruct (negb _); [done|].
    by destruct (App0.save_article _ _ _) as [[[] ?]|].
  - done.
  - unfold App0.startup_event. simpl. by destruct rows.
Qed.

(** X5.  The web service has no call that adds to the viewed set: from the
    start of the process on, through every sequence of refreshes, archive
    requests, clearings and restarts, the set is empty and the count of new
    items shown by the index is the size of the whole cache. *)
Theorem web_service_never_marks_viewed
    (d : Disk) (reqs : list Run0.Request)
    (page_ : Z) (sort : App0.SortKey) (source : option string) :
  let st := (Run0.run (App0.initial_state, d) reqs).1 in
  App0.seen_news st = ∅
  /\ App0.new_count st = Z.of_nat (length (App0.news st))
  /\ (App0.index page_ sort source st).2 = Z.of_nat (length (App0.news st)).
Proof.
  intros st.
  assert (Hseen : App0.seen_news st = ∅).
  { unfold st, Run0.run.
    apply (foldl_preserves (fun s => App0.seen_news s.1 = ∅)); [|done].
    intros s req. apply app0_step_seen. }
  assert (Hcount : App0.new_count st = Z.of_nat (length (App0.news st))).
  { unfold App0.new_count. rewrite sum_of_ones, Hseen.
    rewrite filter_all; [done|]. intros n. apply not_elem_of_empty. }
  done.
Qed.

Lemma filter_none {A} (P : A -> Prop) `{!forall x, Decision (P x)} (l : list A) :
  Forall (fun x => ~ P x) l -> filter P l = [].
Proof.
  induction 1 as [|x l Hx Hl IH]; [done|].
  rewrite filter_cons. by case_decide.
Qed.

Lemma t1_mark_all_seen self (viewed : list Item) :
  T1.seen_news_ids (foldl T1.mark_as_viewed self viewed)
  = list_to_set (news_id <$> viewed) ∪ T1.seen_news_ids self
  /\ T1.news (foldl T1.mark_as_viewed self viewed) = T1.news self.
Proof.
  revert self. induction viewed as [|x l IH]; intros self; simpl.
  - split; [|done]. by rewrite (left_id_L ∅ (∪)).
  - destruct (IH (T1.mark_as_viewed self x)) as [-> ->]. simpl. split; [|done].
    rewrite (assoc_L (∪)). f_equal. apply (comm_L (∪)).
Qed.

(** X6.  After any items are marked as viewed, the count of new items is the
    number of cached items whose fingerprint is neither in the previous
    viewed set nor the fingerprint of a marked item (so marking one item
    also hides every cached item with the same [link ++ title]); after all
    cached items are marked the count is 0; marking an item twice, or two
    items in the other order, gives the same object. *)
Theorem marking_hides_by_fingerprint
    (self : T1.NewsFetcher) (viewed : list Item) (x y : Item) :
  T1.get_new_news_count (foldl T1.mark_as_viewed self viewed)
  = Z.of_nat (length (filter (fun n => (news_id n ∉ T1.seen_news_ids self)
                                       /\ (news_id n ∉ news_id <$> viewed))
                             (T1.news self)))
  /\ T1.get_new_news_count (foldl T1.mark_as_viewed self (T1.news self)) = 0
  /\ T1.mark_as_viewed (T1.mark_as_viewed self x) x = T1.mark_as_viewed self x
  /\ T1.mark_as_viewed (T1.mark_as_viewed self x) y
     = T1.mark_as_viewed (T1.mark_as_viewed self y) x.
Proof.
  assert (Hcount : forall l,
            T1.get_new_news_count (foldl T1.mark_as_viewed self l)
            = Z.of_nat (length (filter (fun n => (news_id n ∉ T1.seen_news_ids self)
                                                 /\ (news_id n ∉ news_id <$> l))
                                       (T1.news self)))).
  { intros l. rewrite t1_new_count_spec.
    destruct (t1_mark_all_seen self l) as [-> ->]. do 2 f_equal.
    apply list_filter_iff. intros n.
    rewrite not_elem_of_union, elem_of_list_to_set. tauto. }
  split; [apply Hcount|]. split.
  - rewrite Hcount. rewrite filter_none; [done|].
    apply Forall_forall. intros n Hn [_ Hnot]. apply Hnot.
    by apply list_elem_of_fmap_2.
  - split; unfold T1.mark_as_viewed; simpl; f_equal.
    + rewrite (assoc_L (∪)). f_equal. apply (idemp_L (∪)).
    + rewrite !(assoc_L (∪)). f_equal. apply (comm_L (∪)).
Qed.

(** ** A new object *)

(** X7.  A new [NewsFetcher] always has a selection: the rows of the table
    when there are some, habr, pytorch and ai_news when the table is empty,
    lenta, ria and bbc when it cannot be read.  Its cache is empty and it was
    never refreshed; its first [fetch_news()] therefore makes a pass and
    stamps the time, whatever the feeds answer. *)
Theorem new_fetcher_has_a_selection
    (max_items_ : Z) (db : option (list string)) (d : Disk)
    (cat : Catalog) (clock : nat -> Z) (web : Web) (hash : string -> Z)
    (tick : nat) :
  let self := T1.init max_items_ db d in
  T1.selected_feeds self <> ∅
  /\ T1.selected_feeds self
     = match db with
       | Some [] => {["habr"; "pytorch"; "ai_news"]}
       | Some rows => list_to_set rows
       | None => {["lenta"; "ria"; "bbc"]}
       end
  /\ T1.news self = [] /\ T1.last_fetch_time self = None
  /\ T1.max_items self = max_items_
  /\ is_Some (T1.last_fetch_time (T1.fetch_news cat clock web hash None tick self).1.2).
Proof.
  intros self.
  assert (Hsel : T1.selected_feeds self
                 = match db with
                   | Some [] => {["habr"; "pytorch"; "ai_news"]}
                   | Some rows => list_to_set rows
                   | None => {["lenta"; "ria"; "bbc"]}
                   end).
  { unfold self, T1.init, T1.load_saved_links.
    destruct (articles_file d); simpl; destruct db as [[|r rows]|]; try done;
      apply (left_id_L ∅ (∪)). }
  assert (Hne : T1.selected_feeds self <> ∅).
  { rewrite Hsel. destruct db as [[|r rows]|]; intros He.
    - apply (not_elem_of_empty (C:=gset string) "habr"). rewrite <- He.
      rewrite !elem_of_union, !elem_of_singleton. auto.
    - apply (not_elem_of_empty (C:=gset string) r). rewrite <- He.
      apply elem_of_list_to_set, list_elem_of_here.
    - apply (not_elem_of_empty (C:=gset string) "lenta"). rewrite <- He.
      rewrite !elem_of_union, !elem_of_singleton. auto. }
  split; [done|]. split; [done|].
  assert (Hrest : T1.news self = [] /\ T1.last_fetch_time self = None
                  /\ T1.max_items self = max_items_).
  { unfold self, T1.init, T1.load_saved_links. by destruct (articles_file d). }
  destruct Hrest as (? & ? & ?). repeat (split; [done|]).
  unfold T1.fetch_news. simpl default.
  destruct (Py.set_iter hash (T1.selected_feeds self)) eqn:E.
  - by apply set_iter_nil in E.
  - simpl. eauto.
Qed.

(** ** Pages *)

Lemma app0_total_pages_fixed {A} (l : list A) (k k' : Z) :
  App0.total_pages (App0.paginate l k) = App0.total_pages (App0.paginate l k').
Proof. reflexivity. Qed.

Lemma app0_paginate_in_range {A} (l : list A) (k : Z) :
  1 <= k <= App0.total_pages (App0.paginate l k) ->
  App0.page_items (App0.paginate l k)
  = take 10 (drop (Z.to_nat ((k - 1) * 10)) l).
Proof.
  intros Hk. rewrite app0_paginate_items.
  destruct (app0_paginate_clamp l k) as [Hp _]. rewrite Hp.
  rewrite Z.min_l, Z.max_r by lia. done.
Qed.

Lemma chunks_concat {A} (l : list A) (size m : nat) :
  concat ((fun j => take size (drop (j * size) l)) <$> seq 0 m) = take (m * size) l.
Proof.
  induction m as [|m IH]; [by rewrite take_0|].
  rewrite seq_S, fmap_app, concat_app, IH. simpl.
  rewrite app_nil_r, take_take_drop. f_equal. lia.
Qed.

(** X8.  The pages of the web service partition the list they are cut from:
    read in order, pages 1 to [total_pages] give back the list, every item
    once.  No page holds more than 10 items, and a page number outside
    [1, total_pages] shows the first or the last page. *)
Theorem pages_partition_the_list {A} (l : list A) (page_ : Z) :
  concat ((fun j => App0.page_items (App0.paginate l (Z.of_nat j + 1)))
          <$> seq 0 (Z.to_nat (App0.total_pages (App0.paginate l page_)))) = l
  /\ (length (App0.page_items (App0.paginate l page_)) <= 10)%nat
  /\ (page_ <= 1 -> App0.paginate l page_ = App0.paginate l 1)
  /\ (App0.total_pages (App0.paginate l page_) <= page_ ->
      App0.paginate l page_
      = App0.paginate l (App0.total_pages (App0.paginate l page_))).
Proof.
  destruct (app0_paginate_total_pages l page_) as (c & Hc & Htp).
  unfold App0.PAGE_SIZE in Hc.
  split; [|split; [|split]].
  - set (tp := App0.total_pages (App0.paginate l page_)) in *.
    transitivity (concat ((fun j => take 10 (drop (j * 10) l)) <$> seq 0 (Z.to_nat tp))).
    + f_equal. apply list_fmap_ext. intros i j Hj.
      apply lookup_seq in Hj as [-> Hlt].
      rewrite app0_paginate_in_range.
      * do 2 f_equal. lia.
      * rewrite (app0_total_pages_fixed l _ page_). fold tp. lia.
    + rewrite chunks_concat. apply take_ge. lia.
  - rewrite app0_paginate_items, length_take. unfold App0.PAGE_SIZE. lia.
  - intros Hle. unfold App0.paginate.
    replace (Z.max 1 (Z.min page_ _)) with (Z.max 1 (Z.min 1
      (Z.max 1 ((Z.of_nat (length l) + App0.PAGE_SIZE - 1) / App0.PAGE_SIZE)))) by lia.
    done.
  - intros Hle. unfold App0.paginate in *. simpl in Hle.
    set (tp := Z.max 1 ((Z.of_nat (length l) + App0.PAGE_SIZE - 1) / App0.PAGE_SIZE)) in *.
    replace (Z.max 1 (Z.min page_ tp)) with (Z.max 1 (Z.min tp tp)) by lia.
    done.
Qed.

Lemma slice_lookup {A} (l : list A) (a b : Z) (j : nat) (x : A) :
  0 <= a -> l !! (Z.to_nat a + j)%nat = Some x -> a + Z.of_nat j < b ->
  Py.slice l a b !! j = Some x.
Proof.
  intros Ha Hx Hb. pose proof (lookup_lt_Some _ _ _ Hx) as Hlen.
  unfold Py.slice, Py.slice_index.
  destruct (Z.ltb_spec a 0); [lia|]. destruct (Z.ltb_spec b 0); [lia|].
  rewrite (Z.min_l a) by lia.
  rewrite lookup_take_lt by lia. by rewrite lookup_drop.
Qed.

Lemma slice_stop_beyond {A} (l : list A) (a b : Z) :
  0 <= b -> Py.slice l a (Z.min b (Z.of_nat (length l))) = Py.slice l a b.
Proof.
  intros Hb. unfold Py.slice, Py.slice_index.
  destruct (Z.ltb_spec b 0); [lia|].
  destruct (Z.ltb_spec (Z.min b (Z.of_nat (length l))) 0); [lia|].
  f_equal. lia.
Qed.

(** X9.  Over a store that is not empty, the saved-articles page of the web
    service and [get_saved_articles] with a page size of 10 show the same
    articles, the same page number and the same number of pages, for every
    page asked. *)
Theorem saved_listings_agree
    (all_articles : list SavedArticle) (w : bool) (page_ : Z) :
  all_articles <> [] ->
  let d := mkDisk (Some all_articles) w in
  T1.articles (T1.get_saved_articles page_ 10 d)
  = App0.page_items (App0.saved_news page_ d)
  /\ T1.page (T1.get_saved_articles page_ 10 d) = App0.page (App0.saved_news page_ d)
  /\ T1.total_pages (T1.get_saved_articles page_ 10 d)
     = App0.total_pages (App0.saved_news page_ d)
  /\ T1.total (T1.get_saved_articles page_ 10 d) = Z.of_nat (length all_articles).
Proof.
  intros Hne d.
  destruct (t1_saved_pages page_ 10 all_articles w ltac:(lia))
    as (Htotal & Hc & _ & Hpage & Harts).
  fold d in Htotal, Hc, Hpage, Harts.
  assert (Hlen : 0 < Z.of_nat (length all_articles)) by (destruct all_articles; [done|simpl; lia]).
  assert (Htp : T1.total_pages (T1.get_saved_articles page_ 10 d)
                = App0.total_pages (App0.saved_news page_ d)).
  { unfold T1.get_saved_articles, App0.saved_news, App0.paginate, App0.load_saved_articles,
      Py.floordiv, App0.PAGE_SIZE. simpl.
    pose proof (ceil_by_floor (Z.of_nat (length all_articles)) 10 ltac:(lia)). lia. }
  assert (Hpg : T1.page (T1.get_saved_articles page_ 10 d)
                = App0.page (App0.saved_news page_ d)).
  { rewrite Hpage, Htp. unfold App0.saved_news, App0.paginate. simpl. lia. }
  split; [|done].
  rewrite Harts, Hpg. unfold App0.saved_news, App0.paginate, App0.load_saved_articles.
  simpl. unfold App0.PAGE_SIZE. rewrite slice_stop_beyond; [done|lia].
Qed.

Lemma saved_listings_agree_witness :
  stored Sample4.disk <> []
  /\ T1.articles (T1.get_saved_articles 3 10 (mkDisk (Some (stored Sample4.disk)) true))
     = App0.page_items (App0.saved_news 3 (mkDisk (Some (stored Sample4.disk)) true)).
Proof.
  assert (H : stored Sample4.disk <> []) by (vm_compute; discriminate).
  split; [exact H|].
  exact (proj1 (saved_listings_agree (stored Sample4.disk) true 3 H)).
Defined.

Lemma t1_article_on_its_page (l : list SavedArticle) (w : bool) (ps : Z) (i : nat)
    (x : SavedArticle) :
  0 < ps -> l !! i = Some x ->
  let p := T1.get_saved_articles (Z.of_nat i / ps + 1) ps (mkDisk (Some l) w) in
  T1.page p = Z.of_nat i / ps + 1
  /\ T1.articles p !! Z.to_nat (Z.of_nat i mod ps) = Some x.
Proof.
  intros Hps Hx p. pose proof (lookup_lt_Some _ _ _ Hx) as Hlen.
  destruct (t1_saved_pages (Z.of_nat i / ps + 1) ps l w Hps)
    as (_ & Hc & _ & Hpage & Harts).
  fold p in Hc, Hpage, Harts.
  pose proof (Z.div_mod (Z.of_nat i) ps ltac:(lia)) as Hdm.
  pose proof (Z.mod_pos_bound (Z.of_nat i) ps Hps) as Hmod.
  assert (Hq : 0 <= Z.of_nat i / ps) by (apply Z.div_pos; lia).
  assert (Hlt : Z.of_nat i / ps < T1.total_pages p) by nia.
  assert (Hp : T1.page p = Z.of_nat i / ps + 1) by lia.
  split; [done|]. rewrite Harts, Hp.
  apply slice_lookup; [nia| |lia].
  rewrite <-Hx. f_equal. nia.
Qed.

Lemma app0_item_on_its_page {A} (l : list A) (i : nat) (x : A) :
  l !! i = Some x ->
  let p := App0.paginate l (Z.of_nat i / 10 + 1) in
  App0.page p = Z.of_nat i / 10 + 1
  /\ App0.page_items p !! Z.to_nat (Z.of_nat i mod 10) = Some x.
Proof.
  intros Hx p. pose proof (lookup_lt_Some _ _ _ Hx) as Hlen.
  destruct (app0_paginate_total_pages l (Z.of_nat i / 10 + 1)) as (c & Hc & Htp).
  fold p in Htp. unfold App0.PAGE_SIZE in Hc.
  pose proof (Z.div_mod (Z.of_nat i) 10 ltac:(lia)) as Hdm.
  pose proof (Z.mod_pos_bound (Z.of_nat i) 10 ltac:(lia)) as Hmod.
  assert (Hq : 0 <= Z.of_nat i / 10) by (apply Z.div_pos; lia).
  assert (Hrange : 1 <= Z.of_nat i / 10 + 1 <= App0.total_pages p) by lia.
  destruct (app0_paginate_clamp l (Z.of_nat i / 10 + 1)) as [Hp _]. fold p in Hp.
  split; [lia|].
  unfold p. rewrite app0_paginate_in_range by done.
  rewrite lookup_take_lt by lia. rewrite lookup_drop, <-Hx. f_equal. lia.
Qed.

Lemma t1_save_success web now token link_ self d :
  let r := T1.save_article web now token link_ self d in
  T1.success r.1.1 = true ->
  exists a item,
    T1.data r.1.1 = Some a
    /\ articles_file r.2 = Some (stored d ++ [a])
    /\ sa_sourceUrl a = link_ /\ sa_fullText a = page_text web link_
    /\ sa_savedAt a = now /\ sa_id a = Some token
    /\ item ∈ T1.news self /\ link item = link_
    /\ sa_title a = title item /\ sa_sourceName a = sourceName item.
Proof.
  intros r. unfold r, T1.save_article.
  destruct (List.find _ (T1.news self)) as [item|] eqn:Hfind; [|done].
  apply find_some in Hfind as [Hin Hlink]. apply String.eqb_eq in Hlink.
  destruct (bool_decide (link_ ∈ T1.saved_links self)); [done|].
  destruct (negb (Py.truthy (page_text web link_))); [done|].
  destruct (existsb _ _); [done|]. destruct (writable d); [|done].
  intros _. simpl. eexists _, item. split; [reflexivity|]. split; [reflexivity|].
  simpl. repeat (split; [done|]). split; [by apply list_elem_of_In|done].
Qed.

(** X10.  Every stored article is listed: article number [i] (from 0) is at
    position [i mod size] of page [i / size + 1].  In particular the record
    a successful archive returns, or appends, is the last of the store, and
    is found at once on the page computed from the size the store had, with
    the total grown by one. *)
Theorem stored_articles_are_listed
    (web : Web) (now : Z) (token link_ : string) (self : T1.NewsFetcher)
    (st : App0.AppState) (d : Disk) (ps : Z)
    (l : list SavedArticle) (w : bool) (i : nat) (x : SavedArticle) :
  0 < ps ->
  let n := Z.of_nat (length (stored d)) in
  let r1 := T1.save_article web now token link_ self d in
  let r0 := App0.save_article_endpoint web now link_ st d in
  (l !! i = Some x ->
   T1.articles (T1.get_saved_articles (Z.of_nat i / ps + 1) ps (mkDisk (Some l) w))
     !! Z.to_nat (Z.of_nat i mod ps) = Some x
   /\ App0.page_items (App0.saved_news (Z.of_nat i / 10 + 1) (mkDisk (Some l) w))
        !! Z.to_nat (Z.of_nat i mod 10) = Some x)
  /\ (T1.success r1.1.1 = true ->
      exists a, T1.data r1.1.1 = Some a /\ sa_sourceUrl a = link_
                /\ T1.total (T1.get_saved_articles (n / ps + 1) ps r1.2) = n + 1
                /\ T1.articles (T1.get_saved_articles (n / ps + 1) ps r1.2)
                     !! Z.to_nat (n mod ps) = Some a)
  /\ (r0.2 <> d ->
      exists a, sa_sourceUrl a = link_
                /\ App0.page_items (App0.saved_news (n / 10 + 1) r0.2)
                     !! Z.to_nat (n mod 10) = Some a).
Proof.
  intros Hps n r1 r0. split; [|split].
  - intros Hx. split.
    + by apply t1_article_on_its_page.
    + by apply (app0_item_on_its_page l i x).
  - intros Hok. destruct (t1_save_success web now token link_ self d Hok)
      as (a & item & Hdata & Hfile & Hurl & _).
    fold r1 in Hdata, Hfile. exists a. split; [done|]. split; [done|].
    assert (Hd : r1.2 = mkDisk (Some (stored d ++ [a])) (writable r1.2)).
    { destruct r1.2 as [file w']. simpl in *. by rewrite Hfile. }
    rewrite Hd.
    assert (Hx : (stored d ++ [a]) !! length (stored d) = Some a)
      by apply list_lookup_middle, eq_refl.
    split.
    + pose proof (t1_saved_pages (n / ps + 1) ps (stored d ++ [a]) (writable r1.2) Hps)
        as (-> & _). rewrite length_app. simpl. lia.
    + by apply (t1_article_on_its_page _ _ ps (length (stored d)) a).
  - intros Hch.
    destruct (app0_save_unchanged_or_appended web now link_ st d)
      as [[_ ?]|(_ & _ & _ & _ & _ & (a & Hurl & _ & Hfile & _))]; [done|].
    fold r0 in Hfile. exists a. split; [done|].
    assert (Hx : (stored d ++ [a]) !! length (stored d) = Some a)
      by apply list_lookup_middle, eq_refl.
    unfold App0.saved_news, App0.load_saved_articles. rewrite Hfile. simpl.
    by apply (app0_item_on_its_page _ (length (stored d)) a).
Qed.

Lemma stored_articles_are_listed_witness :
  0 < 5
  /\ T1.articles (T1.get_saved_articles (Z.of_nat 0 / 5 + 1) 5
                    (mkDisk (Some (stored Sample4.disk)) true))
       !! Z.to_nat (Z.of_nat 0 mod 5)
     = stored Sample4.disk !! 0%nat.
Proof.
  assert (H : 0 < 5) by reflexivity.
  split; [exact H|].
  destruct (stored Sample4.disk !! 0%nat) as [x|] eqn:Hx; [|by vm_compute in Hx].
  exact (proj1 (proj1 (stored_articles_are_listed
                         Sample.web 0 "t" "l1" Sample.fetcher App0.initial_state
                         Sample.disk 5 (stored Sample4.disk) true 0 x H) Hx)).
Defined.

(** ** The order of the index *)

Section SortMore.
Context {A K : Type} `{!EqDecision K} (lt : K -> K -> bool) (key : A -> K).
Hypothesis lt_irrefl : forall a, lt a a = false.
Hypothesis lt_asym : forall a b, lt a b = true -> lt b a = false.
Hypothesis lt_neg_trans : forall a b c, lt a b = false -> lt b c = false -> lt a c = false.

Lemma insert_sorted_ascending x l :
  ascending lt key l -> ascending lt key (Py.insert_sorted lt key false x l).
Proof.
  unfold ascending. induction 1 as [|y l Hl IH Hy]; simpl.
  - repeat constructor.
  - destruct (lt (key y) (key x)) eqn:Hyx.
    + constructor; [exact IH|].
      apply Forall_forall. intros z Hz.
      rewrite insert_sorted_perm in Hz.
      apply elem_of_cons in Hz as [->|Hz]; [by apply lt_asym|].
      by eapply Forall_forall in Hy.
    + constructor; [by constructor|].
      constructor; [exact Hyx|].
      eapply Forall_impl; [exact Hy|]. simpl. intros z Hz.
      by eapply lt_neg_trans.
Qed.

Lemma sorted_ascending l : ascending lt key (Py.sorted lt key false l).
Proof.
  induction l as [|x l IH]; simpl; [constructor|].
  by apply insert_sorted_ascending.
Qed.

Lemma insert_sorted_stable r x l k :
  filter (fun y => key y = k) (Py.insert_sorted lt key r x l)
  = filter (fun y => key y = k) (x :: l).
Proof.
  induction l as [|y l IH]; [done|]. simpl.
  destruct (if r then lt (key x) (key y) else lt (key y) (key x)) eqn:Hc; [|done].
  assert (Hne : key x <> key y).
  { intros Heq. rewrite Heq, lt_irrefl in Hc. by destruct r. }
  rewrite (filter_cons _ y), IH, !filter_cons.
  destruct (decide (key y = k)), (decide (key x = k)); try done. congruence.
Qed.

Lemma sorted_stable r l k :
  filter (fun y => key y = k) (Py.sorted lt key r l) = filter (fun y => key y = k) l.
Proof.
  induction l as [|x l IH]; [done|]. simpl.
  by rewrite insert_sorted_stable, !filter_cons, IH.
Qed.
End SortMore.

Lemma string_ltb_irrefl (a : string) : String.ltb a a = false.
Proof. apply string_ltb_leb. reflexivity. Qed.

(** X11.  The index cuts its page from a list that holds exactly the cached
    items of the chosen source (all cached items when no source, or the
    empty one, is chosen), each once.  The list is in ascending order of the
    lower-cased title or source name, or in descending order of the date
    string; items with the same key stay in the order of the cache. *)
Theorem index_listing_is_sorted_and_stable
    (page_ : Z) (sort : App0.SortKey) (source : option string) (st : App0.AppState)
    (k : string) :
  App0.index page_ sort source st
  = (App0.paginate (index_listing sort source st) page_, App0.new_count st)
  /\ index_listing sort source st ≡ₚ index_source source st
  /\ (forall s, source = Some s -> s <> "" ->
        forall n, n ∈ index_listing sort source st
                  <-> n ∈ App0.news st /\ sourceId n = s)
  /\ (if index_reverse sort
      then descending String.ltb (index_key sort) (index_listing sort source st)
      else ascending String.ltb (index_key sort) (index_listing sort source st))
  /\ filter (fun n => index_key sort n = k) (index_listing sort source st)
     = filter (fun n => index_key sort n = k) (index_source source st).
Proof.
  split; [by destruct sort, source|].
  split; [apply sorted_perm|].
  split.
  { intros s -> Hs n. unfold index_listing. rewrite sorted_perm. simpl.
    apply truthy_spec in Hs. rewrite Hs. unfold from_source.
    rewrite list_elem_of_filter. tauto. }
  split.
  - unfold index_listing. destruct sort; simpl.
    + apply sorted_descending; [apply string_ltb_asym|apply string_ltb_neg_trans].
    + apply sorted_ascending; [apply string_ltb_asym|apply string_ltb_neg_trans].
    + apply sorted_ascending; [apply string_ltb_asym|apply string_ltb_neg_trans].
  - apply sorted_stable, string_ltb_irrefl.
Qed.

(** ** Search: trimming and letter case *)

Lemma rstrip_cons (c : ascii) (s : string) :
  Py.rstrip (String c s)
  = match Py.rstrip s with
    | EmptyString => if Py.isspace c then EmptyString else String c EmptyString
    | r => String c r
    end.
Proof. reflexivity. Qed.

Lemma rstrip_idem (s : string) : Py.rstrip (Py.rstrip s) = Py.rstrip s.
Proof.
  induction s as [|c s IH]; [done|]. rewrite rstrip_cons.
  destruct (Py.rstrip s) as [|d r] eqn:Hr.
  - destruct (Py.isspace c) eqn:Hc; [done|]. simpl. by rewrite Hc.
  - by rewrite rstrip_cons, IH.
Qed.

Lemma lstrip_head (s : string) :
  Py.lstrip s = ""
  \/ exists c t, Py.lstrip s = String c t /\ Py.isspace c = false.
Proof.
  induction s as [|c s IH]; [by left|]. simpl.
  destruct (Py.isspace c) eqn:Hc; [exact IH|]. right. by exists c, s.
Qed.

Lemma rstrip_head (c : ascii) (t : string) :
  Py.isspace c = false -> exists r, Py.rstrip (String c t) = String c r.
Proof.
  intros Hc. simpl. destruct (Py.rstrip t) as [|d r].
  - rewrite Hc. by eexists.
  - by eexists.
Qed.

Lemma strip_head (s : string) :
  Py.strip s = "" \/ exists c t, Py.strip s = String c t /\ Py.isspace c = false.
Proof.
  unfold Py.strip. destruct (lstrip_head s) as [->|(c & t & -> & Hc)]; [by left|].
  right. destruct (rstrip_head c t Hc) as [r ->]. by exists c, r.
Qed.

Lemma strip_idem (s : string) : Py.strip (Py.strip s) = Py.strip s.
Proof.
  destruct (strip_head s) as [->|(c & t & Hs & Hc)]; [done|].
  unfold Py.strip at 1. rewrite Hs. simpl Py.lstrip. rewrite Hc, <- Hs.
  unfold Py.strip. apply rstrip_idem.
Qed.

Lemma isspace_lower_char (c : ascii) : Py.isspace (Py.lower_char c) = Py.isspace c.
Proof. by destruct c as [[] [] [] [] [] [] [] []]. Qed.

Lemma lower_char_idem (c : ascii) : Py.lower_char (Py.lower_char c) = Py.lower_char c.
Proof. by destruct c as [[] [] [] [] [] [] [] []]. Qed.

Lemma lower_idem (s : string) : Py.lower (Py.lower s) = Py.lower s.
Proof. induction s as [|c s IH]; [done|]. simpl. by rewrite lower_char_idem, IH. Qed.

Lemma lstrip_lower (s : string) : Py.lstrip (Py.lower s) = Py.lower (Py.lstrip s).
Proof.
  induction s as [|c s IH]; [done|]. simpl. rewrite isspace_lower_char.
  by destruct (Py.isspace c).
Qed.

Lemma rstrip_lower (s : string) : Py.rstrip (Py.lower s) = Py.lower (Py.rstrip s).
Proof.
  induction s as [|c s IH]; [done|]. simpl. rewrite IH, isspace_lower_char.
  destruct (Py.rstrip s); simpl; [by destruct (Py.isspace c)|done].
Qed.

Lemma strip_lower (s : string) : Py.strip (Py.lower s) = Py.lower (Py.strip s).
Proof. unfold Py.strip. by rewrite lstrip_lower, rstrip_lower. Qed.

Lemma lower_empty (s : string) : Py.lower s = "" <-> s = "".
Proof. by destruct s. Qed.

Lemma length_lower (s : string) : String.length (Py.lower s) = String.length s.
Proof. induction s as [|c s IH]; [done|]. simpl. by rewrite IH. Qed.

Lemma truthy_lower (s : string) : Py.truthy (Py.lower s) = Py.truthy s.
Proof. by destruct s. Qed.

(** X12.  On a query with a visible character the web service answers what
    the fetcher answers to the trimmed query, when both hold the same
    items: the service trims the query before it matches, the fetcher
    matches the query as it was typed. *)
Theorem web_search_is_fetcher_search_of_trimmed_query
    (q : string) (st : App0.AppState) (self : T1.NewsFetcher) :
  App0.news st = T1.news self ->
  ~ blank q ->
  App0.search q st = Some (T1.search_news (Py.strip q) self).
Proof.
  unfold blank, App0.search, T1.search_news. intros Hnews Hq.
  destruct q as [|c q]; [done|]. simpl String.length. simpl Nat.ltb. cbv iota.
  rewrite strip_idem. apply truthy_spec in Hq. rewrite Hq. simpl.
  by rewrite Hnews.
Qed.

Lemma web_search_is_fetcher_search_of_trimmed_query_witness :
  App0.news Sample2.one_item = T1.news Sample2.fetcher_one_item
  /\ ~ blank " OLD "
  /\ App0.search " OLD " Sample2.one_item
     = Some (T1.search_news (Py.strip " OLD ") Sample2.fetcher_one_item)
  /\ T1.search_news (Py.strip " OLD ") Sample2.fetcher_one_item
     = T1.news Sample2.fetcher_one_item
  /\ T1.search_news " OLD " Sample2.fetcher_one_item = [].
Proof.
  assert (H1 : App0.news Sample2.one_item = T1.news Sample2.fetcher_one_item)
    by (vm_compute; reflexivity).
  assert (H2 : ~ blank " OLD ") by (vm_compute; discriminate).
  split; [exact H1|]. split; [exact H2|].
  split; [|split; vm_compute; reflexivity].
  exact (web_search_is_fetcher_search_of_trimmed_query
           " OLD " Sample2.one_item Sample2.fetcher_one_item H1 H2).
Defined.

(** X13.  Neither search looks at the letter case of the query: the query
    and its lower-cased form get the same answer. *)
Theorem search_ignores_case_of_query
    (q : string) (st : App0.AppState) (self : T1.NewsFetcher) :
  App0.search (Py.lower q) st = App0.search q st
  /\ T1.search_news (Py.lower q) self = T1.search_news q self.
Proof.
  unfold App0.search, T1.search_news.
  rewrite length_lower, !strip_lower, !truthy_lower, !lower_idem. done.
Qed.

(** ** Cleaned text *)

Lemma collapse_spaces_spaced (b : bool) (u : string) :
  spaced_weak (T1.collapse_spaces b u)
  /\ (b = true -> starts_visible (T1.collapse_spaces b u)).
Proof.
  revert b. induction u as [|c u IH]; intros b; [done|]. simpl.
  destruct (Py.isspace c) eqn:Hc.
  - destruct b.
    + apply IH.
    + split; [|done]. simpl. split; [|apply IH].
      intros _. split; [done|]. by apply IH.
  - simpl. split; [|done]. split; [congruence|apply IH].
Qed.

Lemma lstrip_spaced (s : string) : spaced_weak s -> spaced_weak (Py.lstrip s).
Proof.
  induction s as [|c s IH]; [done|]. intros Hs. simpl.
  destruct (Py.isspace c); [apply IH, Hs|exact Hs].
Qed.

Lemma rstrip_prefix (s : string) : exists t, s = Py.rstrip s +:+ t.
Proof.
  induction s as [|c s [t IH]]; [by exists ""|]. rewrite rstrip_cons.
  destruct (Py.rstrip s) as [|d r].
  - destruct (Py.isspace c); [by exists (String c s)|by exists s].
  - exists t. rewrite append_cons. by f_equal.
Qed.

Lemma rstrip_keeps_head (s : string) (d : ascii) (r : string) :
  Py.rstrip s = String d r -> exists s', s = String d s'.
Proof.
  intros Hr. destruct (rstrip_prefix s) as [t Ht]. rewrite Hr in Ht.
  rewrite append_cons in Ht. by eexists.
Qed.

Lemma rstrip_spaced (s : string) : spaced_weak s -> spaced (Py.rstrip s).
Proof.
  induction s as [|c s IH]; [done|]. intros [Hc Hs]. rewrite rstrip_cons.
  destruct (Py.rstrip s) as [|d r] eqn:Hr.
  - destruct (Py.isspace c) eqn:Hsp; [done|]. simpl. split; [congruence|done].
  - cbn [spaced]. split; [|by apply IH].
    intros Hsp. destruct (Hc Hsp) as [-> Hv]. split; [done|]. split; [done|].
    destruct (rstrip_keeps_head _ _ _ Hr) as [s' ->]. exact Hv.
Qed.

Lemma spaced_suffix (pre t : string) : spaced (pre +:+ t) -> spaced t.
Proof.
  induction pre as [|c pre IH]; [done|]. rewrite append_cons. intros [_ H]. by apply IH.
Qed.

Lemma spaced_tidy (s : string) : spaced s -> starts_visible s -> tidy s.
Proof.
  intros Hs Hv. split.
  - intros pre c post -> Hc.
    pose proof (spaced_suffix _ _ Hs) as [H _]. destruct (H Hc) as (-> & Hpost & _).
    split; [done|]. split; [|done]. intros ->. simpl in Hv. congruence.
  - intros pre c d post ->.
    pose proof (spaced_suffix _ _ Hs) as [H _].
    destruct (Py.isspace c) eqn:Hc; [|by left]. right.
    by destruct (H eq_refl) as (_ & _ & Hd).
Qed.

Lemma strip_starts_visible (s : string) : starts_visible (Py.strip s).
Proof. by destruct (strip_head s) as [->|(c & t & -> & Hc)]. Qed.

Lemma clean_html_tidy (text : string) : tidy (T1._clean_html text).
Proof.
  apply spaced_tidy; [|apply strip_starts_visible].
  apply rstrip_spaced, lstrip_spaced, collapse_spaces_spaced.
Qed.

Lemma prefix_gt_cons (c : ascii) (s : string) :
  String.prefix ">" (String c s) = Ascii.eqb c ">".
Proof.
  change (String.prefix ">" (String c s))
    with (if ascii_dec ">" c then String.prefix "" s else false).
  destruct (ascii_dec ">" c) as [<-|Hne]; [by destruct s|].
  symmetry. apply Ascii.eqb_neq. congruence.
Qed.

Lemma prefix_gt (s : string) :
  String.prefix ">" s = true <-> exists s', s = String ">" s'.
Proof.
  destruct s as [|c s]; [split; [done|by intros [? ?]]|].
  rewrite prefix_gt_cons. split.
  - intros ->%Ascii.eqb_eq. by eexists.
  - intros [s' [= -> _]]. done.
Qed.

Lemma contains_gt_cons (c : ascii) (s : string) :
  Py.contains ">" (String c s) = Ascii.eqb c ">" || Py.contains ">" s.
Proof.
  cbn [Py.contains]. by rewrite prefix_gt_cons.
Qed.

Lemma contains_gt_app (a b : string) :
  Py.contains ">" (a +:+ b) = Py.contains ">" a || Py.contains ">" b.
Proof.
  induction a as [|c a IH]; [done|].
  by rewrite append_cons, !contains_gt_cons, IH, orb_assoc.
Qed.

Lemma no_gt_tagless (s : string) : Py.contains ">" s = false -> tagless s.
Proof.
  induction s as [|c s IH]; [done|]. rewrite contains_gt_cons.
  intros [_ Hs]%orb_false_iff. split; [by right|by apply IH].
Qed.

Lemma strip_tags_tagless (u : string) (tag : option string) :
  (forall buf, tag = Some buf -> Py.contains ">" buf = false) ->
  tagless (T1.strip_tags tag u).
Proof.
  revert tag. induction u as [|c u IH]; intros [buf|] Htag; cbn [T1.strip_tags].
  - split; [right; by apply Htag|]. by apply no_gt_tagless, Htag.
  - done.
  - destruct (Ascii.eqb_spec c ">") as [->|Hc].
    + destruct (Py.truthy buf).
      * by apply IH.
      * split; [left; by rewrite prefix_gt_cons|]. split; [done|]. by apply IH.
    + apply IH. intros ? [= <-].
      rewrite contains_gt_app, contains_gt_cons, (Htag buf eq_refl).
      apply Ascii.eqb_neq in Hc. by rewrite Hc.
  - destruct (Ascii.eqb_spec c "<") as [->|Hc].
    + apply IH. by intros ? [= <-].
    + split; [done|]. by apply IH.
Qed.

Lemma contains_gt_collapse (b : bool) (s : string) :
  Py.contains ">" (T1.collapse_spaces b s) = Py.contains ">" s.
Proof.
  revert b. induction s as [|c s IH]; intros b; [done|]. simpl T1.collapse_spaces.
  destruct (Py.isspace c) eqn:Hc.
  - assert (Ascii.eqb c ">" = false) as Hgt.
    { apply Ascii.eqb_neq. by intros ->. }
    rewrite contains_gt_cons, Hgt. simpl.
    destruct b; [apply IH|]. rewrite contains_gt_cons. apply IH.
  - by rewrite !contains_gt_cons, IH.
Qed.

Lemma collapse_tagless (b : bool) (s : string) :
  tagless s -> tagless (T1.collapse_spaces b s).
Proof.
  revert b. induction s as [|c s IH]; intros b; [done|]. intros [Hc Hs].
  simpl T1.collapse_spaces. destruct (Py.isspace c) eqn:Hsp.
  - destruct b; [by apply IH|]. split; [done|by apply IH].
  - split; [|by apply IH]. intros Heq. destruct (Hc Heq) as [Hp|Hn].
    + left. apply prefix_gt in Hp as [s' ->]. simpl T1.collapse_spaces.
      by apply prefix_gt; eexists.
    + right. by rewrite contains_gt_collapse.
Qed.

Lemma lstrip_tagless (s : string) : tagless s -> tagless (Py.lstrip s).
Proof.
  induction s as [|c s IH]; [done|]. intros Hs. simpl.
  destruct (Py.isspace c); [apply IH, Hs|exact Hs].
Qed.

Lemma rstrip_tagless (s : string) : tagless s -> tagless (Py.rstrip s).
Proof.
  induction s as [|c s IH]; [done|]. intros [Hc Hs]. rewrite rstrip_cons.
  destruct (Py.rstrip s) as [|d r] eqn:Hr.
  - destruct (Py.isspace c); [done|]. split; [by right|done].
  - split; [|by apply IH]. intros Heq. destruct (Hc Heq) as [Hp|Hn].
    + left. destruct (rstrip_keeps_head _ _ _ Hr) as [s' ->].
      by rewrite prefix_gt_cons in *.
    + right. destruct (rstrip_prefix s) as [t Ht]. rewrite Hr in Ht.
      rewrite Ht, contains_gt_app in Hn. by apply orb_false_iff in Hn as [? _].
Qed.

Lemma tagless_suffix (pre t : string) : tagless (pre +:+ t) -> tagless t.
Proof.
  induction pre as [|c pre IH]; [done|]. rewrite append_cons. intros [_ H]. by apply IH.
Qed.

Lemma tagless_no_tag (s : string) : tagless s -> ~ has_tag s.
Proof.
  intros Hs (pre & buf & post & Hbuf & Hgt & ->).
  apply tagless_suffix in Hs.
  change ("<" +:+ buf +:+ ">" +:+ post) with (String "<" (buf +:+ ">" +:+ post)) in Hs.
  destruct Hs as [Hs _]. destruct (Hs eq_refl) as [Hp|Hn].
  - destruct buf as [|b buf]; [done|]. rewrite !append_cons, prefix_gt_cons in Hp.
    apply Hgt, contains_spec. by rewrite contains_gt_cons, Hp.
  - rewrite contains_gt_app in Hn. apply orb_false_iff in Hn as [_ Hn].
    by rewrite append_cons, contains_gt_cons in Hn.
Qed.

Lemma clean_html_clean (text : string) : clean_text (T1._clean_html text).
Proof.
  split; [apply clean_html_tidy|].
  apply tagless_no_tag, rstrip_tagless, lstrip_tagless, collapse_tagless.
  by apply strip_tags_tagless.
Qed.

Lemma t1_visit_entries_clean cat clock f url p entries :
  Forall (fun n => clean_text (title n) /\ clean_text (desc n)) (T1.all_items p) ->
  Forall (fun n => clean_text (title n) /\ clean_text (desc n))
         (T1.all_items (foldl (T1.visit_entry cat clock f url) p entries)).
Proof.
  revert p. induction entries as [|e es IH]; intros p Hp; simpl; [done|].
  apply IH.
  destruct (t1_visit_entry_cases cat clock f url p e)
    as [_ [(-> & _)|(item & _ & -> & _ & _ & _ & _ & _ & _ & Ht & Hd & _)]]; [done|].
  apply Forall_app. split; [done|].
  apply Forall_singleton. rewrite Ht, Hd. split; apply clean_html_clean.
Qed.

Lemma t1_merge_clean cat clock web fs p :
  Forall (fun n => clean_text (title n) /\ clean_text (desc n)) (T1.all_items p) ->
  Forall (fun n => clean_text (title n) /\ clean_text (desc n))
         (T1.all_items (foldl (T1.visit_feed cat clock web) p fs)).
Proof.
  revert p. induction fs as [|f fs IH]; intros p Hp; simpl; [done|].
  apply IH. unfold T1.visit_feed.
  destruct (ALL_FEEDS cat !! f) as [url|]; [|done].
  destruct (feed_of web url) as [entries|]; [|done].
  by apply t1_visit_entries_clean.
Qed.

(** X14.  The fetcher hands out clean text: in the title and in the
    description of every item a refresh returns there is no tag (a ['<'],
    one character or more other than ['>'], then ['>']), every whitespace
    character is a single blank between two visible characters, and the
    text neither starts nor ends with whitespace. *)
Theorem fetcher_items_carry_clean_text
    (cat : Catalog) (clock : nat -> Z) (web : Web) (hash : string -> Z)
    (selected : option (list string)) (tick : nat) (self : T1.NewsFetcher) :
  Forall (fun n => clean_text (title n) /\ clean_text (desc n))
         (T1.fetch_news cat clock web hash selected tick self).1.1.
Proof.
  unfold T1.fetch_news.
  destruct (default (Py.set_iter hash (T1.selected_feeds self)) selected)
    as [|f fs] eqn:Hsel; [done|].
  cbn [fst]. rewrite slice_from_0_take. apply Forall_take.
  rewrite sort_by_date_perm. by apply t1_merge_clean.
Qed.

(** ** The preview of an archived article *)

Lemma append_assoc (a b c : string) : (a +:+ b) +:+ c = a +:+ b +:+ c.
Proof. induction a as [|x a IH]; [done|]. by rewrite !append_cons, IH. Qed.

Lemma append_nil_r (a : string) : a +:+ "" = a.
Proof. induction a as [|x a IH]; [done|]. by rewrite append_cons, IH. Qed.

Lemma visible_app (a b : string) : visible a -> visible b -> visible (a +:+ b).
Proof.
  induction a as [|x a IH]; [done|]. rewrite append_cons. intros [Hx Ha] Hb.
  split; [done|by apply IH].
Qed.

Lemma split_go_cons (cur : string) (c : ascii) (s : string) :
  Py.split_go cur (String c s)
  = if Py.isspace c
    then (if Py.truthy cur then cur :: Py.split_go "" s else Py.split_go "" s)
    else Py.split_go (cur +:+ String c "") s.
Proof. reflexivity. Qed.

Lemma split_go_word (cur w rest : string) :
  visible w -> Py.split_go cur (w +:+ rest) = Py.split_go (cur +:+ w) rest.
Proof.
  revert cur. induction w as [|c w IH]; intros cur.
  - by rewrite append_nil_r.
  - intros [Hc Hw]. rewrite append_cons, split_go_cons, Hc, IH by done.
    by rewrite append_assoc.
Qed.

Lemma split_go_words (cur s : string) : visible cur -> Forall word (Py.split_go cur s).
Proof.
  revert cur. induction s as [|c s IH]; intros cur Hcur.
  - simpl. destruct (Py.truthy cur) eqn:Ht; [|done].
    apply Forall_singleton. split; [by apply truthy_spec|done].
  - rewrite split_go_cons. destruct (Py.isspace c) eqn:Hc.
    + destruct (Py.truthy cur) eqn:Ht; [|by apply IH].
      constructor; [|by apply IH]. split; [by apply truthy_spec|done].
    + apply IH, visible_app; [done|]. by split.
Qed.

Lemma split_words (s : string) : Forall word (Py.split s).
Proof. by apply split_go_words. Qed.

Lemma join_cons (sep x y : string) (l : list string) :
  Py.join sep (x :: y :: l) = x +:+ sep +:+ Py.join sep (y :: l).
Proof. reflexivity. Qed.

(** Splitting what was joined with blanks gives the words back. *)
Lemma split_join (ws : list string) : Forall word ws -> Py.split (Py.join " " ws) = ws.
Proof.
  unfold Py.split. induction 1 as [|w ws [Hne Hw] Hws IH]; [done|].
  apply truthy_spec in Hne. destruct ws as [|w2 ws].
  - change (Py.join " " [w]) with w. rewrite <- (append_nil_r w) at 1.
    rewrite split_go_word, append_empty by done. simpl. by rewrite Hne.
  - rewrite join_cons, split_go_word by done.
    rewrite append_empty, append_cons, append_empty, split_go_cons.
    change (Py.isspace " ") with true. cbv iota. by rewrite Hne, IH.
Qed.

Lemma preview100_spec (t : string) :
  Py.split (App0.preview100 t) = take 100 (Py.split t)
  /\ ((length (Py.split t) <= 100)%nat -> App0.preview100 t = t).
Proof.
  unfold App0.preview100. destruct (100 <? length (Py.split t))%nat eqn:Hlen.
  - apply Nat.ltb_lt in Hlen. split; [|lia].
    apply split_join, Forall_take, split_words.
  - apply Nat.ltb_ge in Hlen. split; [|done]. by rewrite take_ge.
Qed.

(** X15.  An attempt to archive leaves the records of the file as they
    were or adds one record at the end.  The preview of that record is the
    title, a full stop, a blank and a text whose words are exactly the
    first hundred words of the full text; when the full text has at most a
    hundred words, that text is the full text, spacing included. *)
Theorem archived_preview_holds_first_100_words
    (web : Web) (now : Z) (token link_ : string)
    (st : App0.AppState) (self : T1.NewsFetcher) (d : Disk) :
  let d0 := (App0.save_article_endpoint web now link_ st d).2 in
  let d1 := (T1.save_article web now token link_ self d).2 in
  (stored d0 = stored d \/ exists a, stored d0 = stored d ++ [a] /\ previewed a)
  /\ (stored d1 = stored d \/ exists a, stored d1 = stored d ++ [a] /\ previewed a).
Proof.
  split.
  - unfold App0.save_article_endpoint.
    destruct (App0.find_article link_ (App0.news st)) as [article|]; [|by left].
    destruct (negb (Py.truthy (page_text web link_))); [by left|].
    unfold App0.save_article, App0.load_saved_articles.
    destruct (existsb _ _); [by left|].
    destruct (writable d); [|by left]. right. eexists. split; [reflexivity|].
    exists (App0.preview100 (page_text web link_)). split; [done|].
    apply preview100_spec.
  - unfold T1.save_article.
    destruct (List.find _ _) as [article|]; [|by left].
    destruct (bool_decide _); [by left|].
    destruct (negb (Py.truthy (page_text web link_))); [by left|].
    destruct (existsb _ _); [by left|].
    destruct (writable d); [|by left]. right. eexists. split; [reflexivity|].
    exists (App0.preview100 (page_text web link_)). split; [done|].
    apply preview100_spec.
Qed.

(** ** The age of the cache on the statistics page *)

(** X16.  [format_time_ago] rounds the elapsed time down to whole minutes,
    hours or days: it prints minutes from 1 to 59, hours from 1 to 23 and
    days from 1 on, and "just now" exactly when less than a minute has
    passed (also for a time that lies ahead of the clock). *)
Theorem time_ago_rounds_down (now dt : Z) :
  match App0.format_time_ago now dt with
  | App0.JustNow => now - dt < 60000000
  | App0.MinutesAgo m =>
      1 <= m <= 59 /\ m * 60000000 <= now - dt < (m + 1) * 60000000
  | App0.HoursAgo h =>
      1 <= h <= 23 /\ h * 3600000000 <= now - dt < (h + 1) * 3600000000
  | App0.DaysAgo d =>
      1 <= d /\ d * 86400000000 <= now - dt < (d + 1) * 86400000000
  end.
Proof.
  unfold App0.format_time_ago.
  destruct (Z.ltb_spec (now - dt) 60000000) as [H1|H1]; [done|].
  destruct (Z.ltb_spec (now - dt) 3600000000) as [H2|H2].
  { Z.to_euclidean_division_equations. lia. }
  destruct (Z.ltb_spec ((now - dt) / 86400000000) 1) as [H3|H3].
  - assert (H4 : 0 <= now - dt < 86400000000).
    { Z.to_euclidean_division_equations. lia. }
    rewrite (Z.mod_small _ _ H4), Z.div_div by lia.
    change (1000000 * 3600) with 3600000000.
    Z.to_euclidean_division_equations. lia.
  - Z.to_euclidean_division_equations. lia.
Qed.

(** ** Statistics *)

Lemma bump_keys (k k' : string) (d : list (string * Z)) :
  k' ∈ (Py.bump k d).*1 <-> k' = k \/ k' ∈ d.*1.
Proof.
  induction d as [|[k0 v] d IH]; simpl.
  - rewrite list_elem_of_singleton, elem_of_nil. tauto.
  - destruct (String.eqb_spec k0 k) as [->|Hne]; simpl; rewrite !elem_of_cons.
    + tauto.
    + rewrite IH. tauto.
Qed.

Lemma bump_NoDup (k : string) (d : list (string * Z)) :
  NoDup d.*1 -> NoDup (Py.bump k d).*1.
Proof.
  induction d as [|[k0 v] d IH]; simpl.
  - intros _. apply NoDup_singleton.
  - intros [Hk0 Hd]%NoDup_cons.
    destruct (String.eqb_spec k0 k) as [->|Hne]; simpl.
    + by apply NoDup_cons.
    + apply NoDup_cons. split; [|by apply IH].
      rewrite bump_keys. intros [->|?]; done.
Qed.

Lemma get0_bump (k k' : string) (d : list (string * Z)) :
  Py.get0 k' (Py.bump k d) = Py.get0 k' d + (if decide (k' = k) then 1 else 0).
Proof.
  induction d as [|[k0 v] d IH]; simpl.
  - destruct (String.eqb_spec k k'), (decide (k' = k)); try congruence; lia.
  - destruct (String.eqb_spec k0 k) as [->|Hne]; simpl.
    + destruct (String.eqb_spec k k'), (decide (k' = k)); try congruence; lia.
    + destruct (String.eqb_spec k0 k'); [|exact IH].
      destruct (decide (k' = k)); [congruence|lia].
Qed.

Lemma get0_elem (k : string) (v : Z) (d : list (string * Z)) :
  NoDup d.*1 -> (k, v) ∈ d -> Py.get0 k d = v.
Proof.
  induction d as [|[k0 v0] d IH]; simpl; [by intros _ ?%elem_of_nil|].
  intros [Hk0 Hd]%NoDup_cons [[= -> ->]|Hin]%elem_of_cons.
  - by rewrite String.eqb_refl.
  - destruct (String.eqb_spec k0 k) as [->|Hne]; [|by apply IH].
    destruct Hk0. apply list_elem_of_fmap. by exists (k, v).
Qed.

Lemma sum_bump (k : string) (d : list (string * Z)) :
  foldr Z.add 0 (Py.bump k d).*2 = foldr Z.add 0 d.*2 + 1.
Proof.
  induction d as [|[k0 v] d IH]; [done|]. cbn [Py.bump].
  destruct (String.eqb_spec k0 k); rewrite !fmap_cons; cbn [foldr snd];
    [lia|rewrite IH; lia].
Qed.

Lemma loop_keys (d : list (string * Z)) (items : list Item) (k : string) :
  k ∈ (foldl (fun d item => Py.bump (sourceName item) d) d items).*1
  <-> k ∈ d.*1 \/ k ∈ sourceName <$> items.
Proof.
  revert d. induction items as [|x items IH]; intros d; simpl.
  - rewrite elem_of_nil. tauto.
  - rewrite IH, bump_keys, elem_of_cons. tauto.
Qed.

Lemma loop_NoDup (d : list (string * Z)) (items : list Item) :
  NoDup d.*1 -> NoDup (foldl (fun d item => Py.bump (sourceName item) d) d items).*1.
Proof.
  revert d. induction items as [|x items IH]; intros d Hd; simpl; [done|].
  by apply IH, bump_NoDup.
Qed.

Lemma loop_get0 (d : list (string * Z)) (items : list Item) (k : string) :
  Py.get0 k (foldl (fun d item => Py.bump (sourceName item) d) d items)
  = Py.get0 k d + items_named k items.
Proof.
  unfold items_named. revert d. induction items as [|x items IH]; intros d; simpl.
  - lia.
  - rewrite IH, get0_bump, filter_cons.
    destruct (decide (k = sourceName x)), (decide (sourceName x = k));
      try congruence; simpl; lia.
Qed.

Lemma loop_sum (d : list (string * Z)) (items : list Item) :
  foldr Z.add 0 (foldl (fun d item => Py.bump (sourceName item) d) d items).*2
  = foldr Z.add 0 d.*2 + Z.of_nat (length items).
Proof.
  revert d. induction items as [|x items IH]; intros d; simpl.
  - lia.
  - rewrite IH, sum_bump. lia.
Qed.

Lemma items_named_pos (k : string) (items : list Item) :
  k ∈ sourceName <$> items -> 1 <= items_named k items.
Proof.
  intros (x & -> & Hx)%list_elem_of_fmap. unfold items_named.
  assert (x ∈ filter (fun n => sourceName n = sourceName x) items) as Hin
    by by apply list_elem_of_filter.
  destruct (filter _ items); [by apply elem_of_nil in Hin|simpl; lia].
Qed.

(** The rows of the counting dictionary. *)
Lemma count_by_source_spec (items : list Item) :
  NoDup (App0.count_by_source items).*1
  /\ (forall k, k ∈ (App0.count_by_source items).*1 <-> k ∈ sourceName <$> items)
  /\ (forall k v, (k, v) ∈ App0.count_by_source items ->
        v = items_named k items /\ 1 <= v)
  /\ foldr Z.add 0 (App0.count_by_source items).*2 = Z.of_nat (length items).
Proof.
  unfold App0.count_by_source.
  assert (Hnd : NoDup (foldl (fun d item => Py.bump (sourceName item) d) [] items).*1)
    by (apply loop_NoDup; constructor).
  assert (Hkeys : forall k,
    k ∈ (foldl (fun d item => Py.bump (sourceName item) d) [] items).*1
    <-> k ∈ sourceName <$> items).
  { intros k. rewrite loop_keys. simpl. rewrite elem_of_nil. tauto. }
  split; [done|]. split; [done|]. split.
  - intros k v Hin. pose proof (get0_elem _ _ _ Hnd Hin) as Hget.
    rewrite loop_get0 in Hget. simpl in Hget. subst v. split; [done|].
    apply items_named_pos, Hkeys, list_elem_of_fmap.
    by exists (k, items_named k items).
  - by rewrite loop_sum.
Qed.

Lemma descending_take_drop {A K} (lt : K -> K -> bool) (key : A -> K)
    (n : nat) (l : list A) (x y : A) :
  descending lt key l -> x ∈ take n l -> y ∈ drop n l -> lt (key x) (key y) = false.
Proof.
  intros Hl [i Hi]%list_elem_of_lookup [j Hj]%list_elem_of_lookup.
  pose proof (lookup_lt_Some _ _ _ Hi) as Hlt. rewrite length_take in Hlt.
  rewrite lookup_take_lt in Hi by lia. rewrite lookup_drop in Hj.
  eapply (descending_lookup lt key l i (n + j)); [done|lia|done|done].
Qed.

(** X17.  The statistics page of the web service lists source names with
    the number of cached items of each: every row has the exact count of
    its name, which is at least 1, no name has two rows, the rows are in
    descending order of count and there are at most 20 of them.  A source
    name of the cache without a row was cut by that limit: then there are
    20 rows and none has a smaller count. *)
Theorem stats_rows_are_the_20_largest_sources
    (cat : Catalog) (hash : string -> Z) (db : option (list string)) (now : Z)
    (st : App0.AppState) (s : App0.Stats) :
  App0.stats cat hash db now st = Some s ->
  let rows := App0.s_news_by_source s in
  (forall name count, (name, count) ∈ rows ->
     count = items_named name (App0.news st) /\ 1 <= count)
  /\ NoDup rows.*1
  /\ (length rows <= 20)%nat
  /\ descending Z.ltb snd rows
  /\ (forall n, n ∈ App0.news st -> sourceName n ∉ rows.*1 ->
        length rows = 20%nat
        /\ forall row, row ∈ rows ->
             items_named (sourceName n) (App0.news st) <= row.2).
Proof.
  unfold App0.stats. intros Hs.
  destruct (App0.load_selected_feeds db) as [selected|]; [|done].
  injection Hs as <-. cbn [App0.s_news_by_source].
  rewrite slice_from_0 by lia. change (Z.to_nat 20) with 20%nat.
  destruct (count_by_source_spec (App0.news st)) as (Hnd & Hkeys & Hrows & _).
  set (d := App0.count_by_source (App0.news st)) in *.
  set (sorted := Py.sorted Z.ltb snd true d).
  assert (Hperm : sorted ≡ₚ d) by apply sorted_perm.
  assert (Hdesc : descending Z.ltb snd sorted).
  { apply sorted_descending; [apply z_ltb_asym|apply z_ltb_neg_trans]. }
  split; [|split; [|split; [|split]]].
  - intros name count Hin. apply Hrows. rewrite <- Hperm.
    eapply elem_of_sublist; [exact Hin|apply sublist_take].
  - assert (Hsub : (take 20 sorted).*1 `sublist_of` sorted.*1)
      by apply fmap_sublist, sublist_take.
    eapply sublist_NoDup in Hsub; [exact Hsub|]. by rewrite Hperm.
  - rewrite length_take. lia.
  - by apply descending_take.
  - intros n Hn Hout.
    assert (Hkey : sourceName n ∈ sorted.*1).
    { rewrite Hperm. apply Hkeys, list_elem_of_fmap. by exists n. }
    apply list_elem_of_fmap in Hkey as ([k v] & Hk & Hin). simpl in Hk. subst k.
    rewrite <- (take_drop 20 sorted) in Hin.
    apply elem_of_app in Hin as [Hin|Hin].
    { destruct Hout. apply list_elem_of_fmap. by exists (sourceName n, v). }
    split.
    + rewrite length_take. apply list_elem_of_lookup in Hin as [j Hj].
      apply lookup_lt_Some in Hj. rewrite length_drop in Hj. lia.
    + intros row Hrow.
      pose proof (descending_take_drop _ _ _ _ _ _ Hdesc Hrow Hin) as Hle.
      apply Z.ltb_ge in Hle. simpl in Hle.
      assert ((sourceName n, v) ∈ d) as Hd.
      { rewrite <- Hperm, <- (take_drop 20 sorted). apply elem_of_app. by right. }
      apply Hrows in Hd as [-> _]. exact Hle.
Qed.

Lemma stats_rows_are_the_20_largest_sources_witness :
  SampleX.stats_page = Some (default SampleX.no_stats SampleX.stats_page)
  /\ App0.s_news_by_source (default SampleX.no_stats SampleX.stats_page) <> []
  /\ NoDup (App0.s_news_by_source (default SampleX.no_stats SampleX.stats_page)).*1.
Proof.
  assert (H : SampleX.stats_page = Some (default SampleX.no_stats SampleX.stats_page))
    by (vm_compute; reflexivity).
  split; [exact H|]. split; [vm_compute; discriminate|].
  exact (proj1 (proj2 (stats_rows_are_the_20_largest_sources
                         Sample.cat Sample.hash (Some ["a"]) 300000000 Sample2.refreshed
                         (default SampleX.no_stats SampleX.stats_page) H))).
Defined.

Lemma size_list_to_set_le (l : list string) :
  (size (list_to_set l : gset string) <= length l)%nat.
Proof.
  induction l as [|x l IH].
  { rewrite list_to_set_nil, size_empty. done. }
  rewrite list_to_set_cons, size_union_alt, size_singleton. simpl length.
  assert (size (list_to_set l ∖ {[x]} : gset string) <= size (list_to_set l : gset string))%nat
    by (apply subseteq_size; intros y [Hy _]%elem_of_difference; exact Hy).
  lia.
Qed.

(** X18.  The statistics of the fetcher add up: the dictionary
    [news_by_source] has one entry for each source name that occurs in the
    cache and no other, every entry holds the number of cached items of
    that name, and the entries sum to [total_news].  [sources_count] counts
    source ids and is never above [total_news]; it is 0 only for an empty
    cache. *)
Theorem fetcher_stats_add_up (self : T1.NewsFetcher) :
  let s := T1.get_stats self in
  NoDup (T1.news_by_source s).*1
  /\ (forall k, k ∈ (T1.news_by_source s).*1 <-> k ∈ sourceName <$> T1.news self)
  /\ (forall k v, (k, v) ∈ T1.news_by_source s ->
        v = items_named k (T1.news self) /\ 1 <= v)
  /\ foldr Z.add 0 (T1.news_by_source s).*2 = T1.total_news s
  /\ T1.sources_count s <= T1.total_news s
  /\ (T1.sources_count s = 0 <-> T1.news self = []).
Proof.
  cbn zeta. unfold T1.get_stats. cbn [T1.news_by_source T1.total_news T1.sources_count].
  destruct (count_by_source_spec (T1.news self)) as (Hnd & Hkeys & Hrows & Hsum).
  split; [exact Hnd|]. split; [exact Hkeys|]. split; [exact Hrows|].
  split; [exact Hsum|]. split.
  - pose proof (size_list_to_set_le (sourceId <$> T1.news self)) as Hle.
    rewrite length_fmap in Hle. lia.
  - split.
    + intros Hz. destruct (T1.news self) as [|x l]; [done|]. exfalso.
      assert (size (list_to_set (sourceId <$> x :: l) : gset string) = 0%nat) as H0 by lia.
      apply size_empty_inv in H0.
      apply (not_elem_of_empty (C:=gset string) (sourceId x)). rewrite <- H0.
      rewrite fmap_cons, list_to_set_cons. by apply elem_of_union_l, elem_of_singleton.
    + by intros ->.
Qed.

Lemma t1_fetch_news_sources cat clock web hash selected tick self f fs :
  default (Py.set_iter hash (T1.selected_feeds self)) selected = f :: fs ->
  Forall (fun n => sourceId n ∈ f :: fs)
         (T1.news (T1.fetch_news cat clock web hash selected tick self).1.2).
Proof.
  intros Hsel. unfold T1.fetch_news. rewrite Hsel. cbn [fst snd T1.news].
  assert (Hall : Forall (fun n => sourceId n ∈ f :: fs)
            (T1.sort_by_date clock
               (T1.ticks (T1.merge_pass cat clock web (f :: fs) tick))
               (T1.all_items (T1.merge_pass cat clock web (f :: fs) tick)))).
  { rewrite sort_by_date_perm.
    eapply Forall_impl; [apply (t1_merge_attributed cat clock web (f :: fs))|].
    - done.
    - constructor.
    - by intros n [Hn _]. }
  unfold Py.slice. by apply Forall_take, Forall_drop.
Qed.

(** X22.  After a refresh over a selection that is not empty, the sources
    the fetcher reports are among the selected feeds: [get_unique_sources]
    is a subset of the selection, and [sources_count] of the statistics is
    at most its size. *)
Theorem fetcher_sources_are_among_the_selected
    (cat : Catalog) (clock : nat -> Z) (web : Web) (hash : string -> Z)
    (selected : option (list string)) (tick : nat) (self : T1.NewsFetcher)
    (feeds : list string) :
  default (Py.set_iter hash (T1.selected_feeds self)) selected = feeds ->
  feeds <> [] ->
  let self' := (T1.fetch_news cat clock web hash selected tick self).1.2 in
  T1.get_unique_sources self' ⊆ list_to_set feeds
  /\ T1.sources_count (T1.get_stats self') <= Z.of_nat (length feeds).
Proof.
  intros Hsel Hne. destruct feeds as [|f fs]; [done|]. cbn zeta.
  pose proof (t1_fetch_news_sources cat clock web hash selected tick self f fs Hsel)
    as Hall.
  set (self' := (T1.fetch_news cat clock web hash selected tick self).1.2) in *.
  assert (Hsub : (list_to_set (sourceId <$> T1.news self') : gset string)
                 ⊆ list_to_set (f :: fs)).
  { intros x (n & -> & Hn)%elem_of_list_to_set%list_elem_of_fmap.
    apply elem_of_list_to_set. by eapply Forall_forall in Hall. }
  split.
  - unfold T1.get_unique_sources. intros x Hx. apply Hsub.
    apply elem_of_list_to_set in Hx. apply elem_of_list_to_set.
    by apply list_elem_of_filter in Hx as [_ Hx].
  - unfold T1.get_stats. cbn [T1.sources_count].
    apply subseteq_size in Hsub.
    pose proof (size_list_to_set_le (f :: fs)). lia.
Qed.

Lemma fetcher_sources_are_among_the_selected_witness :
  default (Py.set_iter Sample.hash (T1.selected_feeds Sample.fetcher))
          (Some ["a"; "b"]) = ["a"; "b"]
  /\ ["a"; "b"] <> []
  /\ T1.get_unique_sources
       (T1.fetch_news Sample.cat Sample.clock Sample.web Sample.hash (Some ["a"; "b"]) 0
                      Sample.fetcher).1.2
     ⊆ list_to_set ["a"; "b"].
Proof.
  assert (H1 : default (Py.set_iter Sample.hash (T1.selected_feeds Sample.fetcher))
                       (Some ["a"; "b"]) = ["a"; "b"])
    by reflexivity.
  assert (H2 : ["a"; "b"] <> ([] : list string)) by discriminate.
  split; [exact H1|]. split; [exact H2|].
  exact (proj1 (fetcher_sources_are_among_the_selected
                  Sample.cat Sample.clock Sample.web Sample.hash (Some ["a"; "b"]) 0
                  Sample.fetcher ["a"; "b"] H1 H2)).
Defined.

(** ** Custom feeds and the stored selection *)

Lemma length_append (a b : string) :
  String.length (a +:+ b) = (String.length a + String.length b)%nat.
Proof. induction a as [|c a IH]; [done|]. rewrite append_cons. simpl. by rewrite IH. Qed.

Lemma append_inj_l (a b s : string) : a +:+ s = b +:+ s -> a = b.
Proof.
  revert b. induction a as [|c a IH]; intros [|d b] H.
  - done.
  - apply (f_equal String.length) in H. rewrite !length_append in H. simpl in H. lia.
  - apply (f_equal String.length) in H. rewrite !length_append in H. simpl in H. lia.
  - rewrite !append_cons in H. injection H as -> H. f_equal. by apply IH.
Qed.

Lemma last_char_app (a b : string) : b <> "" -> last_char (a +:+ b) = last_char b.
Proof.
  intros Hb. induction a as [|c a IH]; [done|]. rewrite append_cons.
  cbn [last_char]. destruct (a +:+ b) eqn:Hab; [|exact IH].
  destruct a, b; done.
Qed.

Lemma numeral_app (a b : string) : numeral a -> numeral b -> numeral (a +:+ b).
Proof.
  induction a as [|x a IH]; [done|]. rewrite append_cons. intros [Hx Ha] Hb.
  split; [done|by apply IH].
Qed.

Lemma numeral_last (s : string) :
  numeral s -> s <> "" -> exists c, last_char s = Some c /\ numeral_char c = true.
Proof.
  induction s as [|c s IH]; [done|]. intros [Hc Hs] _.
  destruct s as [|d s]; [by exists c|].
  destruct IH as (c' & Hlast & Hc'); [done|done|]. by exists c'.
Qed.

Lemma pretty_N_char_numeral (x : N) : numeral_char (pretty_N_char x) = true.
Proof. unfold pretty_N_char. by repeat case_match. Qed.

Lemma pretty_N_go_app (x : N) (s : string) :
  exists t, pretty_N_go x s = t +:+ s /\ numeral t /\ ((0 < x)%N -> t <> "").
Proof.
  revert s. induction (N.lt_wf_0 x) as [x _ IH]; intros s.
  destruct (decide (x = 0%N)) as [->|Hx].
  - exists "". rewrite pretty_N_go_0. split; [done|]. split; [done|lia].
  - rewrite pretty_N_go_step by lia.
    destruct (IH (x `div` 10)%N) with (s := String (pretty_N_char (x `mod` 10)) s)
      as (t & -> & Ht & _).
    { apply N.div_lt; lia. }
    exists (t +:+ String (pretty_N_char (x `mod` 10)) "").
    rewrite append_assoc. split; [done|]. split.
    + apply numeral_app; [done|]. split; [apply pretty_N_char_numeral|done].
    + intros _. by destruct t.
Qed.

Lemma pretty_Z_numeral (z : Z) : numeral (pretty z) /\ pretty z <> "".
Proof.
  assert (Hpos : forall p : positive, numeral (pretty p) /\ pretty p <> "").
  { intros p. unfold pretty, pretty_positive, pretty, pretty_N.
    destruct (decide (N.pos p = 0%N)); [done|].
    destruct (pretty_N_go_app (N.pos p) "") as (t & -> & Ht & Hne).
    rewrite append_nil_r. split; [done|]. apply Hne. lia. }
  destruct z as [|p|p]; [done|apply Hpos|].
  destruct (Hpos p) as [Hn Hne]. change (pretty (Z.neg p)) with ("-" +:+ pretty p).
  split; [|done]. by split.
Qed.

Lemma endswith_spec (suffix s : string) :
  Py.endswith suffix s = true <-> exists pre, s = pre +:+ suffix.
Proof.
  induction s as [|c s IH]; cbn [Py.endswith].
  - rewrite orb_false_r. split.
    + intros ->%String.eqb_eq. by exists "".
    + intros [[|? ?] H]; [|done]. rewrite append_empty in H. subst. apply String.eqb_refl.
  - rewrite orb_true_iff, IH. split.
    + intros [->%String.eqb_eq|[pre ->]]; [by exists ""|by exists (String c pre)].
    + intros [[|d pre] H].
      * left. rewrite append_empty in H. subst. apply String.eqb_refl.
      * right. rewrite append_cons in H. injection H as -> ->. by exists pre.
Qed.

Lemma custom_id_not_name_key (now : Z) (pre : string) :
  custom_id now <> pre +:+ "_name".
Proof.
  intros H. apply (f_equal last_char) in H. unfold custom_id in H.
  destruct (pretty_Z_numeral now) as [Hn Hne].
  rewrite !last_char_app in H by done.
  destruct (numeral_last _ Hn Hne) as (c & Hc & Hnum).
  rewrite Hc in H. simpl in H. injection H as ->. done.
Qed.

Lemma custom_id_inj (now now' : Z) : custom_id now = custom_id now' -> now = now'.
Proof.
  unfold custom_id. intros H. rewrite !append_cons, !append_empty in H.
  injection H as H. by apply (inj pretty).
Qed.

Lemma replace_numeral (old new p : string) (c : ascii) (old' : string) :
  old = String c old' -> numeral_char c = false -> numeral p ->
  Py.replace_go 0 old new p = p.
Proof.
  intros -> Hc. induction p as [|d p IH]; [done|]. intros [Hd Hp].
  cbn [Py.replace_go].
  change (String.prefix (String c old') (String d p))
    with (if ascii_dec c d then String.prefix old' p else false).
  destruct (ascii_dec c d) as [->|_]; [congruence|]. by rewrite IH.
Qed.

Lemma replace_go_skip (old new a b : string) :
  Py.replace_go (String.length a) old new (a +:+ b) = Py.replace_go 0 old new b.
Proof. induction a as [|c a IH]; [done|]. rewrite append_cons. exact IH. Qed.

Lemma replace_go_hit (old new b : string) (c : ascii) (old' : string) :
  old = String c old' ->
  Py.replace_go 0 old new (old +:+ b) = new +:+ Py.replace_go 0 old new b.
Proof.
  intros ->.
  assert (Hp : String.prefix (String c old') (String c (old' +:+ b)) = true)
    by (apply prefix_spec; by exists b).
  rewrite append_cons. cbn [Py.replace_go]. rewrite Hp.
  replace (String.length (String c old') - 1)%nat with (String.length old') by (simpl; lia).
  by rewrite replace_go_skip.
Qed.

(** The display name of a custom id: the stored name, or the number. *)
Lemma custom_display_name (all_feeds names : gmap string string) (now : Z) :
  App0.get_source_display_name all_feeds names (custom_id now)
  = default (pretty now) (all_feeds !! custom_name_key now).
Proof.
  unfold App0.get_source_display_name.
  destruct (Py.endswith "_name" (custom_id now)) eqn:Hend.
  { apply endswith_spec in Hend as [pre Hpre]. by apply custom_id_not_name_key in Hpre. }
  rewrite andb_false_r.
  assert (Py.startswith "custom_" (custom_id now) = true) as ->.
  { apply prefix_spec. by eexists. }
  fold (custom_name_key now). f_equal.
  unfold custom_id, Py.replace.
  rewrite (replace_go_hit "custom_" "" (pretty now) "c" "ustom_") by done.
  rewrite append_empty.
  eapply replace_numeral; [reflexivity|done|apply pretty_Z_numeral].
Qed.

(** X19.  Adding a custom feed enters it in the catalog under the id
    [custom_<seconds>]: the id leads to the address given, its display name
    is the name given, and the other entries stay as they were, also when
    the database cannot be used.  The name is stored under a second key of
    the same table, so the table grows by two entries for a new id.  When
    the database works the id joins the stored selection, which then holds
    what a read returned (the three defaults for an empty table) and the
    id. *)
Theorem custom_feed_is_registered_under_its_name
    (name url : string) (now : Z) (all_feeds names : gmap string string)
    (db : option (list string)) :
  let r := App0.add_custom_feed name url now all_feeds db in
  r.1 !! custom_id now = Some url
  /\ App0.get_source_display_name r.1 names (custom_id now) = name
  /\ (forall k, k <> custom_id now -> k <> custom_name_key now ->
        r.1 !! k = all_feeds !! k)
  /\ (all_feeds !! custom_id now = None -> all_feeds !! custom_name_key now = None ->
        size r.1 = (size all_feeds + 2)%nat)
  /\ match db with
     | None => r.2 = None
     | Some rows =>
         exists table,
           r.2 = Some table
           /\ forall f, f ∈ table
                        <-> f = custom_id now
                            \/ f ∈ (if decide (rows = [])
                                    then ["lenta"; "ria"; "bbc"] else rows)
     end.
Proof.
  intros r.
  assert (Hne : custom_id now <> custom_name_key now).
  { apply custom_id_not_name_key. }
  assert (Hr1 : r.1 = <[custom_name_key now := name]> (<[custom_id now := url]> all_feeds))
    by reflexivity.
  split; [|split; [|split; [|split]]].
  - rewrite Hr1, lookup_insert_ne, lookup_insert_eq by done. done.
  - rewrite custom_display_name, Hr1, lookup_insert_eq. done.
  - intros k Hk1 Hk2. by rewrite Hr1, !lookup_insert_ne.
  - intros Hid Hkey. rewrite Hr1.
    rewrite !map_size_insert_None; [lia|done|].
    by rewrite lookup_insert_ne.
  - destruct db as [rows|]; [|done]. eexists. split; [reflexivity|].
    intros f. rewrite elem_of_union, elem_of_singleton.
    destruct (decide (rows = [])); [|by rewrite elem_of_list_to_set].
    rewrite !elem_of_union, !elem_of_singleton, !elem_of_cons, elem_of_nil. tauto.
Qed.

(** X20.  Two custom feeds added in the same second get the same id: the
    catalog then is as if the first had never been added.  Feeds added in
    different seconds do not disturb each other. *)
Theorem custom_feeds_of_one_second_collide
    (name1 url1 name2 url2 : string) (now1 now2 : Z)
    (all_feeds names : gmap string string) (db1 db2 : option (list string)) :
  let r1 := App0.add_custom_feed name1 url1 now1 all_feeds db1 in
  let r2 := App0.add_custom_feed name2 url2 now2 r1.1 db2 in
  (now1 = now2 -> r2.1 = (App0.add_custom_feed name2 url2 now2 all_feeds db2).1)
  /\ (now1 <> now2 ->
      r2.1 !! custom_id now1 = Some url1
      /\ App0.get_source_display_name r2.1 names (custom_id now1) = name1).
Proof.
  intros r1 r2.
  assert (Hr1 : r1.1 = <[custom_name_key now1 := name1]>
                          (<[custom_id now1 := url1]> all_feeds)) by reflexivity.
  assert (Hr2 : r2.1 = <[custom_name_key now2 := name2]>
                          (<[custom_id now2 := url2]> r1.1)) by reflexivity.
  split.
  - intros ->. rewrite Hr2, Hr1. cbn [fst App0.add_custom_feed].
    fold (custom_id now2). fold (custom_name_key now2).
    apply map_eq. intros k.
    destruct (decide (k = custom_name_key now2)) as [->|Hk1].
    { by rewrite !lookup_insert_eq. }
    rewrite !(lookup_insert_ne _ (custom_name_key now2)) by done.
    destruct (decide (k = custom_id now2)) as [->|Hk2].
    { by rewrite !lookup_insert_eq. }
    by rewrite !lookup_insert_ne.
  - intros Hnow.
    assert (H1 : custom_id now2 <> custom_id now1).
    { intros H%custom_id_inj. congruence. }
    assert (H2 : custom_name_key now2 <> custom_id now1).
    { intros H. by apply (custom_id_not_name_key now1 (custom_id now2)). }
    assert (H3 : custom_name_key now2 <> custom_name_key now1).
    { intros H%append_inj_l. done. }
    assert (H4 : custom_id now2 <> custom_name_key now1).
    { apply custom_id_not_name_key. }
    assert (H5 : custom_name_key now1 <> custom_id now1).
    { intros H. by apply (custom_id_not_name_key now1 (custom_id now1)). }
    split.
    + rewrite Hr2, Hr1, !lookup_insert_ne, lookup_insert_eq by done. done.
    + rewrite custom_display_name, Hr2, Hr1.
      rewrite !lookup_insert_ne, lookup_insert_eq by done. done.
Qed.

Lemma numbered_ascending (hash : string -> Z) (l : list string) (k : nat) :
  (forall i x, l !! i = Some x -> hash x = Z.of_nat (k + i)) ->
  ascending Z.ltb hash l.
Proof.
  unfold ascending. revert k. induction l as [|y l IH]; intros k Hl; constructor.
  - apply (IH (S k)). intros i x Hi. rewrite (Hl (S i) x Hi). f_equal. lia.
  - apply Forall_forall. intros x [i Hi]%list_elem_of_lookup.
    rewrite (Hl 0%nat y eq_refl), (Hl (S i) x Hi). apply Z.ltb_ge. lia.
Qed.

(** The order of an iteration is not tied to the set: every enumeration of
    its elements is the order of some iteration. *)
Lemma set_iter_any_order (l : list string) :
  NoDup l -> exists hash, Py.set_iter hash (list_to_set l) = l.
Proof.
  intros Hnd.
  set (hash := fun x : string =>
                 match list_find (fun y => y = x) l with
                 | Some (i, _) => Z.of_nat i
                 | None => 0
                 end).
  assert (Hidx : forall i x, l !! i = Some x -> hash x = Z.of_nat i).
  { intros i x Hi. unfold hash.
    destruct (list_find (fun y => y = x) l) as [[j y]|] eqn:E.
    - apply list_find_Some in E as (Hj & -> & _). f_equal.
      by apply (NoDup_lookup l j i x).
    - apply list_find_None in E. eapply Forall_forall in E; [by destruct E|].
      by eapply list_elem_of_lookup_2. }
  exists hash.
  apply (StronglySorted_unique_strong (fun x y => (hash y <? hash x) = false)).
  - intros x1 x2 H1%set_iter_elem%elem_of_list_to_set H2 R1%Z.ltb_ge R2%Z.ltb_ge.
    apply list_elem_of_lookup in H1 as [i Hi]. apply list_elem_of_lookup in H2 as [j Hj].
    rewrite (Hidx i x1 Hi), (Hidx j x2 Hj) in *.
    assert (i = j) by lia. subst j. congruence.
  - apply (sorted_ascending Z.ltb hash); [apply z_ltb_asym|apply z_ltb_neg_trans].
  - apply (numbered_ascending hash l 0). intros i x Hi. by apply Hidx.
  - rewrite set_iter_perm. by apply elements_list_to_set.
Qed.

Lemma set_iter_list_to_set (hash : string -> Z) (l : list string) :
  Py.set_iter hash (list_to_set l) ≡ₚ remove_dups l.
Proof.
  rewrite set_iter_perm. apply NoDup_Permutation.
  - apply NoDup_elements.
  - apply NoDup_remove_dups.
  - intros x. by rewrite elem_of_elements, elem_of_list_to_set, elem_of_remove_dups.
Qed.

(** X21.  What [POST /update-sources] stores drives the next refresh: with
    the gate open the service requests the addresses of the stored ids that
    are in the catalog, each id once, in the order in which the set of the
    selection is iterated; that order is not the order of the form nor the
    order of the rows.  An empty form stores nothing, and the refresh then
    asks for lenta, ria and bbc, again in the order of the iteration. *)
Theorem stored_selection_drives_the_refresh
    (cat : Catalog) (uuid4 : nat -> string) (web : Web) (hash : string -> Z)
    (source rows : list string) (now : Z) (u : nat) (st : App0.AppState) :
  list_to_set rows = App0.update_sources source ->
  gate_open now st ->
  let r := App0.fetch_news cat uuid4 web hash (Some rows) now u st in
  let stored :=
    if decide (source = []) then ["lenta"; "ria"; "bbc"] else remove_dups source in
  r.1.1 = App0.RedirectSortDate
  /\ r.2 = omap (fun f => ALL_FEEDS cat !! f) (Py.set_iter hash (list_to_set stored))
  /\ Py.set_iter hash (list_to_set stored) ≡ₚ stored
  /\ r.2 ≡ₚ omap (fun f => ALL_FEEDS cat !! f) stored
  /\ (forall f, f ∈ rows <-> f ∈ source).
Proof.
  intros Hrows Hopen. unfold App0.update_sources in Hrows. cbn zeta.
  rewrite (app0_gate_open _ _ _ _ _ _ _ _ Hopen).
  cbn [App0.load_selected_feeds mbind option_bind fst snd].
  assert (Hmem : forall f, f ∈ rows <-> f ∈ source).
  { intros f. rewrite <- (elem_of_list_to_set (C:=gset string) f rows), Hrows.
    apply elem_of_list_to_set. }
  assert (Hnil : rows = [] <-> source = []).
  { split; intros ->.
    - destruct source as [|x source]; [done|]. exfalso.
      apply (elem_of_nil x), Hmem. by left.
    - destruct rows as [|x rows]; [done|]. exfalso.
      apply (elem_of_nil x), Hmem. by left. }
  set (stored := if decide (source = []) then ["lenta"; "ria"; "bbc"]
                 else remove_dups source).
  assert (Hsel : (if decide (rows = []) then {["lenta"; "ria"; "bbc"]}
                  else list_to_set rows) = (list_to_set stored : gset string)).
  { unfold stored. destruct (decide (rows = [])) as [Hr|Hr],
      (decide (source = [])) as [Hs|Hs]; [|tauto|tauto|].
    - apply set_eq. intros f.
      rewrite !elem_of_union, !elem_of_singleton, elem_of_list_to_set,
        !elem_of_cons, elem_of_nil. tauto.
    - rewrite Hrows. apply set_eq. intros f.
      by rewrite !elem_of_list_to_set, elem_of_remove_dups. }
  rewrite Hsel.
  assert (Hperm : Py.set_iter hash (list_to_set stored) ≡ₚ stored).
  { rewrite set_iter_list_to_set. unfold stored.
    destruct (decide (source = [])).
    - apply NoDup_Permutation; [apply NoDup_remove_dups| |].
      + repeat constructor; rewrite ?elem_of_cons, ?elem_of_nil;
          intros H; repeat destruct H as [H|H]; try done.
      + intros x. apply elem_of_remove_dups.
    - apply NoDup_Permutation;
        [apply NoDup_remove_dups|apply NoDup_remove_dups|].
      intros x. by rewrite !elem_of_remove_dups. }
  split; [done|].
  assert (Hreq : App0.requested (App0.merge_pass cat uuid4 web
                   (Py.set_iter hash (list_to_set stored)) u)
                 = omap (fun f => ALL_FEEDS cat !! f)
                        (Py.set_iter hash (list_to_set stored))).
  { unfold App0.merge_pass. by rewrite app0_merge_requested. }
  split; [exact Hreq|]. split; [exact Hperm|]. split; [|exact Hmem].
  by rewrite Hreq, Hperm.
Qed.

Lemma stored_selection_drives_the_refresh_witness :
  list_to_set ["b"; "a"] = App0.update_sources ["a"; "b"; "a"]
  /\ gate_open 0 App0.initial_state
  /\ (App0.fetch_news Sample.cat Sample.uuid4 Sample.web Sample.hash (Some ["b"; "a"]) 0 0
                      App0.initial_state).2
     ≡ₚ ["http://b"; "http://a"].
Proof.
  assert (H1 : list_to_set ["b"; "a"] = App0.update_sources ["a"; "b"; "a"])
    by (vm_compute; reflexivity).
  assert (H2 : gate_open 0 App0.initial_state) by exact I.
  split; [exact H1|]. split; [exact H2|].
  exact (proj1 (proj2 (proj2 (proj2 (stored_selection_drives_the_refresh
       Sample.cat Sample.uuid4 Sample.web Sample.hash ["a"; "b"; "a"] ["b"; "a"] 0 0
       App0.initial_state H1 H2))))).
Defined.

(** ** The selection page *)

Lemma foldl_preserves_in {A B} (P : A -> Prop) (f : A -> B -> A) (l : list B) (a : A) :
  (forall a x, x ∈ l -> P a -> P (f a x)) -> P a -> P (foldl f a l).
Proof.
  revert a. induction l as [|x l IH]; intros a Hstep Ha; simpl; [exact Ha|].
  apply IH.
  - intros a' y Hy. apply Hstep. by right.
  - apply Hstep; [by left|exact Ha].
Qed.

Lemma dict_set_elem {V} (k k' : string) (v v' : V) (d : list (string * V)) :
  (k', v') ∈ Py.dict_set k v d -> v' = v \/ (k', v') ∈ d.
Proof.
  induction d as [|[k0 v0] d IH]; simpl.
  - intros [= _ ->]%list_elem_of_singleton. by left.
  - destruct (k0 =? k)%string.
    + intros [[= _ ->]|Hin]%elem_of_cons; [by left|right; by right].
    + intros [[= -> ->]|Hin]%elem_of_cons; [right; by left|].
      destruct (IH Hin) as [->|Hd]; [by left|right; by right].
Qed.

Lemma dict_set_has {V} (k : string) (v : V) (d : list (string * V)) :
  exists k', (k', v) ∈ Py.dict_set k v d.
Proof.
  induction d as [|[k0 v0] d [k' IH]]; simpl.
  - exists k. by left.
  - destruct (k0 =? k)%string; [exists k0; by left|exists k'; by right].
Qed.

Lemma dict_set_values {V} (P : V -> Prop) (k : string) (v : V) (d : list (string * V)) :
  P v -> Forall (fun kv => P kv.2) d -> Forall (fun kv => P kv.2) (Py.dict_set k v d).
Proof.
  intros Hv Hd. apply Forall_forall. intros [k' v'] Hin.
  apply dict_set_elem in Hin as [->|Hin]; [done|].
  by eapply Forall_forall in Hd.
Qed.

(** X23.  The selection page offers check boxes for feeds of the catalog
    only; a box is ticked exactly when its feed is selected and carries the
    display name of the feed, and no category is shown empty.  A custom
    feed, which no category lists, has a box exactly while it is selected:
    once it is deselected the page does not offer it any more. *)
Theorem custom_feeds_are_offered_while_selected
    (all_feeds names : gmap string string)
    (categories : list (string * list string)) (hash : string -> Z)
    (db : option (list string))
    (page_ : list (string * list App0.Choice) * Z) (now : Z) :
  App0.select_sources all_feeds names categories hash db = Some page_ ->
  exists selected,
    App0.load_selected_feeds db = Some selected
    /\ page_.2 = Z.of_nat (size selected)
    /\ Forall (fun kv =>
                 kv.2 <> []
                 /\ Forall (well_formed_choice all_feeds names categories selected) kv.2)
              page_.1
    /\ (is_Some (all_feeds !! custom_id now) ->
        (forall category ids, (category, ids) ∈ categories -> custom_id now ∉ ids) ->
        offered (custom_id now) page_.1 <-> custom_id now ∈ selected).
Proof.
  unfold App0.select_sources.
  destruct (App0.load_selected_feeds db) as [selected|]; [|done].
  cbn [mbind option_bind]. intros [= <-]. exists selected.
  split; [done|]. split; [done|]. cbn [fst snd].
  set (wf := well_formed_choice all_feeds names categories selected).
  set (good := fun kv : string * list App0.Choice => kv.2 <> [] /\ Forall wf kv.2).
  set (step := fun (categorized : list (string * list App0.Choice))
                   (entry : string * list string) => _).
  set (custom_feeds := _ <$> filter _ (Py.set_iter hash selected)).
  assert (Hcats : Forall good (foldl step [] categories)).
  { apply foldl_preserves_in; [|constructor].
    intros d [category ids] Hentry Hd. unfold step. cbn [fst snd].
    destruct (_ <$> filter _ ids) as [|c cs] eqn:Hcs; [done|].
    apply (dict_set_values (fun v => v <> [] /\ Forall wf v)); [|done].
    split; [done|]. rewrite <- Hcs. apply Forall_fmap, Forall_forall.
    intros fid [Hfid Hin]%list_elem_of_filter. unfold wf, well_formed_choice. simpl.
    split; [done|]. split; [apply bool_decide_eq_true|]. split; [done|].
    left. by exists category, ids. }
  assert (Hcustom : Forall wf custom_feeds).
  { apply Forall_fmap, Forall_forall.
    intros fid [Hfid Hin]%list_elem_of_filter. unfold wf, well_formed_choice. simpl.
    apply andb_true_iff in Hfid as [_ Hfid%bool_decide_eq_true].
    apply set_iter_elem in Hin.
    split; [done|]. split; [done|]. split; [done|]. by right. }
  assert (Hall : Forall good
            match custom_feeds with
            | [] => foldl step [] categories
            | _ :: _ => Py.dict_set App0.CUSTOM_CATEGORY custom_feeds
                                    (foldl step [] categories)
            end).
  { destruct custom_feeds as [|c cs] eqn:Hcf; [done|].
    by apply (dict_set_values (fun v => v <> [] /\ Forall wf v)). }
  split; [exact Hall|].
  intros Hfeed Hfresh. split.
  - intros (category & choices & Hin & (c & Hc & Hcin)%list_elem_of_fmap).
    eapply Forall_forall in Hall; [|exact Hin]. destruct Hall as [_ Hwf].
    eapply Forall_forall in Hwf; [|exact Hcin].
    destruct Hwf as (_ & _ & _ & [(cat' & ids & Hcat & Hids)|Hsel]).
    + rewrite <- Hc in Hids. by destruct (Hfresh cat' ids).
    + by rewrite Hc.
  - intros Hsel.
    assert (Hin : App0.mkChoice (custom_id now)
                    (App0.get_source_display_name all_feeds names (custom_id now)) true
                  ∈ custom_feeds).
    { unfold custom_feeds.
      apply (list_elem_of_fmap_2
               (fun fid => App0.mkChoice fid
                  (App0.get_source_display_name all_feeds names fid) true)).
      apply list_elem_of_filter. split; [|by apply set_iter_elem].
      apply andb_true_iff. split; [apply andb_true_iff; split|].
      - apply prefix_spec. by eexists.
      - apply negb_true_iff. destruct (Py.endswith "_name" (custom_id now)) eqn:Hend; [|done].
        apply endswith_spec in Hend as [pre Hpre].
        by apply custom_id_not_name_key in Hpre.
      - by apply bool_decide_eq_true. }
    destruct custom_feeds as [|c cs] eqn:Hcf; [by apply elem_of_nil in Hin|].
    destruct (dict_set_has App0.CUSTOM_CATEGORY (c :: cs) (foldl step [] categories))
      as [k' Hk'].
    exists k', (c :: cs). split; [exact Hk'|].
    apply (list_elem_of_fmap_2 App0.c_id) in Hin. exact Hin.
Qed.

Lemma custom_feeds_are_offered_while_selected_witness :
  SampleX.select_page = Some (default ([], 0) SampleX.select_page)
  /\ exists selected,
       App0.load_selected_feeds (Some ["a"; "custom_5"]) = Some selected
       /\ (default ([], 0) SampleX.select_page).2 = Z.of_nat (size selected).
Proof.
  assert (H : SampleX.select_page = Some (default ([], 0) SampleX.select_page))
    by (vm_compute; reflexivity).
  split; [exact H|].
  destruct (custom_feeds_are_offered_while_selected
              SampleX.feeds_with_custom ∅ [("news", ["a"; "b"; "x"])] Sample.hash
              (Some ["a"; "custom_5"]) (default ([], 0) SampleX.select_page) 5 H)
    as (selected & H1 & H2 & _).
  exists selected. by split.
Defined.
